(** * environment-overview: the data-orchestration core of the widget

    A shallow embedding of [src/environment-overview.js] (class
    [EnvironmentOverview]) and the properties of its context resolver,
    fetch gateway, staged loader, refresh scheduler and state derivations.

    Conventions of the embedding.
    - A JavaScript number is an IEEE-754 binary64 value: Rocq's primitive
      [float].  [null] and [undefined] of a payload field are [None].
    - Payloads the code inspects are records whose fields are optional
      (every field may be missing from the JSON body); payloads the code
      only caches are raw [Json] trees.
    - A JavaScript string is the sequence of the bytes of its UTF-8
      encoding ([string]).
    - An [async] method is split at its [await]s: the part that runs
      synchronously, and one continuation per awaited result.
    - The DOM writers ([_renderBanners], [_renderCards], the tab
      builders, the list writers of the picker) are not part of the
      core: each call is an entry of the effect log, or leaves none, and
      is taken to return normally (a tab builder or a list writer handed
      a payload of an unexpected shape can raise; such payloads are
      outside the embedding).  [_renderHeader] is the exception: it
      calls [_headerCTAs], which raises for a state that is the name of
      an inherited property of its table, so its completion is computed
      and followed through [_renderAll], the [catch] of [_loadData] and
      the tick.  An exception nothing catches is the entry [Raised] of
      the log.
    - The derivations the writers call that the core depends on
      ([_hasKubernetes], [_buildLaunchReadiness], [_headerCTAs], the
      deploy-health figure) are embedded on their own.
    - The helpers the writers call ([_fmtDur], [_fmtElapsed],
      [_humanize], [_stateConf], [_handleCTA]) and the parts of the tab
      builders that decide what is shown (the release table, the type
      tiles, the resources card) are embedded as functions of the values
      they read; the markup around them is not.
    - The picker shown when no context is found is embedded with its
      two requests, its two change events and its Go button; the option
      lists it writes are not kept (their order depends on the locale).
    - A run is a list of events of one insertion of the element.  The
      element can be inserted again: a life is a list of events and
      insertions. *)

From Stdlib Require Import ZArith Floats Uint63 List String Ascii Bool Lia.
From Stdlib Require Import DecimalString DecimalZ DecimalPos.
Import ListNotations.

(* ------------------------------------------------------------------ *)
(** ** JavaScript values and operators used by the source *)

Module Js.

(** Completion of a JavaScript computation: a value, or a thrown
    exception carrying its [message]. *)
Inductive Completion (A : Type) : Type :=
| Normal (a : A)
| Throw (message : string).
Arguments Normal {A} a.
Arguments Throw {A} message.

Definition bind {A B} (c : Completion A) (k : A -> Completion B) : Completion B :=
  match c with
  | Normal a => k a
  | Throw m => Throw m
  end.

(** [try { c } catch { h }] *)
Definition try_catch {A} (c : Completion A) (h : string -> Completion A) : Completion A :=
  match c with
  | Normal a => Normal a
  | Throw m => h m
  end.

Definition returns {A} (c : Completion A) : Prop := exists a, c = Normal a.

(** Truthiness of a number: [0], [-0] and [NaN] are falsy. *)
Definition truthy_num (x : float) : bool :=
  negb (PrimFloat.eqb x 0 || PrimFloat.is_nan x).

(** Truthiness of a string: only the empty string is falsy. *)
Definition truthy_str (s : string) : bool :=
  match s with EmptyString => false | String _ _ => true end.

(** [x || 0] on an optional numeric field. *)
Definition num_or_0 (x : option float) : float :=
  match x with
  | Some v => if truthy_num v then v else 0%float
  | None => 0%float
  end.

(** [s || d] on an optional string field. *)
Definition str_or (x : option string) (d : string) : string :=
  match x with
  | Some v => if truthy_str v then v else d
  | None => d
  end.

(** [!!s] on an optional string field. *)
Definition truthy_ostr (x : option string) : bool :=
  match x with Some v => truthy_str v | None => false end.

(** [!!b] on an optional boolean field. *)
Definition truthy_obool (x : option bool) : bool :=
  match x with Some b => b | None => false end.

(** [x === true] on an optional boolean field. *)
Definition is_true (x : option bool) : bool :=
  match x with Some true => true | _ => false end.

(** The float of a natural number below 2^53 (exact). *)
Definition float_of_Z (n : Z) : float := PrimFloat.of_uint63 (Uint63.of_Z n).

(** [Math.round]: the integer closest to [x], ties towards +infinity;
    NaN, the infinities and the zeros are returned unchanged, and a
    negative [x] that rounds to zero gives [-0].  The rounding is done
    on the exact value [(-1)^s * m * 2^e] of the double. *)
Definition Math_round (x : float) : float :=
  match Prim2SF x with
  | S754_finite s m e =>
      if (0 <=? e)%Z then x
      else
        let d := (2 ^ (- e))%Z in
        if s then
          let n := ((d - 2 * Z.pos m) / (2 * d))%Z in
          if (n =? 0)%Z then (-0)%float else PrimFloat.opp (float_of_Z (- n))
        else float_of_Z ((2 * Z.pos m + d) / (2 * d))%Z
  | _ => x
  end.

(** Raw JSON, for the payloads the widget caches without reading them
    in the core. *)
#[warnings="-register-all"]
Inductive Json : Type :=
| JNull
| JBool (b : bool)
| JNum (x : float)
| JStr (s : string)
| JArr (items : list Json)
| JObj (props : list (string * Json)).

Definition truthy (j : Json) : bool :=
  match j with
  | JNull => false
  | JBool b => b
  | JNum x => truthy_num x
  | JStr s => truthy_str s
  | JArr _ | JObj _ => true
  end.

(** Types with a [null] element. *)
Class Nullable (A : Type) := null : A.
#[global] Instance Nullable_option {A} : Nullable (option A) := None.
#[global] Instance Nullable_Json : Nullable Json := JNull.

End Js.
Import Js.

(* ------------------------------------------------------------------ *)
(** ** Payloads read by the core

    Only the fields the embedded methods read are kept. *)

(** [overview.deploymentsStats] *)
Record DeploymentsStats := {
  successReleases  : option float;
  failedReleases   : option float;
  noChangeReleases : option float;
  isFirstRelease   : option bool
}.

(** [env.stack] *)
Record Stack := {
  stack_name    : option string;
  stack_branch  : option string;
  projectTypeId : option string
}.

(** The cluster object, [this.env] (from [overview.cluster]). *)
Record Cluster := {
  clusterState      : option string;
  cloud             : option string;
  cloudAccountId    : option string;
  configured        : option bool;
  hasK8sCredentials : option bool;
  componentVersions : option (list (string * string));
  stack             : option Stack;
  env_stackName     : option string;
  env_branch        : option string
}.

(** An entry of [overview.inProgressDeployments]. *)
Record Deployment := {
  dep_id      : option string;
  releaseType : option string
}.

(** The body of [/deployments/overview]. *)
Record Overview := {
  cluster               : option Cluster;
  inProgressDeployments : option (list Deployment);
  deploymentsStats      : option DeploymentsStats
}.

(** The body of [/resource-stats]. *)
Record ResourceStats := {
  totalCount : option float
}.

(** The body of [/variable-counts]. *)
Record VarCounts := {
  variableCount : option float;
  secretCount   : option float
}.

(** The body of the [/info] call that resolves names to an id. *)
Record ClusterInfo := {
  info_id        : option string;
  info_clusterId : option string
}.

(** The body of [/cost-explorer/aws/enabled]: a bare boolean, or an object
    with an [enabled] field. *)
Inductive CostData :=
| CostFlag (b : bool)
| CostObject (enabled : option bool).

(** The object [{}] the code substitutes for a missing record
    ([this.env || {}], [... || {}]). *)
Definition empty_stats : DeploymentsStats :=
  {| successReleases := None; failedReleases := None;
     noChangeReleases := None; isFirstRelease := None |}.

Definition empty_stack : Stack :=
  {| stack_name := None; stack_branch := None; projectTypeId := None |}.

Definition empty_cluster : Cluster :=
  {| clusterState := None; cloud := None; cloudAccountId := None;
     configured := None; hasK8sCredentials := None; componentVersions := None;
     stack := None; env_stackName := None; env_branch := None |}.

Definition env_or_empty (env : option Cluster) : Cluster :=
  match env with Some e => e | None => empty_cluster end.

(* ------------------------------------------------------------------ *)
(** ** Deploy health ([_renderCards]) *)

Module DeployHealth.

(** [(ds.successReleases || 0) + (ds.failedReleases || 0) + (ds.noChangeReleases || 0)] *)
Definition depTotal (ds : DeploymentsStats) : float :=
  (num_or_0 (successReleases ds) + num_or_0 (failedReleases ds)
   + num_or_0 (noChangeReleases ds))%float.

(** [depTotal > 0 ? Math.round((ds.successReleases || 0) / depTotal * 100) : null] *)
Definition succPct (ds : DeploymentsStats) : option float :=
  if (0 <? depTotal ds)%float
  then Some (Math_round (num_or_0 (successReleases ds) / depTotal ds * 100)%float)
  else None.

(** [(this.overview && this.overview.deploymentsStats) || {}] *)
Definition stats_of_overview (ov : option Overview) : DeploymentsStats :=
  match ov with
  | Some o => match deploymentsStats o with Some ds => ds | None => empty_stats end
  | None => empty_stats
  end.

(** The Deploy Health card: a percentage, or the "No data yet"
    placeholder ([succPct !== null ? ... : ...]). *)
Inductive HealthCard := Percent (p : float) | NoDataYet.

Definition health_card (ov : option Overview) : HealthCard :=
  match succPct (stats_of_overview ov) with
  | Some p => Percent p
  | None => NoDataYet
  end.

Definition counters (s f n : float) : DeploymentsStats :=
  {| successReleases := Some s; failedReleases := Some f;
     noChangeReleases := Some n; isFirstRelease := None |}.

End DeployHealth.

(* ------------------------------------------------------------------ *)
(** ** Strings *)

Module Str.

Open Scope string_scope.

(** [s.includes(needle)] *)
Fixpoint includes (needle s : string) : bool :=
  String.prefix needle s ||
  match s with
  | EmptyString => false
  | String _ rest => includes needle rest
  end.

Definition lower_ascii (c : ascii) : ascii :=
  let n := nat_of_ascii c in
  if (65 <=? n)%nat && (n <=? 90)%nat then ascii_of_nat (n + 32) else c.

(** [s.toLowerCase()], as far as ASCII output goes: the letters A-Z, and
    the Kelvin sign U+212A (bytes E2 84 AA), whose lower case is [k].
    Every other character keeps non-ASCII bytes, so a search for an ASCII
    needle without the letter [i] sees what JavaScript sees. *)
Fixpoint toLowerCase (s : string) : string :=
  match s with
  | EmptyString => EmptyString
  | String c rest =>
      match rest with
      | String c2 (String c3 rest3) =>
          if (nat_of_ascii c =? 226)%nat && (nat_of_ascii c2 =? 132)%nat
             && (nat_of_ascii c3 =? 170)%nat
          then String "k" (toLowerCase rest3)
          else String (lower_ascii c) (toLowerCase rest)
      | _ => String (lower_ascii c) (toLowerCase rest)
      end
  end.

(** [parts.join('')] *)
Definition join (parts : list string) : string :=
  fold_right String.append EmptyString parts.

(** The double quote character, as a string. *)
Definition dq : string := String (ascii_of_nat 34) EmptyString.

End Str.

(* ------------------------------------------------------------------ *)
(** ** State derivations: Kubernetes detection, launch readiness, header
       actions *)

Module Derive.

Import Str.
Open Scope string_scope.

(** [_hasKubernetes()], on [this.env]. *)
Definition hasKubernetes (env : option Cluster) : bool :=
  match env with
  | None => false
  | Some e =>
      if match cloud e with Some c => String.eqb c "KUBERNETES" | None => false end
      then true
      else if is_true (hasK8sCredentials e) then true
      else
        let cv := match componentVersions e with Some l => l | None => [] end in
        existsb (fun k => includes "kubernetes" (toLowerCase k)
                          || includes "k8s" (toLowerCase k))
                (map fst cv)
  end.

(** An entry of the legacy checklist; a missing [skip] is falsy. *)
Record Check := {
  label : string;
  ok    : bool;
  hint  : string;
  skip  : bool
}.

(** [(this.varCounts && ((this.varCounts.variableCount || 0) +
     (this.varCounts.secretCount || 0))) > 0]; [null > 0] is false. *)
Definition hasVars (vc : option VarCounts) : bool :=
  match vc with
  | None => false
  | Some v => (0 <? num_or_0 (variableCount v) + num_or_0 (secretCount v))%float
  end.

(** The four checks of [_buildLaunchReadiness], before [.filter]. *)
Definition all_checks (this_env : option Cluster) (vc : option VarCounts)
  (env : Cluster) : list Check :=
  let hasK8s := hasKubernetes this_env in
  let hasCloudAcct := truthy_ostr (cloudAccountId env) in
  let isConfigured := truthy_obool (configured env) in
  [ {| label := "Environment configured"; ok := isConfigured;
       hint := "Set cloud provider and credentials in environment settings";
       skip := false |};
    {| label := "Cloud account linked"; ok := hasCloudAcct;
       hint := "Link a " ++ str_or (cloud env) "cloud" ++ " account to this environment";
       skip := false |};
    {| label := "Kubernetes credentials";
       ok := negb hasK8s || truthy_obool (hasK8sCredentials env);
       hint := "Configure K8s access credentials";
       skip := negb hasK8s |};
    {| label := "Variables populated"; ok := hasVars vc;
       hint := "Set required environment variables before launch";
       skip := false |} ].

(** [[...].filter(c => !c.skip)] *)
Definition checks (this_env : option Cluster) (vc : option VarCounts)
  (env : Cluster) : list Check :=
  filter (fun c => negb (skip c)) (all_checks this_env vc env).

(** What the readiness card shows. *)
Inductive Readiness :=
| LegacyChecklist (shown : list Check) (allOk : bool)
| BlueprintInfo (blueprint branch projectType : string) (resCount varsSet : float).

(** [_buildLaunchReadiness(env, isLegacy)]: the checklist and
    [allOk = checks.every(c => c.ok)] for a legacy environment, the
    blueprint rows otherwise. *)
Definition buildLaunchReadiness (this_env : option Cluster)
  (rs : option ResourceStats) (vc : option VarCounts)
  (env : Cluster) (isLegacy : bool) : Readiness :=
  if isLegacy then
    let cs := checks this_env vc env in
    LegacyChecklist cs (forallb ok cs)
  else
    let st := match stack env with Some s => s | None => empty_stack end in
    let resCount := match rs with Some r => num_or_0 (totalCount r) | None => 0%float end in
    BlueprintInfo
      (str_or (stack_name st) (str_or (env_stackName env) "—"))
      (str_or (env_branch env) (str_or (stack_branch st) "main"))
      (str_or (projectTypeId st) "—")
      resCount
      (match vc with Some v => num_or_0 (variableCount v) | None => 0%float end).

(** [!(env.stack && env.stack.projectTypeId)] *)
Definition isLegacy (env : Cluster) : bool :=
  negb match stack env with
       | Some s => truthy_ostr (projectTypeId s)
       | None => false
       end.

(** [isNeverLaunched] of [_buildOverviewTab]. *)
Definition isNeverLaunched (ov : option Overview) (env : Cluster) : bool :=
  let stopped := String.eqb (str_or (clusterState env) "UNKNOWN") "STOPPED" in
  (stopped &&
   match ov with
   | Some o => match deploymentsStats o with
               | Some ds => truthy_obool (isFirstRelease ds)
               | None => false
               end
   | None => false
   end)
  || (stopped && match ov with None => true | Some _ => false end).

(** The readiness card of the overview tab, when there is one. *)
Definition overview_readiness (ov : option Overview) (this_env : option Cluster)
  (rs : option ResourceStats) (vc : option VarCounts) : option Readiness :=
  let env := env_or_empty this_env in
  if isNeverLaunched ov env
  then Some (buildLaunchReadiness this_env rs vc env (isLegacy env))
  else None.

(** A header action: label, action name, primary emphasis, danger flag
    (a missing [d] is falsy). *)
Record CTA := {
  l : string;
  a : string;
  p : bool;
  d : bool
}.

Definition cta (label action : string) (primary danger : bool) : CTA :=
  {| l := label; a := action; p := primary; d := danger |}.

(** The object literal [maps] of [_headerCTAs]: its own keys, in order. *)
Definition maps : list (string * list CTA) :=
  [ ("STOPPED",           [cta "Launch" "launch" true false; cta "Run Plan" "plan" false false]);
    ("RUNNING",           [cta "Trigger Release" "trigger-release" true false;
                           cta "Hotfix" "trigger-hotfix" false false;
                           cta "Scale Down" "scale-down" false false;
                           cta "Destroy" "destroy" false true]);
    ("SCALE_DOWN",        [cta "Scale Up" "scale-up" true false;
                           cta "Trigger Release" "trigger-release" false false;
                           cta "Destroy" "destroy" false true]);
    ("LAUNCH_FAILED",     [cta "Retry Launch" "launch" true false; cta "Run Plan" "plan" false false]);
    ("DESTROY_FAILED",    [cta "Retry Destroy" "destroy" true true]);
    ("SCALE_UP_FAILED",   [cta "Retry Scale Up" "scale-up" true false]);
    ("SCALE_DOWN_FAILED", [cta "Retry Scale Down" "scale-down" true false]);
    ("LAUNCHING",         []);
    ("DESTROYING",        []);
    ("SCALING_UP",        []);
    ("SCALING_DOWN",      []) ].

(** The value of [maps.STOPPED]. *)
Definition stopped_actions : list CTA :=
  [cta "Launch" "launch" true false; cta "Run Plan" "plan" false false].

(** The keys of the status table of [_stateConf]. *)
Definition stateConf_keys : list string :=
  [ "RUNNING"; "LAUNCHING"; "SCALING_UP"; "SCALING_DOWN"; "DESTROYING"; "STOPPED";
    "SCALE_DOWN"; "LAUNCH_FAILED"; "DESTROY_FAILED"; "SCALE_DOWN_FAILED";
    "SCALE_UP_FAILED"; "UNKNOWN" ].

Fixpoint own {A} (table : list (string * A)) (key : string) : option A :=
  match table with
  | [] => None
  | (k, v) :: rest => if String.eqb k key then Some v else own rest key
  end.

(** The property names every object literal inherits from
    [Object.prototype]; each holds a function or an object (truthy). *)
Definition Object_prototype_keys : list string :=
  [ "constructor"; "__defineGetter__"; "__defineSetter__"; "hasOwnProperty";
    "__lookupGetter__"; "__lookupSetter__"; "isPrototypeOf";
    "propertyIsEnumerable"; "toString"; "valueOf"; "__proto__"; "toLocaleString" ].

(** The value of [table[key]] for an object literal [table]. *)
Inductive Property (A : Type) :=
| Own (v : A)
| Inherited
| Undefined.
Arguments Own {A} v.
Arguments Inherited {A}.
Arguments Undefined {A}.

Definition get_property {A} (table : list (string * A)) (key : string) : Property A :=
  match own table key with
  | Some v => Own v
  | None => if existsb (String.eqb key) Object_prototype_keys then Inherited else Undefined
  end.

(** [const ctas = maps[state] || maps.STOPPED], then the receiver check of
    [ctas.map(...)]: an array (always truthy, also when empty) is mapped;
    an inherited member is truthy and has no [map] method. *)
Definition header_actions (state : string) : Completion (list CTA) :=
  match get_property maps state with
  | Own ctas => Normal ctas
  | Inherited => Throw "ctas.map is not a function"
  | Undefined =>
      match own maps "STOPPED" with
      | Some ctas => Normal ctas
      | None => Throw "Cannot read properties of undefined (reading 'map')"
      end
  end.

Definition button (c : CTA) : string :=
  "<button class=" ++ dq ++ "cta-btn " ++ (if p c then "primary" else "secondary")
  ++ (if d c then " danger" else "") ++ dq ++ " data-action=" ++ dq ++ a c ++ dq
  ++ ">" ++ l c ++ "</button>".

(** [_headerCTAs(state, env)] *)
Definition headerCTAs (state : string) : Completion string :=
  bind (header_actions state) (fun ctas => Normal (join (map button ctas))).

End Derive.

(* ------------------------------------------------------------------ *)
(** ** Data source gateway ([_api]) *)

Module Gateway.

(** What [await r.json()] does: rejects, or resolves to the parsed body. *)
Inductive BodyOutcome (B : Type) :=
| BadBody (message : string)
| Body (data : B).
Arguments BadBody {B} message.
Arguments Body {B} data.

(** What [await fetch(path)] does: rejects (transport failure), or
    resolves to a response with its [ok] flag and its body. *)
Inductive FetchOutcome (B : Type) :=
| NetworkError (message : string)
| Response (ok : bool) (body : BodyOutcome B).
Arguments NetworkError {B} message.
Arguments Response {B} ok body.

Definition await_fetch {B} (o : FetchOutcome B) : Completion (bool * BodyOutcome B) :=
  match o with
  | NetworkError m => Throw m
  | Response ok body => Normal (ok, body)
  end.

Definition await_json {B} (b : BodyOutcome B) : Completion B :=
  match b with
  | BadBody m => Throw m
  | Body data => Normal data
  end.

(** [_api(path)]:
    [try { const r = await fetch(path); if (!r.ok) return null;
           return await r.json(); } catch { return null; }] *)
Definition api {B} `{Nullable B} (o : FetchOutcome B) : Completion B :=
  try_catch
    (bind (await_fetch o) (fun r =>
       if negb (fst r) then Normal null else await_json (snd r)))
    (fun _ => Normal null).

(** What [_api] hands to its caller: the parsed body of an [ok]
    response, [null] for everything else. *)
Definition payload {B} `{Nullable B} (o : FetchOutcome B) : B :=
  match o with
  | Response true (Body data) => data
  | _ => null
  end.

End Gateway.

(* ------------------------------------------------------------------ *)
(** ** Context resolver ([_tryUrlContext]) *)

Module Context.

Import Str.
Open Scope string_scope.

(** [window.location], the three parts the resolver reads. *)
Record Location := {
  pathname : string;
  hash     : string;
  search   : string
}.

(** The [result] object of [_tryUrlContext]. *)
Record UrlContext := {
  ctx_clusterId   : option string;
  ctx_stackName   : option string;
  ctx_clusterName : option string
}.

Definition no_context : UrlContext :=
  {| ctx_clusterId := None; ctx_stackName := None; ctx_clusterName := None |}.

(** The character class [[^\/\?#]]. *)
Definition segment_char (c : ascii) : bool :=
  negb (Ascii.eqb c "/" || Ascii.eqb c "?" || Ascii.eqb c "#")%char.

(** The longest prefix of segment characters, and what follows it. *)
Fixpoint span_segment (s : string) : string * string :=
  match s with
  | EmptyString => (EmptyString, EmptyString)
  | String c rest =>
      if segment_char c
      then let (seg, tail) := span_segment rest in (String c seg, tail)
      else (EmptyString, s)
  end.

(** [s] without the prefix [pre], when it starts with it. *)
Fixpoint strip_prefix (pre s : string) : option string :=
  match pre, s with
  | EmptyString, _ => Some s
  | String a pre', String b s' => if Ascii.eqb a b then strip_prefix pre' s' else None
  | String _ _, EmptyString => None
  end.

(** The pattern [/\/projects\/([^\/\?#]+)\/environments\/([^\/\?#]+)/]
    matched at the start of [s]: the two captured groups.  Both groups
    are greedy; the first is followed by a slash, which it cannot
    contain, and nothing follows the second, so each group is the
    longest run of segment characters and no shorter choice can match. *)
Definition match_here (s : string) : option (string * string) :=
  match strip_prefix "/projects/" s with
  | None => None
  | Some s1 =>
      let (g1, s2) := span_segment s1 in
      if truthy_str g1 then
        match strip_prefix "/environments/" s2 with
        | None => None
        | Some s3 =>
            let (g2, _) := span_segment s3 in
            if truthy_str g2 then Some (g1, g2) else None
        end
      else None
  end.

(** [s.match(pattern)]: the leftmost match. *)
Fixpoint regex_match (s : string) : option (string * string) :=
  match match_here s with
  | Some m => Some m
  | None =>
      match s with
      | EmptyString => None
      | String _ rest => regex_match rest
      end
  end.

(** The hash and the query of a location: empty, or led by their mark
    ([#], [?]). *)
Definition led_by_mark (t : string) : bool :=
  match t with
  | EmptyString => true
  | String c _ => (Ascii.eqb c "#" || Ascii.eqb c "?")%char
  end.

Fixpoint no_mark (s : string) : bool :=
  match s with
  | EmptyString => true
  | String c rest => negb (Ascii.eqb c "#" || Ascii.eqb c "?")%char && no_mark rest
  end.

Section Resolver.

(** The two platform functions the resolver calls:
    [new URLSearchParams(search).get(name)] and [decodeURIComponent],
    which throws [URIError] on a malformed escape. *)
Variable URLSearchParams_get : string -> string -> option string.
Variable decodeURIComponent : string -> Completion string.

(** [result.stackName = decodeURIComponent(m[1]);
     result.clusterName = decodeURIComponent(m[2]); return result;]
    inside the [try]: an exception leaves what was assigned so far. *)
Definition assign_names (result : UrlContext) (m : string * string) : UrlContext :=
  match decodeURIComponent (fst m) with
  | Throw _ => result
  | Normal st =>
      let result1 := {| ctx_clusterId := ctx_clusterId result;
                        ctx_stackName := Some st;
                        ctx_clusterName := ctx_clusterName result |} in
      match decodeURIComponent (snd m) with
      | Throw _ => result1
      | Normal cl =>
          {| ctx_clusterId := ctx_clusterId result1;
             ctx_stackName := ctx_stackName result1;
             ctx_clusterName := Some cl |}
      end
  end.

Definition with_clusterId (result : UrlContext) (v : string) : UrlContext :=
  {| ctx_clusterId := Some v;
     ctx_stackName := ctx_stackName result;
     ctx_clusterName := ctx_clusterName result |}.

(** The value of [qp.get(name)] when the test [if (qp.get(name))] passes:
    a parameter that is present and not empty. *)
Definition truthy_param (search name : string) : option string :=
  match URLSearchParams_get search name with
  | Some v => if truthy_str v then Some v else None
  | None => None
  end.

(** [_tryUrlContext()] *)
Definition tryUrlContext_with (loc : Location) : UrlContext :=
  let result := no_context in
  let full := pathname loc ++ hash loc ++ search loc in
  match truthy_param (search loc) "clusterId" with
  | Some v => with_clusterId result v
  | None =>
      match truthy_param (search loc) "cluster-id" with
      | Some v => with_clusterId result v
      | None =>
          match regex_match full with
          | Some m => assign_names result m
          | None =>
              match regex_match (hash loc) with
              | Some m => assign_names result m
              | None => result
              end
          end
      end
  end.

End Resolver.

(** *** The platform functions, on byte strings *)

Definition hex_value (c : ascii) : option nat :=
  let n := nat_of_ascii c in
  if (48 <=? n)%nat && (n <=? 57)%nat then Some (n - 48)
  else if (65 <=? n)%nat && (n <=? 70)%nat then Some (n - 55)
  else if (97 <=? n)%nat && (n <=? 102)%nat then Some (n - 87)
  else None.

(** The byte written [%XY] at the start of [s], and the rest. *)
Definition escape_here (s : string) : option (nat * string) :=
  match s with
  | String "%" (String x (String y rest)) =>
      match hex_value x, hex_value y with
      | Some h, Some l => Some (16 * h + l, rest)%nat
      | _, _ => None
      end
  | _ => None
  end.

(** [k] continuation bytes (10xxxxxx), each written as an escape. *)
Fixpoint continuation (k : nat) (s : string) : option (list nat * string) :=
  match k with
  | O => Some ([], s)
  | S k' =>
      match escape_here s with
      | Some (b, rest) =>
          if (128 <=? b)%nat && (b <=? 191)%nat then
            match continuation k' rest with
            | Some (bs, rest') => Some (b :: bs, rest')
            | None => None
            end
          else None
      | None => None
      end
  end.

(** Well-formed UTF-8 for a lead byte and its continuation bytes: no
    overlong form, no surrogate, nothing above U+10FFFF. *)
Definition well_formed (lead : nat) (bs : list nat) : bool :=
  match bs with
  | [_] => (194 <=? lead)%nat && (lead <=? 223)%nat
  | [b1; _] =>
      if (lead =? 224)%nat then (160 <=? b1)%nat
      else if (lead =? 237)%nat then (b1 <=? 159)%nat
      else (225 <=? lead)%nat && (lead <=? 239)%nat
  | [b1; _; _] =>
      if (lead =? 240)%nat then (144 <=? b1)%nat
      else if (lead =? 244)%nat then (b1 <=? 143)%nat
      else (241 <=? lead)%nat && (lead <=? 243)%nat
  | _ => false
  end.

Definition bytes_to_string (bs : list nat) : string :=
  fold_right (fun b acc => String (ascii_of_nat b) acc) EmptyString bs.

Definition malformed : string := "URI malformed".

(** [decodeURIComponent(s)]: every escape is replaced by the character
    it encodes; an escape that is cut short, is not hexadecimal or does
    not encode well-formed UTF-8 throws.  [fuel] bounds the characters
    read; the length of the string is enough. *)
Fixpoint decode (fuel : nat) (s : string) : Completion string :=
  match fuel with
  | O => Normal EmptyString
  | S fuel' =>
      match s with
      | EmptyString => Normal EmptyString
      | String c rest =>
          if Ascii.eqb c "%" then
            match escape_here s with
            | None => Throw malformed
            | Some (b, after) =>
                if (b <? 128)%nat then
                  bind (decode fuel' after) (fun t => Normal (String (ascii_of_nat b) t))
                else
                  let k := if (b <? 192)%nat then 0
                           else if (b <? 224)%nat then 1
                           else if (b <? 240)%nat then 2
                           else if (b <? 248)%nat then 3 else 0 in
                  match k with
                  | O => Throw malformed
                  | _ =>
                      match continuation k after with
                      | None => Throw malformed
                      | Some (bs, after') =>
                          if well_formed b bs then
                            bind (decode fuel' after')
                                 (fun t => Normal (String (ascii_of_nat b) (bytes_to_string bs ++ t)))
                          else Throw malformed
                      end
                  end
            end
          else bind (decode fuel' rest) (fun t => Normal (String c t))
      end
  end.

Definition decodeURIComponent (s : string) : Completion string :=
  decode (String.length s) s.

(** Splitting at the first occurrence of a separator. *)
Fixpoint split_first (sep : ascii) (s : string) : string * option string :=
  match s with
  | EmptyString => (EmptyString, None)
  | String c rest =>
      if Ascii.eqb c sep then (EmptyString, Some rest)
      else let (x, y) := split_first sep rest in (String c x, y)
  end.

Fixpoint split_all (fuel : nat) (sep : ascii) (s : string) : list string :=
  match fuel with
  | O => [s]
  | S fuel' =>
      match split_first sep s with
      | (x, None) => [x]
      | (x, Some rest) => x :: split_all fuel' sep rest
      end
  end.

(** Percent-decoding of the URL standard: an escape is its byte, and a
    [%] that does not start an escape is kept.  Before it, [+] is a
    space.  [fuel] bounds the characters read; the length of the string
    is enough. *)
Fixpoint percent_decode (fuel : nat) (s : string) : list nat :=
  match fuel with
  | O => []
  | S fuel' =>
      match s with
      | EmptyString => []
      | String c rest =>
          if Ascii.eqb c "+" then 32%nat :: percent_decode fuel' rest
          else match escape_here s with
               | Some (b, after) => b :: percent_decode fuel' after
               | None => nat_of_ascii c :: percent_decode fuel' rest
               end
      end
  end.

(** U+FFFD, in UTF-8. *)
Definition replacement : list nat := [239; 191; 189]%nat.

(** The UTF-8 decoder of the Encoding standard, between two characters
    ([Idle]) or inside one: the bytes seen, the number still needed and
    the bounds of the next one. *)
Inductive Utf8State : Type :=
| Idle
| Awaiting (seen : list nat) (needed lower upper : nat).

Definition utf8_start (b : nat) : list nat * Utf8State :=
  if (b <? 128)%nat then ([b], Idle)
  else if (194 <=? b)%nat && (b <=? 223)%nat then ([], Awaiting [b] 1 128 191)
  else if (224 <=? b)%nat && (b <=? 239)%nat then
    ([], Awaiting [b] 2 (if (b =? 224)%nat then 160 else 128)%nat
                        (if (b =? 237)%nat then 159 else 191)%nat)
  else if (240 <=? b)%nat && (b <=? 244)%nat then
    ([], Awaiting [b] 3 (if (b =? 240)%nat then 144 else 128)%nat
                        (if (b =? 244)%nat then 143 else 191)%nat)
  else (replacement, Idle).

(** Decoding with replacement: a byte that cannot start a character, a
    character cut short by the end, and a character cut short by a byte
    that cannot continue it (which is then read again as a first byte)
    each give U+FFFD.  The result is UTF-8 again. *)
Fixpoint utf8_decode (st : Utf8State) (bs : list nat) : list nat :=
  match bs with
  | [] => match st with Idle => [] | Awaiting _ _ _ _ => replacement end
  | b :: rest =>
      match st with
      | Idle => let (out, st') := utf8_start b in out ++ utf8_decode st' rest
      | Awaiting seen needed lower upper =>
          if (lower <=? b)%nat && (b <=? upper)%nat then
            match needed with
            | 1%nat => (seen ++ [b]) ++ utf8_decode Idle rest
            | _ => utf8_decode (Awaiting (seen ++ [b]) (needed - 1) 128 191) rest
            end
          else
            let (out, st') := utf8_start b in
            replacement ++ out ++ utf8_decode st' rest
      end
  end.

(** The decoding of a name or a value of a query string. *)
Definition form_decode (s : string) : string :=
  bytes_to_string (utf8_decode Idle (percent_decode (String.length s) s)).

(** The name-value pairs of [new URLSearchParams(search)]: a leading
    [?] is dropped, the rest is split at [&], empty pieces are skipped,
    and each piece is split at its first [=]. *)
Definition URLSearchParams (search : string) : list (string * string) :=
  let q := match search with
           | String "?" rest => rest
           | _ => search
           end in
  map (fun piece =>
         let (n, v) := split_first "=" piece in
         (form_decode n,
          match v with
          | Some v' => form_decode v'
          | None => EmptyString
          end))
      (filter truthy_str (split_all (String.length q) "&" q)).

(** [params.get(name)]: the first value under that name, or [null]. *)
Fixpoint get (params : list (string * string)) (name : string) : option string :=
  match params with
  | [] => None
  | (n, v) :: rest => if String.eqb n name then Some v else get rest name
  end.

Definition URLSearchParams_get (search name : string) : option string :=
  get (URLSearchParams search) name.

(** [_tryUrlContext()] on the platform functions above. *)
Definition tryUrlContext : Location -> UrlContext :=
  tryUrlContext_with URLSearchParams_get decodeURIComponent.

End Context.

(* ------------------------------------------------------------------ *)
(** ** The widget: fields, effects, staged loader, refresh scheduler *)

Module Widget.

Import Gateway Derive.
Open Scope string_scope.

(** The instance fields set by the constructor. *)
Record Fields := {
  clusterId      : option string;
  stackName      : option string;
  clusterName    : option string;
  overview       : option Overview;
  env            : option Cluster;
  resourceStats  : option ResourceStats;
  varCounts      : option VarCounts;
  deployments    : Json;
  resources      : Json;
  ingresses      : Json;
  schedule       : Json;
  maintenanceWin : Json;
  costEnabled    : bool;
  activeTab      : string;
  isLoading      : bool;
  error          : option string;
  refreshTimer   : option nat
}.

(** The requests the widget sends; [id] is the value of [this.clusterId]
    spliced into the path. *)
Inductive Endpoint :=
| ClusterInfoByName (stack cluster : option string)
| DeploymentsOverview (id : option string)
| ResourceStatsOf (id : option string)
| VariableCountsOf (id : option string)
| CostExplorerEnabled
| DeploymentsPage (id : option string) (size page : nat)
| ResourcesInfo (id : option string)
| IngressRules (id : option string)
| AvailabilitySchedule (id : option string)
| MaintenanceWindowOf (id : option string)
| Stacks
| ClustersOverviewOf (stack : string).

(** What a method does besides assigning fields, in order.  [Raised]
    records an exception that leaves a method uncaught: the method ends
    there, and when it is [async] its promise is rejected, which no
    caller observes. *)
Inductive Effect :=
| Fetch (e : Endpoint)
| SetInterval (id : nat) (ms : Z)
| ClearInterval (id : nat)
| BootError (message : string)
| RenderAll (tab : string)
| RenderTabContent (tab : string)
| RenderHeaderBannersCards
| LoadingOverlay
| CostSection (visible : bool)
| ShowPicker
| Raised (message : string).

(** An [async] method suspended at an [await]. *)
Inductive Suspended :=
| AwaitResolve
| AwaitCritical
| AwaitSecondary
| AwaitReleases
| AwaitResources (ingressRequested : bool)
| AwaitSchedule
| AwaitRefresh
| AwaitProjects
| AwaitEnvironments.

(** The widget in its page: the fields, the suspended methods, the
    intervals the page keeps running, the next interval id (ids are
    positive), whether the tab bar with its Refresh button is in the
    DOM, whether the picker is, and the effects so far. *)
Record Session := {
  this        : Fields;
  suspended   : list Suspended;
  intervals   : list nat;
  nextId      : nat;
  navShown    : bool;
  pickerShown : bool;
  log         : list Effect
}.

Definition update (f : Fields -> Fields) (s : Session) : Session :=
  {| this := f (this s); suspended := suspended s; intervals := intervals s;
     nextId := nextId s; navShown := navShown s;
     pickerShown := pickerShown s; log := log s |}.

Definition emit (e : Effect) (s : Session) : Session :=
  {| this := this s; suspended := suspended s; intervals := intervals s;
     nextId := nextId s; navShown := navShown s;
     pickerShown := pickerShown s; log := log s ++ [e] |}.

Definition suspend (k : Suspended) (s : Session) : Session :=
  {| this := this s; suspended := suspended s ++ [k]; intervals := intervals s;
     nextId := nextId s; navShown := navShown s;
     pickerShown := pickerShown s; log := log s |}.

(** The tab bar is written by [_renderTabsNav] and emptied by
    [_showPicker]; the picker lives in the tab panel, which every tab
    body and the Go button overwrite. *)
Definition show_nav (s : Session) : Session :=
  {| this := this s; suspended := suspended s; intervals := intervals s;
     nextId := nextId s; navShown := true; pickerShown := pickerShown s;
     log := log s |}.

Definition show_picker (s : Session) : Session :=
  {| this := this s; suspended := suspended s; intervals := intervals s;
     nextId := nextId s; navShown := false; pickerShown := true;
     log := log s |}.

Definition hide_picker (s : Session) : Session :=
  {| this := this s; suspended := suspended s; intervals := intervals s;
     nextId := nextId s; navShown := navShown s; pickerShown := false;
     log := log s |}.

(** [clearInterval(id)] *)
Definition clearInterval (id : nat) (s : Session) : Session :=
  {| this := this s; suspended := suspended s;
     intervals := filter (fun i => negb (Nat.eqb i id)) (intervals s);
     nextId := nextId s; navShown := navShown s; pickerShown := pickerShown s;
     log := log s ++ [ClearInterval id] |}.

(** [setInterval(f, ms)]: the new interval's id is [nextId s]. *)
Definition setInterval (ms : Z) (s : Session) : Session :=
  {| this := this s; suspended := suspended s;
     intervals := intervals s ++ [nextId s];
     nextId := S (nextId s); navShown := navShown s; pickerShown := pickerShown s;
     log := log s ++ [SetInterval (nextId s) ms] |}.

(** *** Field assignments, grouped as the methods make them *)

Definition set_identity (cid st cl : option string) (w : Fields) : Fields :=
  {| clusterId := cid; stackName := st; clusterName := cl;
     overview := overview w; env := env w; resourceStats := resourceStats w;
     varCounts := varCounts w; deployments := deployments w; resources := resources w;
     ingresses := ingresses w; schedule := schedule w; maintenanceWin := maintenanceWin w;
     costEnabled := costEnabled w; activeTab := activeTab w; isLoading := isLoading w;
     error := error w; refreshTimer := refreshTimer w |}.

Definition set_clusterId (cid : option string) (w : Fields) : Fields :=
  set_identity cid (stackName w) (clusterName w) w.

(** [this.overview = ...; this.env = ...; this.resourceStats = ...;
     this.varCounts = ...; this.isLoading = false]. *)
Definition set_critical (ov : option Overview) (rs : option ResourceStats)
  (vc : option VarCounts) (w : Fields) : Fields :=
  {| clusterId := clusterId w; stackName := stackName w; clusterName := clusterName w;
     overview := ov;
     env := match ov with Some o => cluster o | None => None end;
     resourceStats := rs; varCounts := vc;
     deployments := deployments w; resources := resources w;
     ingresses := ingresses w; schedule := schedule w; maintenanceWin := maintenanceWin w;
     costEnabled := costEnabled w; activeTab := activeTab w; isLoading := false;
     error := error w; refreshTimer := refreshTimer w |}.

(** [this.isLoading = false; this.error = err.message]. *)
Definition set_error (message : string) (w : Fields) : Fields :=
  {| clusterId := clusterId w; stackName := stackName w; clusterName := clusterName w;
     overview := overview w; env := env w; resourceStats := resourceStats w;
     varCounts := varCounts w; deployments := deployments w; resources := resources w;
     ingresses := ingresses w; schedule := schedule w; maintenanceWin := maintenanceWin w;
     costEnabled := costEnabled w; activeTab := activeTab w; isLoading := false;
     error := Some message; refreshTimer := refreshTimer w |}.

Definition set_costEnabled (b : bool) (w : Fields) : Fields :=
  {| clusterId := clusterId w; stackName := stackName w; clusterName := clusterName w;
     overview := overview w; env := env w; resourceStats := resourceStats w;
     varCounts := varCounts w; deployments := deployments w; resources := resources w;
     ingresses := ingresses w; schedule := schedule w; maintenanceWin := maintenanceWin w;
     costEnabled := b; activeTab := activeTab w; isLoading := isLoading w;
     error := error w; refreshTimer := refreshTimer w |}.

Definition set_deployments (v : Json) (w : Fields) : Fields :=
  {| clusterId := clusterId w; stackName := stackName w; clusterName := clusterName w;
     overview := overview w; env := env w; resourceStats := resourceStats w;
     varCounts := varCounts w; deployments := v; resources := resources w;
     ingresses := ingresses w; schedule := schedule w; maintenanceWin := maintenanceWin w;
     costEnabled := costEnabled w; activeTab := activeTab w; isLoading := isLoading w;
     error := error w; refreshTimer := refreshTimer w |}.

Definition set_resources (res ing : Json) (w : Fields) : Fields :=
  {| clusterId := clusterId w; stackName := stackName w; clusterName := clusterName w;
     overview := overview w; env := env w; resourceStats := resourceStats w;
     varCounts := varCounts w; deployments := deployments w; resources := res;
     ingresses := ing; schedule := schedule w; maintenanceWin := maintenanceWin w;
     costEnabled := costEnabled w; activeTab := activeTab w; isLoading := isLoading w;
     error := error w; refreshTimer := refreshTimer w |}.

Definition set_schedule (sched mw : Json) (w : Fields) : Fields :=
  {| clusterId := clusterId w; stackName := stackName w; clusterName := clusterName w;
     overview := overview w; env := env w; resourceStats := resourceStats w;
     varCounts := varCounts w; deployments := deployments w; resources := resources w;
     ingresses := ingresses w; schedule := sched; maintenanceWin := mw;
     costEnabled := costEnabled w; activeTab := activeTab w; isLoading := isLoading w;
     error := error w; refreshTimer := refreshTimer w |}.

Definition set_activeTab (tab : string) (w : Fields) : Fields :=
  {| clusterId := clusterId w; stackName := stackName w; clusterName := clusterName w;
     overview := overview w; env := env w; resourceStats := resourceStats w;
     varCounts := varCounts w; deployments := deployments w; resources := resources w;
     ingresses := ingresses w; schedule := schedule w; maintenanceWin := maintenanceWin w;
     costEnabled := costEnabled w; activeTab := tab; isLoading := isLoading w;
     error := error w; refreshTimer := refreshTimer w |}.

(** [this.overview = fresh; this.env = fresh.cluster || this.env]. *)
Definition set_fresh (fresh : Overview) (w : Fields) : Fields :=
  {| clusterId := clusterId w; stackName := stackName w; clusterName := clusterName w;
     overview := Some fresh;
     env := match cluster fresh with Some c => Some c | None => env w end;
     resourceStats := resourceStats w;
     varCounts := varCounts w; deployments := deployments w; resources := resources w;
     ingresses := ingresses w; schedule := schedule w; maintenanceWin := maintenanceWin w;
     costEnabled := costEnabled w; activeTab := activeTab w; isLoading := isLoading w;
     error := error w; refreshTimer := refreshTimer w |}.

Definition set_refreshTimer (t : option nat) (w : Fields) : Fields :=
  {| clusterId := clusterId w; stackName := stackName w; clusterName := clusterName w;
     overview := overview w; env := env w; resourceStats := resourceStats w;
     varCounts := varCounts w; deployments := deployments w; resources := resources w;
     ingresses := ingresses w; schedule := schedule w; maintenanceWin := maintenanceWin w;
     costEnabled := costEnabled w; activeTab := activeTab w; isLoading := isLoading w;
     error := error w; refreshTimer := t |}.

(** The nine assignments of [_hardRefresh], and [this.isLoading = true]. *)
Definition clear_data (w : Fields) : Fields :=
  {| clusterId := clusterId w; stackName := stackName w; clusterName := clusterName w;
     overview := None; env := None; resourceStats := None; varCounts := None;
     deployments := JNull; resources := JNull; ingresses := JNull;
     schedule := JNull; maintenanceWin := JNull;
     costEnabled := costEnabled w; activeTab := activeTab w; isLoading := true;
     error := error w; refreshTimer := refreshTimer w |}.

(** *** Rendering *)

(** [const env = this.env || {}; const state = env.clusterState || 'UNKNOWN'] *)
Definition header_state (w : Fields) : string :=
  str_or (clusterState (env_or_empty (env w))) "UNKNOWN".

(** How [_renderHeader()] completes.  Its template calls
    [this._headerCTAs(state, env)], which raises when [maps[state]] is a
    member inherited from [Object.prototype]; the exception leaves the
    writer before [innerHTML] is assigned.  Nothing else in the writer
    raises on a cluster of the shape above. *)
Definition renderHeader (w : Fields) : Completion unit :=
  bind (headerCTAs (header_state w)) (fun _ => Normal tt).

(** [_renderAll()]: the boot error and nothing else when
    [this.error && !this.env]; otherwise header, banners, cards, the tab
    bar (with the Refresh button) and the active tab, which replaces
    what the tab panel held.  The header is written first: when it
    raises, nothing is written. *)
Definition renderAll (s : Session) : Completion Session :=
  let full :=
    bind (renderHeader (this s)) (fun _ =>
      Normal (hide_picker (show_nav (emit (RenderAll (activeTab (this s))) s)))) in
  match error (this s), env (this s) with
  | Some message, None =>
      if truthy_str message then Normal (emit (BootError message) s) else full
  | _, _ => full
  end.

(** What [_renderAll()] has written when it returns. *)
Definition written (s : Session) : Session :=
  match error (this s), env (this s) with
  | Some message, None =>
      if truthy_str message then emit (BootError message) s
      else hide_picker (show_nav (emit (RenderAll (activeTab (this s))) s))
  | _, _ => hide_picker (show_nav (emit (RenderAll (activeTab (this s))) s))
  end.

(** [_renderTabContent(tab)] *)
Definition renderTabContent (tab : string) (s : Session) : Session :=
  hide_picker (emit (RenderTabContent tab) s).

(** What a lazy tab shows for its list. *)
Inductive TabBody := LoadingPlaceholder | Listing (payload : Json).

(** [if (!deps) '...Loading release history...' else ...] and its
    siblings in [_buildResourcesTab] and [_buildScheduleTab]. *)
Definition tab_body (cache : Json) : TabBody :=
  if truthy cache then Listing cache else LoadingPlaceholder.

(** *** Refresh scheduler *)

(** [this.env && this.env.clusterState] *)
Definition state_of (w : Fields) : option string :=
  match env w with Some e => clusterState e | None => None end.

Definition activeStates : list string :=
  ["LAUNCHING"; "DESTROYING"; "SCALING_UP"; "SCALING_DOWN"].

(** [activeStates.indexOf(state) !== -1] *)
Definition is_activeState (state : option string) : bool :=
  match state with
  | Some st => existsb (String.eqb st) activeStates
  | None => false
  end.

(** [x.inProgressDeployments && x.inProgressDeployments.length > 0] *)
Definition has_inProgress (o : Overview) : bool :=
  match inProgressDeployments o with
  | Some deps => (0 <? List.length deps)%nat
  | None => false
  end.

(** [_maybeStartRefresh()] *)
Definition maybeStartRefresh (s : Session) : Session :=
  let state := state_of (this s) in
  let inProgress := match overview (this s) with
                    | Some o => has_inProgress o
                    | None => false
                    end in
  if inProgress || is_activeState state then
    let s1 := match refreshTimer (this s) with
              | Some id => clearInterval id s
              | None => s
              end in
    update (set_refreshTimer (Some (nextId s1))) (setInterval 15000%Z s1)
  else s.

(** [_refreshOverview()] up to its [await]. *)
Definition refreshOverview (s : Session) : Session :=
  suspend AwaitRefresh (emit (Fetch (DeploymentsOverview (clusterId (this s)))) s).

(** [_refreshOverview()] from its [await] on.  The two assignments come
    first; when [_renderHeader()] raises, the method ends there, with
    the interval as it was.  [clearInterval(null)] does nothing. *)
Definition refreshOverview_resumed (o : FetchOutcome (option Overview)) (s : Session)
  : Completion Session :=
  bind (api o) (fun fresh =>
    match fresh with
    | None => Normal s
    | Some f =>
        let s0 := update (set_fresh f) s in
        match renderHeader (this s0) with
        | Throw message => Normal (emit (Raised message) s0)
        | Normal _ =>
            let s1 := emit RenderHeaderBannersCards s0 in
            let state := state_of (this s1) in
            let inProgress := has_inProgress f in
            if negb inProgress && negb (is_activeState state) then
              let s2 := match refreshTimer (this s1) with
                        | Some id => clearInterval id s1
                        | None => s1
                        end in
              Normal (update (set_refreshTimer None) s2)
            else Normal s1
        end
    end).

(** [disconnectedCallback()] *)
Definition disconnectedCallback (s : Session) : Session :=
  match refreshTimer (this s) with
  | Some id => clearInterval id s
  | None => s
  end.

(** The polling-active flag, in the words of the specification:
    the overview has an in-progress deployment, or the cluster state is
    one of Launching, Destroying, ScalingUp, ScalingDown. *)
Definition pollingActive (w : Fields) : bool :=
  match overview w with Some o => has_inProgress o | None => false end
  || is_activeState (state_of w).

(** *** Staged loader *)

(** [_loadSecondary()] up to its [await]. *)
Definition loadSecondary (s : Session) : Session :=
  suspend AwaitSecondary (emit (Fetch CostExplorerEnabled) s).

(** [costData === true || (costData && costData.enabled === true)], as
    the truth value the [cost-section] toggle reads. *)
Definition cost_flag (costData : option CostData) : bool :=
  match costData with
  | Some (CostFlag b) => b
  | Some (CostObject e) => is_true e
  | None => false
  end.

(** [_loadSecondary()] from its [await] on. *)
Definition loadSecondary_resumed (o : FetchOutcome (option CostData)) (s : Session)
  : Completion Session :=
  bind (api o) (fun costData =>
    Normal (emit (CostSection (cost_flag costData))
                 (update (set_costEnabled (cost_flag costData)) s))).

(** The three critical requests of [_loadData], issued together. *)
Definition loadCritical (s : Session) : Session :=
  let id := clusterId (this s) in
  suspend AwaitCritical
    (emit (Fetch (VariableCountsOf id))
       (emit (Fetch (ResourceStatsOf id))
          (emit (Fetch (DeploymentsOverview id)) s))).

(** [_loadData()] up to its first request.  [_resolveClusterId()]
    returns [this.clusterId] at once when it is truthy, and the three
    critical requests go out in the same turn; otherwise the name
    resolution is requested. *)
Definition loadData (s : Session) : Session :=
  if truthy_ostr (clusterId (this s)) then loadCritical s
  else
    suspend AwaitResolve
      (emit (Fetch (ClusterInfoByName (stackName (this s)) (clusterName (this s)))) s).

(** [_resolveClusterId()] from its [fetch] on:
    [if (!r.ok) throw new Error(...); const d = await r.json();
     return d.id || d.clusterId;]
    Reading [id] off a [null] body raises a [TypeError]; its message is
    the engine's (V8's here). *)
Definition resolveClusterId_resumed (o : FetchOutcome (option ClusterInfo))
  : Completion (option string) :=
  bind (await_fetch o) (fun r =>
    if negb (fst r) then Throw "Could not resolve cluster ID from name"
    else
      bind (await_json (snd r)) (fun body =>
        match body with
        | None => Throw "Cannot read properties of null (reading 'id')"
        | Some info =>
            Normal (if truthy_ostr (info_id info) then info_id info
                    else info_clusterId info)
        end)).

(** The [catch] block of [_loadData]:
    [this.isLoading = false; this.error = err.message; this._renderAll();]
    An exception of this [_renderAll()] leaves the method. *)
Definition loadData_catch (message : string) (s : Session) : Session :=
  let s1 := update (set_error message) s in
  match renderAll s1 with
  | Normal s2 => s2
  | Throw raised => emit (Raised raised) s1
  end.

(** [_loadData()] once the name resolution has settled. *)
Definition loadData_resolved (o : FetchOutcome (option ClusterInfo)) (s : Session)
  : Session :=
  match resolveClusterId_resumed o with
  | Normal id => loadCritical (update (set_clusterId id) s)
  | Throw message => loadData_catch message s
  end.

(** [_loadData()] once the three critical requests have settled
    ([Promise.all]): the assignments, [_renderAll()], [_loadSecondary()],
    [_maybeStartRefresh()], all inside the [try].  When [_renderAll()]
    raises, the [catch] block runs on the fields as assigned, and the
    two calls after it are skipped. *)
Definition loadData_resumed
  (o1 : FetchOutcome (option Overview))
  (o2 : FetchOutcome (option ResourceStats))
  (o3 : FetchOutcome (option VarCounts)) (s : Session) : Session :=
  match bind (api o1) (fun ov =>
        bind (api o2) (fun stats =>
        bind (api o3) (fun vars => Normal (ov, stats, vars)))) with
  | Normal (ov, stats, vars) =>
      let s1 := update (set_critical ov stats vars) s in
      match renderAll s1 with
      | Normal s2 => maybeStartRefresh (loadSecondary s2)
      | Throw message => loadData_catch message s1
      end
  | Throw message => loadData_catch message s
  end.

(** [_loadTabData(tab)] up to its [await]: the request set of the tab,
    when the tab is a lazy one and its cache field is falsy.  The three
    [if]s of the source test [tab] against different names, so at most
    one of them runs. *)
Definition loadTabData (tab : string) (s : Session) : Session :=
  let id := clusterId (this s) in
  if String.eqb tab "releases" && negb (truthy (deployments (this s))) then
    suspend AwaitReleases (emit (Fetch (DeploymentsPage id 25 0)) s)
  else if String.eqb tab "resources" && negb (truthy (resources (this s))) then
    let k8s := hasKubernetes (env (this s)) in
    let s1 := emit (Fetch (ResourcesInfo id)) s in
    suspend (AwaitResources k8s)
      (if k8s then emit (Fetch (IngressRules id)) s1 else s1)
  else if String.eqb tab "schedule" && negb (truthy (schedule (this s))) then
    suspend AwaitSchedule
      (emit (Fetch (MaintenanceWindowOf id))
         (emit (Fetch (AvailabilitySchedule id)) s))
  else s.

Definition render_if_active (tab : string) (s : Session) : Session :=
  if String.eqb (activeTab (this s)) tab then renderTabContent tab s else s.

(** [_loadTabData('releases')] from its [await] on. *)
Definition loadReleases_resumed (o : FetchOutcome Json) (s : Session)
  : Completion Session :=
  bind (api o) (fun v =>
    Normal (render_if_active "releases" (update (set_deployments v) s))).

(** [_loadTabData('resources')] from its [await] on; the ingress slot is
    [Promise.resolve(null)] when no request was made. *)
Definition loadResources_resumed (ingressRequested : bool)
  (o1 o2 : FetchOutcome Json) (s : Session) : Completion Session :=
  bind (api o1) (fun res =>
  bind (if ingressRequested then api o2 else Normal JNull) (fun ing =>
    Normal (render_if_active "resources" (update (set_resources res ing) s)))).

(** [_loadTabData('schedule')] from its [await] on. *)
Definition loadSchedule_resumed (o1 o2 : FetchOutcome Json) (s : Session)
  : Completion Session :=
  bind (api o1) (fun sched =>
  bind (api o2) (fun mw =>
    Normal (render_if_active "schedule" (update (set_schedule sched mw) s)))).

(** [_switchTab(tab)] *)
Definition switchTab (tab : string) (s : Session) : Session :=
  loadTabData tab (renderTabContent tab (update (set_activeTab tab) s)).

(** [_hardRefresh()] *)
Definition hardRefresh (s : Session) : Session :=
  loadData (emit LoadingOverlay (update clear_data s)).

(** *** The picker *)

(** [_loadPickerProjects()] up to its [await]. *)
Definition loadPickerProjects (s : Session) : Session :=
  suspend AwaitProjects (emit (Fetch Stacks) s).

(** [_loadPickerProjects()] from its [await] on: it writes the options
    of the project list, which the session does not keep. *)
Definition loadPickerProjects_resumed (o : FetchOutcome Json) (s : Session)
  : Completion Session :=
  bind (api o) (fun _ => Normal s).

(** [_showPicker()]: the sections are emptied, the tab bar with them;
    the picker is written into the tab panel; the project list is
    requested. *)
Definition showPicker (s : Session) : Session :=
  loadPickerProjects (show_picker (emit ShowPicker s)).

(** [_loadPickerEnvironments(stackName)] up to its [await]. *)
Definition loadPickerEnvironments (stack : string) (s : Session) : Session :=
  suspend AwaitEnvironments (emit (Fetch (ClustersOverviewOf stack)) s).

(** [_loadPickerEnvironments(stackName)] from its [await] on: it writes
    the options of the environment list. *)
Definition loadPickerEnvironments_resumed (o : FetchOutcome Json) (s : Session)
  : Completion Session :=
  bind (api o) (fun _ => Normal s).

(** The [change] listener of the project list; [stack] is
    [projSel.value]: [if (stack) self._loadPickerEnvironments(stack)]. *)
Definition projectChanged (stack : string) (s : Session) : Session :=
  if truthy_str stack then loadPickerEnvironments stack s else s.

(** The [click] listener of the Go button; [value] is
    [envSel && envSel.value]:
    [if (!cid) return; self.clusterId = cid;] the nine data fields are
    nulled and [isLoading] set; the tab panel is emptied, the loading
    overlay shown, and [self._loadData()] called. *)
Definition pickerGo (value : string) (s : Session) : Session :=
  if truthy_str value then
    loadData (emit LoadingOverlay
                (hide_picker (update clear_data (update (set_clusterId (Some value)) s))))
  else s.

(** *** Boot *)

(** The element's attributes. *)
Record Attributes := {
  cluster_id   : option string;
  stack_name   : option string;
  cluster_name : option string
}.

(** The fields after [constructor()]. *)
Definition constructed : Session :=
  {| this := {| clusterId := None; stackName := None; clusterName := None;
                overview := None; env := None; resourceStats := None;
                varCounts := None; deployments := JNull; resources := JNull;
                ingresses := JNull; schedule := JNull; maintenanceWin := JNull;
                costEnabled := false; activeTab := "overview"; isLoading := true;
                error := None; refreshTimer := None |};
     suspended := []; intervals := []; nextId := 1; navShown := false;
     pickerShown := false; log := [] |}.

(** [connectedCallback()]; it runs at every insertion of the element,
    on the fields as they are. *)
Definition connectedCallback (attrs : Attributes) (loc : Context.Location)
  (s : Session) : Session :=
  let s1 := update (set_identity (cluster_id attrs) (stack_name attrs)
                                 (cluster_name attrs)) s in
  if truthy_ostr (cluster_id attrs)
     || (truthy_ostr (stack_name attrs) && truthy_ostr (cluster_name attrs))
  then loadData s1
  else
    let ctx := Context.tryUrlContext loc in
    if truthy_ostr (Context.ctx_clusterId ctx) then
      loadData (update (set_clusterId (Context.ctx_clusterId ctx)) s1)
    else if truthy_ostr (Context.ctx_stackName ctx)
            && truthy_ostr (Context.ctx_clusterName ctx) then
      loadData (update (set_identity (clusterId (this s1))
                                     (Context.ctx_stackName ctx)
                                     (Context.ctx_clusterName ctx)) s1)
    else showPicker s1.

Definition boot (attrs : Attributes) (loc : Context.Location) : Session :=
  connectedCallback attrs loc constructed.

(** *** Runs *)

(** The responses that settle a suspended method. *)
Inductive Reply :=
| ResolveReply (o : FetchOutcome (option ClusterInfo))
| CriticalReply (o1 : FetchOutcome (option Overview))
                (o2 : FetchOutcome (option ResourceStats))
                (o3 : FetchOutcome (option VarCounts))
| SecondaryReply (o : FetchOutcome (option CostData))
| ReleasesReply (o : FetchOutcome Json)
| ResourcesReply (o1 o2 : FetchOutcome Json)
| ScheduleReply (o1 o2 : FetchOutcome Json)
| RefreshReply (o : FetchOutcome (option Overview))
| ProjectsReply (o : FetchOutcome Json)
| EnvironmentsReply (o : FetchOutcome Json).

(** What happens to the widget after an insertion: a click on a tab or
    on Refresh, a tick of a running interval, removal from the page, the
    responses of the [n]-th suspended method arriving, a project chosen
    in the picker, or a click on its Go button. *)
Inductive Event :=
| SwitchTab (tab : string)
| HardRefresh
| Tick (id : nat)
| Disconnect
| Settle (n : nat) (r : Reply)
| ProjectChosen (stack : string)
| GoClicked (value : string).

Definition tabs : list string :=
  ["overview"; "releases"; "resources"; "config"; "schedule"].

Fixpoint remove_nth {A} (n : nat) (l : list A) : list A :=
  match n, l with
  | _, [] => []
  | O, _ :: rest => rest
  | S n', x :: rest => x :: remove_nth n' rest
  end.

(** An [async] method that throws after an [await] only rejects its
    promise: the fields stay as they were when it threw. *)
Definition settled (s : Session) (c : Completion Session) : Session :=
  match c with
  | Normal s' => s'
  | Throw _ => s
  end.

(** The continuation of a suspended method on its responses. *)
Definition resume (k : Suspended) (r : Reply) (s : Session) : option Session :=
  match k, r with
  | AwaitResolve, ResolveReply o => Some (loadData_resolved o s)
  | AwaitCritical, CriticalReply o1 o2 o3 => Some (loadData_resumed o1 o2 o3 s)
  | AwaitSecondary, SecondaryReply o => Some (settled s (loadSecondary_resumed o s))
  | AwaitReleases, ReleasesReply o => Some (settled s (loadReleases_resumed o s))
  | AwaitResources req, ResourcesReply o1 o2 =>
      Some (settled s (loadResources_resumed req o1 o2 s))
  | AwaitSchedule, ScheduleReply o1 o2 => Some (settled s (loadSchedule_resumed o1 o2 s))
  | AwaitRefresh, RefreshReply o => Some (settled s (refreshOverview_resumed o s))
  | AwaitProjects, ProjectsReply o => Some (settled s (loadPickerProjects_resumed o s))
  | AwaitEnvironments, EnvironmentsReply o =>
      Some (settled s (loadPickerEnvironments_resumed o s))
  | _, _ => None
  end.

Definition drop_suspended (n : nat) (s : Session) : Session :=
  {| this := this s; suspended := remove_nth n (suspended s);
     intervals := intervals s; nextId := nextId s; navShown := navShown s;
     pickerShown := pickerShown s; log := log s |}.

(** One event; [None] when the event cannot happen in [s]: a click
    needs its button in the DOM, a tick its interval, a response its
    request.  Which values the lists of the picker offer is not kept:
    any project and any environment id can be chosen while the picker
    is shown. *)
Definition step (s : Session) (ev : Event) : option Session :=
  match ev with
  | SwitchTab tab =>
      if navShown s && existsb (String.eqb tab) tabs then Some (switchTab tab s) else None
  | HardRefresh => if navShown s then Some (hardRefresh s) else None
  | Tick id =>
      if existsb (Nat.eqb id) (intervals s) then Some (refreshOverview s) else None
  | Disconnect => Some (disconnectedCallback s)
  | Settle n r =>
      match nth_error (suspended s) n with
      | Some k => resume k r (drop_suspended n s)
      | None => None
      end
  | ProjectChosen stack => if pickerShown s then Some (projectChanged stack s) else None
  | GoClicked value => if pickerShown s then Some (pickerGo value s) else None
  end.

Fixpoint run (s : Session) (evs : list Event) : option Session :=
  match evs with
  | [] => Some s
  | ev :: rest =>
      match step s ev with
      | Some s' => run s' rest
      | None => None
      end
  end.

(** The life of the element: the events after an insertion, and the
    insertions that follow the first.  Each insertion runs
    [connectedCallback()] again, on the attributes and the location of
    that moment.  Whether the element is in the page is not kept: a
    removal or an insertion can be taken at any moment. *)
Inductive Moment :=
| Within (ev : Event)
| Inserted (attrs : Attributes) (loc : Context.Location).

Definition advance (s : Session) (m : Moment) : option Session :=
  match m with
  | Within ev => step s ev
  | Inserted attrs loc => Some (connectedCallback attrs loc s)
  end.

Fixpoint life (s : Session) (ms : list Moment) : option Session :=
  match ms with
  | [] => Some s
  | m :: rest =>
      match advance s m with
      | Some s' => life s' rest
      | None => None
      end
  end.

(** *** Reading the log *)

Definition is_lazy (e : Endpoint) : bool :=
  match e with
  | DeploymentsPage _ _ _ | ResourcesInfo _ | IngressRules _
  | AvailabilitySchedule _ | MaintenanceWindowOf _ => true
  | _ => false
  end.

Definition fetches (l : list Effect) : list Endpoint :=
  flat_map (fun e => match e with Fetch ep => [ep] | _ => [] end) l.

(** The effects of [s'] that came after those of [s]. *)
Definition since (s s' : Session) : list Effect :=
  skipn (List.length (log s)) (log s').



(** The requests of a lazy tab in a log, counted by the first request
    of the tab's set. *)
Definition opens (tab : string) (e : Endpoint) : bool :=
  match e with
  | DeploymentsPage _ _ _ => String.eqb tab "releases"
  | ResourcesInfo _ => String.eqb tab "resources"
  | AvailabilitySchedule _ => String.eqb tab "schedule"
  | _ => false
  end.

Definition requests_for (tab : string) (l : list Effect) : nat :=
  List.length (filter (opens tab) (fetches l)).

(** Every cached data field is [null]. *)
Definition data_cleared (w : Fields) : Prop :=
  overview w = None /\ env w = None /\ resourceStats w = None /\
  varCounts w = None /\ deployments w = JNull /\ resources w = JNull /\
  ingresses w = JNull /\ schedule w = JNull /\ maintenanceWin w = JNull.

(** The page runs no interval, or the one the widget holds. *)
Definition held (s : Session) : Prop :=
  intervals s = [] \/ exists i, intervals s = [i] /\ refreshTimer (this s) = Some i.

(** The resolution call did not succeed. *)
Definition identity_failed (o : FetchOutcome (option ClusterInfo)) (message : string)
  : Prop :=
  resolveClusterId_resumed o = Throw message.

(** The id is known and no name resolution is in flight. *)
Definition Identified (s : Session) : Prop :=
  truthy_ostr (clusterId (this s)) = true /\ ~ In AwaitResolve (suspended s).


(** The picker as it is shown: the fields are those of the insertion
    that showed it, nothing but its lists is pending, no interval runs
    and the tab bar is not in the DOM. *)
Definition Picking (w : Fields) (s : Session) : Prop :=
  this s = w /\ intervals s = [] /\ navShown s = false /\
  refreshTimer w = None /\
  forall k, In k (suspended s) -> k = AwaitProjects \/ k = AwaitEnvironments.

End Widget.

(* ------------------------------------------------------------------ *)
(** ** Sample payloads and runs *)

Module Sample.

Import Gateway Widget.
Open Scope string_scope.

Definition by_id : Attributes :=
  {| cluster_id := Some "c1"; stack_name := None; cluster_name := None |}.

Definition by_names : Attributes :=
  {| cluster_id := None; stack_name := Some "Acme"; cluster_name := Some "prod-1" |}.

Definition here : Context.Location :=
  {| Context.pathname := "/"; Context.hash := ""; Context.search := "" |}.

Definition received {B} (data : B) : FetchOutcome B := Response true (Body data).

Definition cluster_in (state : string) : Cluster :=
  {| clusterState := Some state; cloud := Some "AWS"; cloudAccountId := None;
     configured := None; hasK8sCredentials := None; componentVersions := None;
     stack := None; env_stackName := None; env_branch := None |}.

Definition overview_in (state : string) : Overview :=
  {| cluster := Some (cluster_in state); inProgressDeployments := Some [];
     deploymentsStats := None |}.

(** The three critical responses: an overview in [state]; the two
    counters fail. *)
Definition critical (state : string) : Reply :=
  CriticalReply (received (Some (overview_in state)))
                (NetworkError "Failed to fetch")
                (Response false (Body None)).

(** The releases tab is opened and loaded, then Refresh is clicked and
    the reload's critical phase completes. *)
Definition reload_on_releases : list Event :=
  [ Settle 0 (critical "RUNNING");
    SwitchTab "releases";
    Settle 1 (ReleasesReply (received (JArr [JStr "r1"])));
    HardRefresh;
    Settle 1 (critical "RUNNING") ].



(** A tick's request is in flight when Refresh is clicked, and the
    reload completes with the environment running. *)
Definition reloaded_while_polling : list Event :=
  [ Settle 0 (critical "LAUNCHING");
    Tick 1;
    HardRefresh;
    Settle 2 (critical "RUNNING") ].

(** A tick's request is in flight when Refresh is clicked; the reload
    completes with the environment running; then the tick's response,
    older, arrives. *)
Definition stale_tick : list Event :=
  [ Settle 0 (critical "LAUNCHING");
    Tick 1;
    HardRefresh;
    Settle 2 (critical "RUNNING");
    Settle 1 (RefreshReply (received (Some (overview_in "LAUNCHING")))) ].

(** Polling starts on a launching environment and the next tick finds
    it running. *)
Definition launch_completes : list Event :=
  [ Settle 0 (critical "LAUNCHING");
    Tick 1;
    Settle 1 (RefreshReply (received (Some (overview_in "RUNNING")))) ].

(** The session reached by a run (the boot state when the run is not
    possible). *)
Definition after (evs : list Event) : Session :=
  match run (boot by_id here) evs with
  | Some s => s
  | None => boot by_id here
  end.

(** Polling a launching environment, a tick's request in flight. *)
Definition polling : list Event :=
  [ Settle 0 (critical "LAUNCHING"); Tick 1 ].

(** Polling starts on a launching environment; Refresh is clicked and
    the reload finds the environment running. *)
Definition reloaded_running : list Event :=
  [ Settle 0 (critical "LAUNCHING");
    HardRefresh;
    Settle 1 (critical "RUNNING") ].

(** The element is removed while the critical requests are in flight;
    they settle on a launching environment. *)
Definition removed_while_loading : list Event :=
  [ Disconnect; Settle 0 (critical "LAUNCHING") ].


(** No attribute: at a location without context the picker is shown. *)
Definition bare : Attributes :=
  {| cluster_id := None; stack_name := None; cluster_name := None |}.

(** In the picker, a project is chosen and both lists arrive. *)
Definition picking : list Event :=
  [ Settle 0 (ProjectsReply (received (JArr [])));
    ProjectChosen "Acme";
    Settle 0 (EnvironmentsReply (received (JArr []))) ].

End Sample.

(* ------------------------------------------------------------------ *)
(** ** Reading the requests of a session *)

Module Requests.
Import Widget.

(** The cluster a data request is addressed to: the id spliced into its
    path.  The name resolution, the cost flag and the lists of the
    picker carry no id. *)
Definition cluster_of (e : Endpoint) : option (option string) :=
  match e with
  | ClusterInfoByName _ _ | CostExplorerEnabled | Stacks | ClustersOverviewOf _ => None
  | DeploymentsOverview id | ResourceStatsOf id | VariableCountsOf id
  | DeploymentsPage id _ _ | ResourcesInfo id | IngressRules id
  | AvailabilitySchedule id | MaintenanceWindowOf id => Some id
  end.

(** The request is for the cluster [id], or carries no id and is not a
    name resolution. *)
Definition addressed_to (id : option string) (e : Endpoint) : Prop :=
  e = CostExplorerEnabled \/ cluster_of e = Some id.

End Requests.

(* ------------------------------------------------------------------ *)
(** ** Request paths ([encodeURIComponent], [_resolveClusterId]) *)

Module Uri.

Import Str.
Open Scope string_scope.

(** [s.every(p)], on the bytes of a string. *)
Fixpoint every (p : ascii -> bool) (s : string) : bool :=
  match s with
  | EmptyString => true
  | String c rest => p c && every p rest
  end.

(** The characters [encodeURIComponent] keeps:
    [A-Z a-z 0-9 - _ . ! ~ * ' ( )]. *)
Definition unreserved (c : ascii) : bool :=
  let n := nat_of_ascii c in
  ((65 <=? n)%nat && (n <=? 90)%nat) || ((97 <=? n)%nat && (n <=? 122)%nat)
  || ((48 <=? n)%nat && (n <=? 57)%nat)
  || existsb (Ascii.eqb c) ["-"; "_"; "."; "!"; "~"; "*"; "'"; "("; ")"]%char.

(** An upper-case hexadecimal digit. *)
Definition hex_digit (n : nat) : ascii :=
  if (n <? 10)%nat then ascii_of_nat (48 + n) else ascii_of_nat (55 + n).

(** The escape [%XY] of a byte. *)
Definition escape (c : ascii) : string :=
  let n := nat_of_ascii c in
  String "%" (String (hex_digit (n / 16)) (String (hex_digit (n mod 16)) EmptyString)).

(** [encodeURIComponent(s)]: every byte of the UTF-8 encoding that is
    not an unreserved character is escaped.  (The [URIError] of a lone
    surrogate does not arise: such a string has no UTF-8 encoding.) *)
Fixpoint encodeURIComponent (s : string) : string :=
  match s with
  | EmptyString => EmptyString
  | String c rest =>
      (if unreserved c then String c EmptyString else escape c)
      ++ encodeURIComponent rest
  end.

(** The path [_resolveClusterId] requests, for names that are strings:
    [`/cc-ui/v1/clusters/stack/${encodeURIComponent(this.stackName)}/cluster/${encodeURIComponent(this.clusterName)}/info`] *)
Definition resolve_path (stackName clusterName : string) : string :=
  "/cc-ui/v1/clusters/stack/" ++ encodeURIComponent stackName
  ++ "/cluster/" ++ encodeURIComponent clusterName ++ "/info".

(** A continuation byte of UTF-8 (10xxxxxx). *)
Definition is_continuation (c : ascii) : bool :=
  (128 <=? nat_of_ascii c)%nat && (nat_of_ascii c <=? 191)%nat.

(** The bytes are the UTF-8 encoding of a sequence of code points: the
    strings a JavaScript string without lone surrogates stands for. *)
Fixpoint utf8 (s : string) : bool :=
  match s with
  | EmptyString => true
  | String c rest =>
      let b := nat_of_ascii c in
      if (b <? 128)%nat then utf8 rest
      else if (b <? 192)%nat then false
      else if (b <? 224)%nat then
        match rest with
        | String c1 rest1 =>
            is_continuation c1 && Context.well_formed b [nat_of_ascii c1] && utf8 rest1
        | _ => false
        end
      else if (b <? 240)%nat then
        match rest with
        | String c1 (String c2 rest2) =>
            is_continuation c1 && is_continuation c2
            && Context.well_formed b [nat_of_ascii c1; nat_of_ascii c2] && utf8 rest2
        | _ => false
        end
      else if (b <? 248)%nat then
        match rest with
        | String c1 (String c2 (String c3 rest3)) =>
            is_continuation c1 && is_continuation c2 && is_continuation c3
            && Context.well_formed b [nat_of_ascii c1; nat_of_ascii c2; nat_of_ascii c3]
            && utf8 rest3
        | _ => false
        end
      else false
  end.

End Uri.

(* ------------------------------------------------------------------ *)
(** ** Durations and ages ([_fmtDur], [_fmtElapsed], [_fmtRel]) *)

Module Format.

Open Scope string_scope.

(** The text of a whole number in a template literal: its decimal
    digits, after a minus sign when it is negative. *)
Definition show (n : Z) : string := NilZero.string_of_int (Z.to_int n).

(** [_fmtDur(seconds)], for a whole number of seconds of magnitude
    below 2^53 ([None]: the field is missing).  [Math.floor(seconds/60)]
    is the quotient rounded down and [seconds%60] the remainder with the
    sign of [seconds].  The source divides doubles: below 2^53 the
    number is exact, the remainder is exact, and the rounded quotient
    stays on the side of the integer where the exact one is (for 3600
    it is below 2^42, rounded by 2^-12 at most, and 1/3600 away from the
    next integer at least; for 60 below 2^48, 2^-6 and 1/60), so
    [Math.floor] gives the integer quotient used here.  From 2^53 on the
    source rounds and prints otherwise; such numbers are outside this
    definition. *)
Definition fmtDur (seconds : option Z) : string :=
  match seconds with
  | None => "—"
  | Some n =>
      if (n =? 0)%Z then "—"
      else if (n <? 60)%Z then show n ++ "s"
      else if (n <? 3600)%Z then show (n / 60) ++ "m " ++ show (Z.rem n 60) ++ "s"
      else show (n / 3600) ++ "h " ++ show (Z.rem n 3600 / 60) ++ "m"
  end.

(** What [new Date(d).getTime()] makes of the argument of [_fmtElapsed]:
    nothing to read ([d] is falsy), a date that does not parse (NaN), or
    an instant in milliseconds. *)
Inductive DateArg :=
| NoDate
| InvalidDate
| Instant (ms : Z).

(** [_fmtElapsed(d)] at the time [now] ([Date.now()], in milliseconds);
    every comparison with NaN is false, which leaves the last branch. *)
Definition fmtElapsed (now : Z) (d : DateArg) : string :=
  match d with
  | NoDate => ""
  | InvalidDate => "NaNh NaNm"
  | Instant t =>
      let s := ((now - t) / 1000)%Z in
      if (s <? 60)%Z then show s ++ "s"
      else if (s <? 3600)%Z then show (s / 60) ++ "m " ++ show (Z.rem s 60) ++ "s"
      else show (s / 3600) ++ "h " ++ show (Z.rem s 3600 / 60) ++ "m"
  end.

(** [_fmtRel(d)] at the time [now]; with NaN every comparison is false,
    which leaves the last branch. *)
Definition fmtRel (now : Z) (d : DateArg) : string :=
  match d with
  | NoDate => "—"
  | InvalidDate => "NaNd ago"
  | Instant t =>
      let s := ((now - t) / 1000)%Z in
      if (s <? 60)%Z then "just now"
      else if (s <? 3600)%Z then show (s / 60) ++ "m ago"
      else if (s <? 86400)%Z then show (s / 3600) ++ "h ago"
      else show (s / 86400) ++ "d ago"
  end.

Definition is_digit (c : ascii) : bool :=
  (48 <=? nat_of_ascii c)%nat && (nat_of_ascii c <=? 57)%nat.

End Format.

(* ------------------------------------------------------------------ *)
(** ** Labels ([_humanize]) *)

Module Label.

Open Scope string_scope.

(** [[A-Z]] *)
Definition is_upper (c : ascii) : bool :=
  (65 <=? nat_of_ascii c)%nat && (nat_of_ascii c <=? 90)%nat.

(** [\w]: [[A-Za-z0-9_]] *)
Definition is_word (c : ascii) : bool :=
  let n := nat_of_ascii c in
  ((65 <=? n)%nat && (n <=? 90)%nat) || ((97 <=? n)%nat && (n <=? 122)%nat)
  || ((48 <=? n)%nat && (n <=? 57)%nat) || Ascii.eqb c "_".

(** [c.toUpperCase()] for a character of [\w]. *)
Definition upper_ascii (c : ascii) : ascii :=
  let n := nat_of_ascii c in
  if (97 <=? n)%nat && (n <=? 122)%nat then ascii_of_nat (n - 32) else c.

(** [[_-]] *)
Definition is_mark (c : ascii) : bool := Ascii.eqb c "_" || Ascii.eqb c "-".

(** [.replace(/([A-Z])/g, ' $1')] *)
Fixpoint space_capitals (s : string) : string :=
  match s with
  | EmptyString => EmptyString
  | String c rest =>
      if is_upper c then String " " (String c (space_capitals rest))
      else String c (space_capitals rest)
  end.

(** [.replace(/[_-]/g, ' ')] *)
Fixpoint blank_marks (s : string) : string :=
  match s with
  | EmptyString => EmptyString
  | String c rest => String (if is_mark c then " "%char else c) (blank_marks rest)
  end.

(** [.replace(/^\w/, c => c.toUpperCase())] *)
Definition capitalize (s : string) : string :=
  match s with
  | EmptyString => EmptyString
  | String c rest => if is_word c then String (upper_ascii c) rest else s
  end.

(** White space and line terminators of one byte: TAB, LF, VT, FF, CR,
    SP. *)
Definition is_space (c : ascii) : bool :=
  let n := nat_of_ascii c in
  ((9 <=? n)%nat && (n <=? 13)%nat) || (n =? 32)%nat.

(** White space of two bytes: U+00A0 (C2 A0). *)
Definition is_space2 (c1 c2 : ascii) : bool :=
  (nat_of_ascii c1 =? 194)%nat && (nat_of_ascii c2 =? 160)%nat.

(** White space and line terminators of three bytes: U+1680,
    U+2000 to U+200A, U+2028, U+2029, U+202F, U+205F, U+3000, U+FEFF. *)
Definition is_space3 (c1 c2 c3 : ascii) : bool :=
  let n1 := nat_of_ascii c1 in
  let n2 := nat_of_ascii c2 in
  let n3 := nat_of_ascii c3 in
  ((n1 =? 225)%nat && (n2 =? 154)%nat && (n3 =? 128)%nat)
  || ((n1 =? 226)%nat && (n2 =? 128)%nat
      && (((128 <=? n3)%nat && (n3 <=? 138)%nat) || (n3 =? 168)%nat || (n3 =? 169)%nat
          || (n3 =? 175)%nat))
  || ((n1 =? 226)%nat && (n2 =? 129)%nat && (n3 =? 159)%nat)
  || ((n1 =? 227)%nat && (n2 =? 128)%nat && (n3 =? 128)%nat)
  || ((n1 =? 239)%nat && (n2 =? 187)%nat && (n3 =? 191)%nat).

(** [s.trimStart()] *)
Fixpoint trimStart (s : string) : string :=
  match s with
  | EmptyString => EmptyString
  | String c1 rest1 =>
      if is_space c1 then trimStart rest1
      else
        match rest1 with
        | EmptyString => s
        | String c2 rest2 =>
            if is_space2 c1 c2 then trimStart rest2
            else
              match rest2 with
              | EmptyString => s
              | String c3 rest3 => if is_space3 c1 c2 c3 then trimStart rest3 else s
              end
        end
  end.

(** The bytes of a string, last first. *)
Fixpoint reverse (s : string) : string :=
  match s with
  | EmptyString => EmptyString
  | String c rest => reverse rest ++ String c EmptyString
  end.

(** [trimStart] read from the end: on the reversed bytes. *)
Fixpoint trimStart_reversed (s : string) : string :=
  match s with
  | EmptyString => EmptyString
  | String c1 rest1 =>
      if is_space c1 then trimStart_reversed rest1
      else
        match rest1 with
        | EmptyString => s
        | String c2 rest2 =>
            if is_space2 c2 c1 then trimStart_reversed rest2
            else
              match rest2 with
              | EmptyString => s
              | String c3 rest3 =>
                  if is_space3 c3 c2 c1 then trimStart_reversed rest3 else s
              end
        end
  end.

(** [s.trimEnd()] *)
Definition trimEnd (s : string) : string :=
  reverse (trimStart_reversed (reverse s)).

(** [s.trim()] *)
Definition trim (s : string) : string := trimEnd (trimStart s).

(** [_humanize(str)] *)
Definition humanize (str : string) : string :=
  trim (capitalize (blank_marks (space_capitals str))).

(** The first and the last byte of a string. *)
Definition first (s : string) : option ascii :=
  match s with
  | EmptyString => None
  | String c _ => Some c
  end.

Definition last (s : string) : option ascii := first (reverse s).

End Label.

(* ------------------------------------------------------------------ *)
(** ** Status pill and action routes ([_stateConf], [_handleCTA]) *)

Module Status.

Import Str Derive.
Open Scope string_scope.

(** An entry of the table of [_stateConf]. *)
Record StateConf := {
  sc_label  : string;
  sc_bg     : string;
  sc_color  : string;
  sc_border : string;
  sc_dot    : string;
  sc_pulse  : bool
}.

Definition conf (label bg color border dot : string) (pulse : bool) : StateConf :=
  {| sc_label := label; sc_bg := bg; sc_color := color; sc_border := border;
     sc_dot := dot; sc_pulse := pulse |}.

(** The object literal [map] of [_stateConf]. *)
Definition stateConf_map : list (string * StateConf) :=
  [ ("RUNNING",           conf "Running" "#e8f5e9" "#1b5e20" "#a5d6a7" "#2e7d32" false);
    ("LAUNCHING",         conf "Launching" "#fff8e1" "#e65100" "#ffe082" "#ff9800" true);
    ("SCALING_UP",        conf "Scaling Up" "#e3f2fd" "#0d47a1" "#90caf9" "#1565c0" true);
    ("SCALING_DOWN",      conf "Scaling Down" "#e3f2fd" "#0d47a1" "#90caf9" "#1565c0" true);
    ("DESTROYING",        conf "Destroying" "#fff3e0" "#bf360c" "#ffcc80" "#e64a19" true);
    ("STOPPED",           conf "Stopped" "#f5f5f5" "#424242" "#e0e0e0" "#9e9e9e" false);
    ("SCALE_DOWN",        conf "Scaled Down" "#e8eaf6" "#283593" "#9fa8da" "#3f51b5" false);
    ("LAUNCH_FAILED",     conf "Launch Failed" "#ffebee" "#b71c1c" "#ef9a9a" "#c62828" false);
    ("DESTROY_FAILED",    conf "Destroy Failed" "#ffebee" "#b71c1c" "#ef9a9a" "#c62828" false);
    ("SCALE_DOWN_FAILED", conf "Scale-Down Failed" "#ffebee" "#b71c1c" "#ef9a9a" "#c62828" false);
    ("SCALE_UP_FAILED",   conf "Scale-Up Failed" "#ffebee" "#b71c1c" "#ef9a9a" "#c62828" false);
    ("UNKNOWN",           conf "Unknown" "#f5f5f5" "#616161" "#e0e0e0" "#9e9e9e" false) ].

(** [_stateConf(state)]: [map[state] || map.UNKNOWN].  A name inherited
    from [Object.prototype] is truthy and is returned as it is. *)
Definition stateConf (state : string) : Property StateConf :=
  match get_property stateConf_map state with
  | Undefined =>
      match own stateConf_map "UNKNOWN" with
      | Some sc => Own sc
      | None => Undefined
      end
  | found => found
  end.

(** [sc.pulse], as the templates test it; an inherited member has no
    such field. *)
Definition pulse (sc : Property StateConf) : bool :=
  match sc with
  | Own v => sc_pulse v
  | _ => false
  end.

(** The state the header and the cards show:
    [(this.env || {}).clusterState || 'UNKNOWN']. *)
Definition shown_state (this_env : option Cluster) : string :=
  str_or (clusterState (env_or_empty this_env)) "UNKNOWN".

(** What [_handleCTA] dispatches: nothing, a [facets-navigate] event
    with a route, or one whose route is a member inherited from
    [Object.prototype]. *)
Inductive Navigation :=
| Stay
| Navigate (route : string)
| NavigateInherited.

(** The object literal [routes] of [_handleCTA]; [stackName] and [name]
    are the texts [${env.stackName}] and [${env.name}] give. *)
Definition routes (stackName name : string) : list (string * string) :=
  let base := "/projects/" ++ stackName ++ "/environments/" ++ name in
  [ ("launch",             base ++ "/launch");
    ("plan",               base ++ "/releases/plan");
    ("run-plan",           base ++ "/releases/plan");
    ("trigger-release",    base ++ "/releases/new");
    ("trigger-hotfix",     base ++ "/releases/hotfix");
    ("scale-up",           base ++ "/scale-up");
    ("scale-down",         base ++ "/scale-down");
    ("resume-releases",    base ++ "/settings?action=resume-releases");
    ("add-variable",       base ++ "/settings?tab=variables");
    ("add-schedule",       base ++ "/settings?tab=schedule");
    ("toggle-maintenance", base ++ "/settings?tab=maintenance");
    ("manage-resources",   base ++ "/resources");
    ("open-cost",          "/projects/" ++ stackName ++ "/cost");
    ("destroy",            base ++ "/destroy") ].

(** [_handleCTA(action, event)]; [depId] is what the lookup of the
    closest [data-dep] attribute gives. *)
Definition handleCTA (stackName name action : string) (depId : option string)
  : Navigation :=
  let base := "/projects/" ++ stackName ++ "/environments/" ++ name in
  let by_table :=
    match get_property (routes stackName name) action with
    | Own route => if truthy_str route then Navigate route else Stay
    | Inherited => NavigateInherited
    | Undefined => Stay
    end in
  match depId with
  | Some dep =>
      if truthy_str dep then
        if String.eqb action "approve"
        then Navigate (base ++ "/releases/" ++ dep ++ "?action=approve")
        else if String.eqb action "reject"
        then Navigate (base ++ "/releases/" ++ dep ++ "?action=reject")
        else if String.eqb action "abort"
        then Navigate (base ++ "/releases/" ++ dep ++ "?action=abort")
        else by_table
      else by_table
  | None => by_table
  end.

End Status.

(* ------------------------------------------------------------------ *)
(** ** Tab bodies ([_buildReleasesTab], [_buildResourcesTab]) and the
       resources card ([_renderCards]) *)

Module Tabs.

Import Str Derive.
Open Scope string_scope.

(** [obj[name]] on a parsed JSON object: its own property, the last one
    when the text repeats the key; [None] is [undefined]. *)
Fixpoint lookup (props : list (string * Json)) (name : string) : option Json :=
  match props with
  | [] => None
  | (k, v) :: rest =>
      match lookup rest name with
      | Some w => Some w
      | None => if String.eqb k name then Some v else None
      end
  end.

(** [j.name] for a value that is not [null], and a name that is neither
    [length] nor a member of a prototype: only an object has it. *)
Definition field (j : Json) (name : string) : option Json :=
  match j with
  | JObj props => lookup props name
  | _ => None
  end.

(** [x || y] *)
Definition or_else (x y : option Json) : option Json :=
  match x with
  | Some v => if truthy v then x else y
  | None => y
  end.

(** [Array.isArray(deps) ? deps
      : (deps.content || deps.deployments || deps.items || [])] *)
Definition release_list (deps : Json) : Json :=
  match deps with
  | JArr _ => deps
  | _ =>
      match or_else (field deps "content")
              (or_else (field deps "deployments")
                 (or_else (field deps "items") (Some (JArr [])))) with
      | Some v => v
      | None => JArr []
      end
  end.

(** The truth value of [list.length]: the length of an array or of a
    string, the [length] property of an object, [undefined] otherwise. *)
Definition has_length (xs : Json) : bool :=
  match xs with
  | JArr items => match items with [] => false | _ :: _ => true end
  | JStr s => truthy_str s
  | JObj props => match lookup props "length" with Some v => truthy v | None => false end
  | _ => false
  end.

(** [list.slice(0, 25)] up to the receiver check of [.map]: an array
    gives its first 25 entries; a string gives a string, which has no
    [map]; an object has no [slice] to call. *)
Definition slice_25 (xs : Json) : Completion (list Json) :=
  match xs with
  | JArr items => Normal (firstn 25 items)
  | JStr _ => Throw "list.slice(...).map is not a function"
  | _ => Throw "list.slice is not a function"
  end.

(** Whether a value can be turned into a text or a number
    ([ToPrimitive]): a parsed object can unless it has an own
    [toString], which is then not a function; an array is joined from
    its entries; everything else can. *)
Fixpoint printable (j : Json) : bool :=
  match j with
  | JArr items => forallb printable items
  | JObj props => match lookup props "toString" with Some _ => false | None => true end
  | _ => true
  end.

Definition printable_field (d : Json) (name : string) : bool :=
  match field d name with
  | Some v => printable v
  | None => true
  end.

(** [(d.changesApplied && d.changesApplied.length) || 0] is compared
    with [0] and printed: the [length] of an array or a string is a
    number, that of an object is whatever the object holds. *)
Definition printable_changes (d : Json) : bool :=
  match field d "changesApplied" with
  | Some (JObj props) =>
      match lookup props "length" with
      | Some v => printable v
      | None => true
      end
  | _ => true
  end.

(** What the row template needs of an entry [d].  [d.status] is read
    first, which raises on [null]; [(d.releaseType || '').toLowerCase()]
    raises on a truthy value that is not a string; and the fields the
    template prints, compares or uses as a key ([status],
    [timeTakenInSeconds], the number of changes, [triggeredBy],
    [createdOn], [id]) must be printable.  Messages are V8's. *)
Definition row (d : Json) : Completion Json :=
  match d with
  | JNull => Throw "Cannot read properties of null (reading 'status')"
  | _ =>
      if negb (printable_field d "status" && printable_field d "timeTakenInSeconds"
               && printable_changes d)
      then Throw "Cannot convert object to primitive value"
      else
        match field d "releaseType" with
        | None | Some (JStr _) =>
            if printable_field d "triggeredBy" && printable_field d "createdOn"
               && printable_field d "id"
            then Normal d
            else Throw "Cannot convert object to primitive value"
        | Some v =>
            if truthy v then Throw "toLowerCase is not a function"
            else if printable_field d "triggeredBy" && printable_field d "createdOn"
                    && printable_field d "id"
            then Normal d
            else Throw "Cannot convert object to primitive value"
        end
  end.

(** [items.map(f)] for an [f] that may raise. *)
Fixpoint map_rows (f : Json -> Completion Json) (items : list Json)
  : Completion (list Json) :=
  match items with
  | [] => Normal []
  | d :: rest => bind (f d) (fun r => bind (map_rows f rest) (fun rs => Normal (r :: rs)))
  end.

(** What the Release History card shows. *)
Inductive History :=
| LoadingHistory
| NoReleases
| Table (rows : list Json).

(** The [tableHtml] of [_buildReleasesTab], from [this.deployments]. *)
Definition releaseHistory (deps : Json) : Completion History :=
  if negb (truthy deps) then Normal LoadingHistory
  else
    let xs := release_list deps in
    if negb (has_length xs) then Normal NoReleases
    else bind (slice_25 xs) (fun items =>
         bind (map_rows row items) (fun rows => Normal (Table rows))).

(** An entry of the resources list, as far as its type goes. *)
Record Resource := {
  resourceType : option string;
  res_type     : option string
}.

(** [r.resourceType || r.type || 'unknown'] *)
Definition type_of (r : Resource) : string :=
  str_or (resourceType r) (str_or (res_type r) "unknown").

(** A value of the object [byType]: a count, or the text that adding
    [1] to an inherited member leaves. *)
Inductive Tally :=
| Count (n : nat)
| Garbled.

(** [obj[key] = v] on an own key: the property keeps its place. *)
Fixpoint replace (table : list (string * Tally)) (key : string) (v : Tally)
  : list (string * Tally) :=
  match table with
  | [] => []
  | (k, x) :: rest =>
      if String.eqb k key then (k, v) :: rest else (k, x) :: replace rest key v
  end.

(** [byType[t] = (byType[t] || 0) + 1], on the object [byType] (which
    starts as [{}]).  A member inherited from [Object.prototype] is
    truthy: adding [1] gives a text, stored as an own property from then
    on; the assignment to [__proto__] is one the setter ignores. *)
Definition bump (byType : list (string * Tally)) (t : string) : list (string * Tally) :=
  match get_property byType t with
  | Own (Count n) => replace byType t (Count (n + 1))
  | Own Garbled => replace byType t Garbled
  | Inherited =>
      if String.eqb t "__proto__" then byType else byType ++ [(t, Garbled)]
  | Undefined => byType ++ [(t, Count 1)]
  end.

(** [items.forEach(r => { ... })]: the own properties of [byType], in
    the order they were created. *)
Definition tally (items : list Resource) : list (string * Tally) :=
  fold_left bump (map type_of items) [].

(** The number of entries of a type. *)
Definition entries_of (t : string) (items : list Resource) : nat :=
  List.length (filter (fun r => String.eqb (type_of r) t) items).

(** [this.resourceStats], as [_renderCards] reads it. *)
Record CardStats := {
  cs_totalCount   : option float;
  cs_total        : option float;
  cs_enabledCount : option float;
  cs_activeCount  : option float
}.

(** [x || y] on numbers. *)
Definition num_or (x : option float) (y : float) : float :=
  match x with
  | Some v => if truthy_num v then v else y
  | None => y
  end.

(** [!x] on a number that may be missing. *)
Definition falsy_num (x : option float) : bool :=
  match x with
  | Some v => negb (truthy_num v)
  | None => true
  end.

(** [stats.totalCount || stats.total || 0] *)
Definition card_total (stats : CardStats) : float :=
  num_or (cs_totalCount stats) (num_or (cs_total stats) 0%float).

(** [stats.enabledCount || stats.activeCount || total] *)
Definition card_enabled (stats : CardStats) : float :=
  num_or (cs_enabledCount stats) (num_or (cs_activeCount stats) (card_total stats)).

(** [total > enabled]: the card adds the number of disabled resources. *)
Definition shows_disabled (stats : CardStats) : bool :=
  (card_enabled stats <? card_total stats)%float.

End Tabs.

(* ------------------------------------------------------------------ *)
(** ** Tactics *)

(** Splitting the conditionals of a method. *)
Ltac split_cases :=
  repeat match goal with
         | |- context [match ?x with _ => _ end] => destruct x eqn:?
         end.

(** A case for each of the 256 bytes. *)
Ltac each_byte c :=
  destruct c as [[|] [|] [|] [|] [|] [|] [|] [|]].

(* ================================================================== *)
(** * Properties *)

Import Gateway Derive DeployHealth.

(* ------------------------------------------------------------------ *)
(** ** The gateway never raises *)

(** C6.  Whatever the request does, [_api] completes normally: a
    transport failure, a response that is not [ok] and a body that does
    not parse all give [null], and an [ok] response gives its parsed
    body. *)
Theorem api_never_raises :
  forall (B : Type) (N : Nullable B) (o : FetchOutcome B),
    returns (api o) /\
    api o = Normal match o with
                   | Response true (Body data) => data
                   | _ => null
                   end.
Proof.
  intros B N o.
  assert (E : api o = Normal match o with
                             | Response true (Body data) => data
                             | _ => null
                             end).
  { destruct o as [m | [|] [m | data]]; reflexivity. }
  split; [rewrite E; eexists; reflexivity | exact E].
Qed.

(* ------------------------------------------------------------------ *)
(** ** Deploy health *)

Lemma float_zero_not_positive :
  forall x : float, (0 =? x)%float = true -> (0 <? x)%float = false.
Proof.
  intros x H.
  rewrite FloatAxioms.eqb_spec in H. rewrite FloatAxioms.ltb_spec.
  unfold SFeqb in H. unfold SFltb.
  destruct (SFcompare (Prim2SF 0) (Prim2SF x)) as [[ | | ] | ];
    try discriminate; reflexivity.
Qed.

(** [Math_round] on a double with a fractional part: the quotient it
    takes is the integer [n] with [n - 1/2 <= x < n + 1/2]. *)
Lemma round_half_up :
  forall m d : Z,
    (0 < d)%Z ->
    let n := ((2 * m + d) / (2 * d))%Z in
    ((2 * n - 1) * d <= 2 * m < (2 * n + 1) * d)%Z.
Proof.
  intros m d Hd n.
  pose proof (Z.div_mod (2 * m + d) (2 * d) ltac:(lia)) as E.
  pose proof (Z.mod_pos_bound (2 * m + d) (2 * d) ltac:(lia)) as B.
  fold n in E. nia.
Qed.

Lemma Math_round_positive :
  forall x m e,
    Prim2SF x = S754_finite false m e -> (e < 0)%Z ->
    Math_round x = float_of_Z ((2 * Z.pos m + 2 ^ (- e)) / (2 * 2 ^ (- e)))%Z.
Proof.
  intros x m e H He. unfold Math_round. rewrite H.
  destruct (0 <=? e)%Z eqn:C; [apply Z.leb_le in C; lia | reflexivity].
Qed.

(** C7.  The deploy-health percentage is
    [Math.round(success / (success + failed + noChange) * 100)] whenever
    the denominator is positive; when the denominator is zero the card
    shows "No data yet" and no quotient is computed; the counters 3, 1, 0
    give 75. *)
Theorem deploy_health_percentage :
  forall ds : DeploymentsStats,
    ((0 <? depTotal ds)%float = true ->
       succPct ds =
       Some (Math_round (num_or_0 (successReleases ds) / depTotal ds * 100)%float)) /\
    ((0 =? depTotal ds)%float = true ->
       succPct ds = None /\
       forall o, deploymentsStats o = Some ds -> health_card (Some o) = NoDataYet) /\
    succPct (counters 3 1 0) = Some 75%float.
Proof.
  intros ds. split; [| split].
  - intros H. unfold succPct. rewrite H. reflexivity.
  - intros H. apply float_zero_not_positive in H.
    assert (E : succPct ds = None) by (unfold succPct; rewrite H; reflexivity).
    split; [exact E |].
    intros o Ho. unfold health_card, stats_of_overview. rewrite Ho, E. reflexivity.
  - reflexivity.
Qed.

Lemma deploy_health_percentage_witness :
  succPct (counters 29 171 0) = Some 14%float /\
  succPct (counters 0 0 0) = None.
Proof.
  split.
  - exact (proj1 (deploy_health_percentage (counters 29 171 0)) eq_refl).
  - exact (proj1 (proj1 (proj2 (deploy_health_percentage (counters 0 0 0))) eq_refl)).
Defined.

(** Without counters (no overview, or no [deploymentsStats]) the card
    shows the placeholder as well. *)
Lemma deploy_health_missing_stats :
  health_card None = NoDataYet /\
  forall o, deploymentsStats o = None -> health_card (Some o) = NoDataYet.
Proof.
  split; [reflexivity |].
  intros o H. unfold health_card, stats_of_overview. rewrite H. reflexivity.
Qed.

(* ------------------------------------------------------------------ *)
(** ** Launch readiness *)

(** [every] over the checks that are not skipped is [every] over the
    checks whose [skip] is unset. *)
Lemma every_unskipped :
  forall cs : list Check,
    forallb ok (filter (fun c => negb (skip c)) cs) = true <->
    (forall c, In c cs -> skip c = false -> ok c = true).
Proof.
  induction cs as [| c cs IH]; simpl.
  - split; [intros _ c [] | reflexivity].
  - destruct (skip c) eqn:Hs; simpl.
    + rewrite IH. split.
      * intros H c' [<- | Hin] Hs'; [congruence | auto].
      * intros H c' Hin Hs'. apply H; auto.
    + rewrite andb_true_iff, IH. split.
      * intros [Hok H] c' [<- | Hin] Hs'; auto.
      * intros H. split; [apply H; auto | intros c' Hin Hs'; apply H; auto].
Qed.

(** Dropping entries that are [ok] does not change [every]. *)
Lemma every_filter_ok :
  forall (keep : Check -> bool) (cs : list Check),
    (forall c, In c cs -> keep c = false -> ok c = true) ->
    forallb ok (filter keep cs) = forallb ok cs.
Proof.
  intros keep. induction cs as [| c cs IH]; simpl; intros H; [reflexivity |].
  destruct (keep c) eqn:Hk; simpl.
  - rewrite IH; auto.
  - rewrite (H c) by auto. simpl. apply IH. auto.
Qed.

(** C8.  For a legacy environment the card's [allOk] is true exactly
    when every check that is not skipped is true.  Only the Kubernetes
    credentials check can be skipped, it is skipped exactly when no
    Kubernetes is detected, and a skipped check is [ok]: the conjunction
    over the shown checks is the conjunction over all four. *)
Theorem launch_readiness_all_ok :
  forall (this_env : option Cluster) (rs : option ResourceStats)
         (vc : option VarCounts) (env : Cluster),
    let all := all_checks this_env vc env in
    exists shown allOk,
      buildLaunchReadiness this_env rs vc env true = LegacyChecklist shown allOk /\
      shown = filter (fun c => negb (skip c)) all /\
      (allOk = true <-> forall c, In c all -> skip c = false -> ok c = true) /\
      allOk = forallb ok all /\
      (forall c, In c all -> skip c = true ->
         label c = "Kubernetes credentials"%string /\
         hasKubernetes this_env = false /\ ok c = true) /\
      allOk = truthy_obool (configured env)
              && truthy_ostr (cloudAccountId env)
              && (negb (hasKubernetes this_env) || truthy_obool (hasK8sCredentials env))
              && hasVars vc.
Proof.
  intros this_env rs vc env all.
  assert (Sk : forall c, In c all -> skip c = true ->
                 label c = "Kubernetes credentials"%string /\
                 hasKubernetes this_env = false /\ ok c = true).
  { intros c Hin Hs. subst all. unfold all_checks in Hin. simpl in Hin.
    destruct Hin as [<- | [<- | [<- | [<- | []]]]]; simpl in *; try discriminate.
    apply negb_true_iff in Hs. rewrite Hs. auto. }
  assert (Eq : forallb ok (checks this_env vc env) = forallb ok all).
  { unfold checks. apply every_filter_ok. intros c Hin Hk.
    apply negb_false_iff in Hk. apply Sk; assumption. }
  exists (checks this_env vc env), (forallb ok (checks this_env vc env)).
  split; [reflexivity |].
  split; [reflexivity |].
  split; [unfold checks; apply every_unskipped |].
  split; [exact Eq |].
  split; [exact Sk |].
  rewrite Eq. subst all. unfold all_checks. simpl.
  rewrite andb_true_r. rewrite !andb_assoc. reflexivity.
Qed.

(** The overview tab shows the checklist when the environment is
    stopped and never launched, and legacy. *)
Lemma overview_readiness_legacy :
  forall ov this_env rs vc,
    isNeverLaunched ov (env_or_empty this_env) = true ->
    isLegacy (env_or_empty this_env) = true ->
    overview_readiness ov this_env rs vc =
    Some (buildLaunchReadiness this_env rs vc (env_or_empty this_env) true).
Proof.
  intros ov this_env rs vc Hn Hl. unfold overview_readiness.
  cbn zeta. rewrite Hn, Hl. reflexivity.
Qed.

(** A blueprint environment gets no checklist. *)
Lemma blueprint_readiness_is_descriptive :
  forall this_env rs vc env,
    exists bp br pt rc vs,
      buildLaunchReadiness this_env rs vc env false = BlueprintInfo bp br pt rc vs.
Proof. intros. unfold buildLaunchReadiness. simpl. repeat eexists. Qed.

(* ------------------------------------------------------------------ *)
(** ** Header actions *)

Lemma own_In :
  forall (A : Type) (table : list (string * A)) (key : string),
    own table key = None <-> ~ In key (map fst table).
Proof.
  induction table as [| [k v] rest IH]; intros key; simpl.
  - split; [intros _ [] | reflexivity].
  - destruct (String.eqb_spec k key) as [-> | Hne].
    + split; [discriminate | intros H; exfalso; apply H; left; reflexivity].
    + rewrite IH. split.
      * intros H [E | Hin]; [exact (Hne E) | exact (H Hin)].
      * intros H Hin. apply H. right. exact Hin.
Qed.

Lemma existsb_eqb_In :
  forall (key : string) (keys : list string),
    existsb (String.eqb key) keys = true <-> In key keys.
Proof.
  intros key keys. rewrite existsb_exists. split.
  - intros [x [Hin E]]. apply String.eqb_eq in E. subst. exact Hin.
  - intros Hin. exists key. split; [exact Hin | apply String.eqb_refl].
Qed.

(** The values outside the action table are the values outside the
    twelve states of the status table, and [UNKNOWN]. *)
Lemma outside_action_table :
  forall state : string,
    own maps state = None <->
    (~ In state stateConf_keys \/ state = "UNKNOWN"%string).
Proof.
  intros state. rewrite own_In. unfold stateConf_keys, maps. simpl. split.
  - intros H. destruct (String.eqb_spec state "UNKNOWN") as [E | Hne]; [right; exact E |].
    assert (Hne' : "UNKNOWN"%string <> state) by congruence.
    left. tauto.
  - intros [H | E].
    + tauto.
    + subst state. intros Hin.
      repeat (destruct Hin as [E | Hin]; [discriminate E |]). exact Hin.
Qed.

(** A value that is neither a key of the table nor a name inherited
    from [Object.prototype] gets the actions of [STOPPED]: a primary
    Launch and a secondary Run Plan. *)
Lemma header_actions_fallback :
  forall state : string,
    own maps state = None ->
    ~ In state Object_prototype_keys ->
    header_actions state = Normal stopped_actions /\
    headerCTAs state = headerCTAs "STOPPED".
Proof.
  intros state Hown Hproto.
  assert (E : header_actions state = Normal stopped_actions).
  { unfold header_actions, get_property. rewrite Hown.
    destruct (existsb (String.eqb state) Object_prototype_keys) eqn:Hex.
    - apply existsb_eqb_In in Hex. contradiction.
    - reflexivity. }
  split; [exact E |]. unfold headerCTAs. rewrite E. reflexivity.
Qed.

(** C10, on the code.  A cluster state that is the name of a member of
    [Object.prototype] is not a key of the action table, and yet
    [maps[state]] is truthy: there is no fallback to [STOPPED], and
    [ctas.map] raises.  [constructor] is such a state. *)
Theorem header_actions_inherited_name :
  forall state : string,
    In state Object_prototype_keys ->
    own maps state = None /\
    header_actions state = Throw "ctas.map is not a function" /\
    header_actions state <> Normal stopped_actions /\
    headerCTAs state = Throw "ctas.map is not a function".
Proof.
  intros state Hin.
  assert (Hown : own maps state = None).
  { simpl in Hin.
    repeat (destruct Hin as [<- | Hin]; [reflexivity |]). contradiction. }
  assert (E : header_actions state = Throw "ctas.map is not a function").
  { unfold header_actions, get_property. rewrite Hown.
    apply existsb_eqb_In in Hin. rewrite Hin. reflexivity. }
  repeat split; [exact Hown | exact E | rewrite E; discriminate |].
  unfold headerCTAs. rewrite E. reflexivity.
Qed.

Lemma header_actions_inherited_name_witness :
  header_actions "constructor" = Throw "ctas.map is not a function" /\
  header_actions "UNKNOWN" = Normal stopped_actions.
Proof.
  split.
  - exact (proj1 (proj2 (header_actions_inherited_name "constructor"
                           (or_introl eq_refl)))).
  - reflexivity.
Defined.

(** The states in transition have an empty action set of their own. *)
Lemma header_actions_in_transition :
  forall state, In state Widget.activeStates -> header_actions state = Normal [].
Proof.
  intros state Hin. simpl in Hin.
  repeat (destruct Hin as [<- | Hin]; [reflexivity |]). contradiction.
Qed.

(* ------------------------------------------------------------------ *)
(** ** The context resolver *)

Section ContextFacts.

Import Context.
Open Scope string_scope.

Lemma regex_match_unfold :
  forall s,
    regex_match s =
    match match_here s with
    | Some m => Some m
    | None => match s with
              | EmptyString => None
              | String _ rest => regex_match rest
              end
    end.
Proof. destruct s; reflexivity. Qed.

Lemma led_by_mark_app :
  forall h q, led_by_mark h = true -> led_by_mark q = true -> led_by_mark (h ++ q) = true.
Proof. intros [| c h] q Hh Hq; simpl in *; assumption. Qed.

Lemma span_segment_app :
  forall u t,
    led_by_mark t = true ->
    span_segment (u ++ t) = (fst (span_segment u), snd (span_segment u) ++ t).
Proof.
  induction u as [| c u IH]; intros t Ht.
  - destruct t as [| c t]; [reflexivity |].
    simpl in *. unfold segment_char.
    apply orb_true_iff in Ht. destruct Ht as [E | E]; rewrite E;
      rewrite ?orb_true_r; reflexivity.
  - simpl. destruct (segment_char c); [| reflexivity].
    rewrite (IH t Ht). destruct (span_segment u) as [seg tail]. reflexivity.
Qed.

Lemma strip_prefix_app_some :
  forall pre u r t,
    strip_prefix pre u = Some r -> strip_prefix pre (u ++ t) = Some (r ++ t).
Proof.
  induction pre as [| a pre IH]; intros u r t H.
  - simpl in H. injection H as <-. reflexivity.
  - destruct u as [| b u]; simpl in *; [discriminate |].
    destruct (Ascii.eqb a b); [apply IH; exact H | discriminate].
Qed.

Lemma strip_prefix_app_none :
  forall pre u t,
    no_mark pre = true -> led_by_mark t = true ->
    strip_prefix pre u = None -> strip_prefix pre (u ++ t) = None.
Proof.
  induction pre as [| a pre IH]; intros u t Hpre Ht H.
  - discriminate.
  - simpl in Hpre. apply andb_true_iff in Hpre. destruct Hpre as [Ha Hpre].
    destruct u as [| b u]; simpl in *.
    + destruct t as [| c t]; [reflexivity |]. simpl in Ht.
      destruct (Ascii.eqb_spec a c) as [-> | _]; [| reflexivity].
      rewrite Ht in Ha. discriminate.
    + destruct (Ascii.eqb a b); [apply IH; assumption | reflexivity].
Qed.

(** A match does not reach into what follows a mark. *)
Lemma match_here_app :
  forall u t, led_by_mark t = true -> match_here (u ++ t) = match_here u.
Proof.
  intros u t Ht. unfold match_here.
  destruct (strip_prefix "/projects/" u) as [s1 |] eqn:E1.
  - rewrite (strip_prefix_app_some _ _ _ t E1). rewrite (span_segment_app s1 t Ht).
    destruct (span_segment s1) as [g1 s2]. cbn [fst snd].
    destruct (truthy_str g1); [| reflexivity].
    destruct (strip_prefix "/environments/" s2) as [s3 |] eqn:E2.
    + rewrite (strip_prefix_app_some _ _ _ t E2). rewrite (span_segment_app s3 t Ht).
      destruct (span_segment s3) as [g2 s4]. reflexivity.
    + rewrite (strip_prefix_app_none "/environments/" s2 t eq_refl Ht E2). reflexivity.
  - rewrite (strip_prefix_app_none "/projects/" u t eq_refl Ht E1). reflexivity.
Qed.

(** The pattern found in the path is what the search over
    [pathname + hash + search] finds. *)
Lemma regex_match_app :
  forall u t m,
    led_by_mark t = true -> regex_match u = Some m -> regex_match (u ++ t) = Some m.
Proof.
  induction u as [| c u IH]; intros t m Ht H.
  - discriminate.
  - rewrite regex_match_unfold in H.
    rewrite regex_match_unfold, (match_here_app (String c u) t Ht).
    destruct (match_here (String c u)); [exact H |].
    simpl. apply IH; assumption.
Qed.

End ContextFacts.

(** C9, as the code has it.  A [clusterId] parameter that is not
    empty gives its value as the id, whatever the path and the hash are;
    failing that, a [cluster-id] parameter that is not empty does;
    failing both, the pattern found in the path gives the two names
    percent-decoded, when both decode.  The two scenarios of the
    specification come out as stated. *)
Theorem url_context_first_match_wins :
  forall (get : string -> string -> option string)
         (decode : string -> Completion string) (loc : Context.Location),
    (forall v, get (Context.search loc) "clusterId"%string = Some v -> v <> EmptyString ->
       Context.tryUrlContext_with get decode loc =
       {| Context.ctx_clusterId := Some v; Context.ctx_stackName := None;
          Context.ctx_clusterName := None |}) /\
    (forall v, Context.truthy_param get (Context.search loc) "clusterId" = None ->
       get (Context.search loc) "cluster-id"%string = Some v -> v <> EmptyString ->
       Context.tryUrlContext_with get decode loc =
       {| Context.ctx_clusterId := Some v; Context.ctx_stackName := None;
          Context.ctx_clusterName := None |}) /\
    (forall st cl a b,
       Context.truthy_param get (Context.search loc) "clusterId" = None ->
       Context.truthy_param get (Context.search loc) "cluster-id" = None ->
       Context.led_by_mark (Context.hash loc) = true ->
       Context.led_by_mark (Context.search loc) = true ->
       Context.regex_match (Context.pathname loc) = Some (st, cl) ->
       decode st = Normal a -> decode cl = Normal b ->
       Context.tryUrlContext_with get decode loc =
       {| Context.ctx_clusterId := None; Context.ctx_stackName := Some a;
          Context.ctx_clusterName := Some b |}) /\
    Context.tryUrlContext
      {| Context.pathname := "/somewhere"; Context.hash := "";
         Context.search := "?clusterId=abc123" |} =
    {| Context.ctx_clusterId := Some "abc123"%string; Context.ctx_stackName := None;
       Context.ctx_clusterName := None |} /\
    Context.tryUrlContext
      {| Context.pathname := "/projects/Acme/environments/prod-1"; Context.hash := "";
         Context.search := "" |} =
    {| Context.ctx_clusterId := None; Context.ctx_stackName := Some "Acme"%string;
       Context.ctx_clusterName := Some "prod-1"%string |}.
Proof.
  intros get decode loc.
  assert (T : forall name v, get (Context.search loc) name = Some v -> v <> EmptyString ->
                Context.truthy_param get (Context.search loc) name = Some v).
  { intros name v H Hv. unfold Context.truthy_param. rewrite H.
    destruct v; [contradiction | reflexivity]. }
  split; [| split; [| split; [| split]]].
  - intros v H Hv. unfold Context.tryUrlContext_with. rewrite (T _ _ H Hv). reflexivity.
  - intros v H0 H Hv. unfold Context.tryUrlContext_with. rewrite H0, (T _ _ H Hv).
    reflexivity.
  - intros st cl a b H0 H1 Hh Hq Hm Ha Hb. unfold Context.tryUrlContext_with.
    rewrite H0, H1.
    rewrite (regex_match_app (Context.pathname loc) _ _ (led_by_mark_app _ _ Hh Hq) Hm).
    unfold Context.assign_names. simpl. rewrite Ha, Hb. reflexivity.
  - reflexivity.
  - reflexivity.
Qed.

Lemma url_context_first_match_wins_witness :
  Context.tryUrlContext
    {| Context.pathname := "/projects/Acme/environments/prod-1"; Context.hash := "#top";
       Context.search := "?clusterId=abc123" |} =
  {| Context.ctx_clusterId := Some "abc123"%string; Context.ctx_stackName := None;
     Context.ctx_clusterName := None |} /\
  Context.tryUrlContext
    {| Context.pathname := "/ui/projects/Ac%20me/environments/prod-1/releases";
       Context.hash := "#top"; Context.search := "?tab=x" |} =
  {| Context.ctx_clusterId := None; Context.ctx_stackName := Some "Ac me"%string;
     Context.ctx_clusterName := Some "prod-1"%string |}.
Proof.
  split.
  - exact (proj1 (url_context_first_match_wins
                    Context.URLSearchParams_get Context.decodeURIComponent
                    {| Context.pathname := "/projects/Acme/environments/prod-1";
                       Context.hash := "#top";
                       Context.search := "?clusterId=abc123" |})
                 "abc123"%string eq_refl
                 ltac:(discriminate)).
  - exact (proj1 (proj2 (proj2 (url_context_first_match_wins
                    Context.URLSearchParams_get Context.decodeURIComponent
                    {| Context.pathname := "/ui/projects/Ac%20me/environments/prod-1/releases";
                       Context.hash := "#top"; Context.search := "?tab=x" |})))
                 "Ac%20me"%string "prod-1"%string "Ac me"%string "prod-1"%string
                 eq_refl eq_refl eq_refl eq_refl eq_refl eq_refl eq_refl).
Defined.

(** C9 as stated fails at two locations.  With [?clusterId=] (a
    parameter that is present and empty) the resolver goes on to the
    path pattern instead of returning the empty id; and a path segment
    with a malformed escape gives no context at all, and one in the
    second segment only leaves the stack name without a cluster name. *)
Lemma url_context_counterexample :
  Context.URLSearchParams_get "?clusterId=" "clusterId" = Some EmptyString /\
  Context.tryUrlContext
    {| Context.pathname := "/projects/Acme/environments/prod-1"; Context.hash := "";
       Context.search := "?clusterId=" |} =
  {| Context.ctx_clusterId := None; Context.ctx_stackName := Some "Acme"%string;
     Context.ctx_clusterName := Some "prod-1"%string |} /\
  Context.regex_match "/projects/%zz/environments/b" = Some ("%zz"%string, "b"%string) /\
  Context.tryUrlContext
    {| Context.pathname := "/projects/%zz/environments/b"; Context.hash := "";
       Context.search := "" |} = Context.no_context /\
  Context.tryUrlContext
    {| Context.pathname := "/projects/Acme/environments/%zz"; Context.hash := "";
       Context.search := "" |} =
  {| Context.ctx_clusterId := None; Context.ctx_stackName := Some "Acme"%string;
     Context.ctx_clusterName := None |}.
Proof. repeat split. Qed.

(* ------------------------------------------------------------------ *)
(* ------------------------------------------------------------------ *)
(** ** The widget: what each method does *)

Section MethodFacts.

Import Widget.
Open Scope string_scope.
Open Scope list_scope.

Lemma api_payload :
  forall (B : Type) (N : Nullable B) (o : FetchOutcome B), api o = Normal (payload o).
Proof. intros B N o. destruct o as [m | [|] [m | data]]; reflexivity. Qed.

Lemma since_app :
  forall (s s' : Session) (new : list Effect),
    log s' = log s ++ new -> since s s' = new.
Proof.
  intros s s' new H. unfold since. rewrite H.
  rewrite skipn_app, skipn_all, Nat.sub_diag. reflexivity.
Qed.

Lemma fetches_app :
  forall l1 l2, fetches (l1 ++ l2) = fetches l1 ++ fetches l2.
Proof. intros l1 l2. unfold fetches. apply flat_map_app. Qed.

Lemma fetches_map_Fetch : forall reqs, fetches (map Fetch reqs) = reqs.
Proof.
  induction reqs as [| r reqs IH]; [reflexivity |].
  change (fetches (map Fetch (r :: reqs))) with (r :: fetches (map Fetch reqs)).
  rewrite IH. reflexivity.
Qed.

(** The condition of [_maybeStartRefresh] is the polling-active flag. *)
Lemma maybeStartRefresh_pollingActive :
  forall s,
    maybeStartRefresh s =
    if pollingActive (this s) then
      let s1 := match refreshTimer (this s) with
                | Some id => clearInterval id s
                | None => s
                end in
      update (set_refreshTimer (Some (nextId s1))) (setInterval 15000%Z s1)
    else s.
Proof. reflexivity. Qed.

(** The header reads the cluster and nothing else, and without a
    cluster it shows the state UNKNOWN, whose actions are the fallback. *)
Lemma renderHeader_env :
  forall w w', env w = env w' -> renderHeader w = renderHeader w'.
Proof. intros w w' H. unfold renderHeader, header_state. rewrite H. reflexivity. Qed.

Lemma renderHeader_no_env :
  forall w, env w = None -> renderHeader w = Normal tt.
Proof. intros w H. unfold renderHeader, header_state. rewrite H. reflexivity. Qed.

(** [_renderAll()] raises exactly when the header does. *)
Lemma renderAll_eq :
  forall s,
    renderAll s = match renderHeader (this s) with
                  | Normal _ => Normal (written s)
                  | Throw message => Throw message
                  end.
Proof.
  intros s. unfold renderAll, written.
  destruct (error (this s)) as [m |]; [destruct (env (this s)) eqn:E |].
  - destruct (renderHeader (this s)) as [[] | r]; reflexivity.
  - rewrite (renderHeader_no_env _ E).
    destruct (truthy_str m); reflexivity.
  - destruct (renderHeader (this s)) as [[] | r]; reflexivity.
Qed.

(** The [catch] block: when the header raises again, nothing is
    written. *)
Lemma loadData_catch_eq :
  forall message s,
    loadData_catch message s =
    match renderHeader (this s) with
    | Normal _ => written (update (set_error message) s)
    | Throw raised => emit (Raised raised) (update (set_error message) s)
    end.
Proof.
  intros message s. unfold loadData_catch. cbn zeta. rewrite renderAll_eq.
  rewrite (renderHeader_env (this (update (set_error message) s)) (this s) eq_refl).
  destruct (renderHeader (this s)) as [[] | r]; reflexivity.
Qed.

(** The critical phase: the gateway does not raise, so the assignments
    are always made; then the view is written, the cost flag requested
    and the refresh considered, or, when the header raises, the error is
    set and the method ends. *)
Lemma loadData_resumed_eq :
  forall o1 o2 o3 s,
    loadData_resumed o1 o2 o3 s =
    let s1 := update (set_critical (payload o1) (payload o2) (payload o3)) s in
    match renderHeader (this s1) with
    | Normal _ => maybeStartRefresh (loadSecondary (written s1))
    | Throw message => emit (Raised message) (update (set_error message) s1)
    end.
Proof.
  intros o1 o2 o3 s. unfold loadData_resumed.
  rewrite !api_payload. cbn [bind]. cbn zeta.
  rewrite renderAll_eq.
  destruct (renderHeader _) as [[] | r] eqn:R; [reflexivity |].
  rewrite loadData_catch_eq, R. reflexivity.
Qed.

(** A tick's response: nothing when absent; otherwise the overview is
    replaced, and then, unless the header raises, the interval is
    cleared when the flag is off. *)
Lemma refreshOverview_resumed_eq :
  forall o s,
    settled s (refreshOverview_resumed o s) =
    match payload o with
    | None => s
    | Some fresh =>
        let s0 := update (set_fresh fresh) s in
        match renderHeader (this s0) with
        | Throw message => emit (Raised message) s0
        | Normal _ =>
            let s1 := emit RenderHeaderBannersCards s0 in
            if pollingActive (this s1) then s1
            else update (set_refreshTimer None)
                   match refreshTimer (this s1) with
                   | Some id => clearInterval id s1
                   | None => s1
                   end
        end
    end.
Proof.
  intros o s. unfold refreshOverview_resumed. rewrite api_payload. cbn [bind].
  destruct (payload o) as [fresh |]; [| reflexivity].
  cbn zeta. destruct (renderHeader _) as [[] | r]; [| reflexivity].
  unfold pollingActive. cbn [this emit update overview set_fresh].
  rewrite <- negb_orb.
  destruct (has_inProgress fresh || _); reflexivity.
Qed.

Lemma filter_other_id :
  forall (id : nat) (ids : list nat),
    (forall i, In i ids -> i = id) ->
    filter (fun i => negb (Nat.eqb i id)) ids = [].
Proof.
  intros id. induction ids as [| i ids IH]; intros H; [reflexivity |].
  simpl. rewrite (H i (or_introl eq_refl)), Nat.eqb_refl. simpl.
  apply IH. intros j Hj. apply H. right. exact Hj.
Qed.

(** What [_renderAll()] writes touches the DOM only. *)
Lemma written_this : forall s, this (written s) = this s.
Proof. intros s. unfold written. split_cases; reflexivity. Qed.

Lemma written_intervals : forall s, intervals (written s) = intervals s.
Proof. intros s. unfold written. split_cases; reflexivity. Qed.

Lemma written_nextId : forall s, nextId (written s) = nextId s.
Proof. intros s. unfold written. split_cases; reflexivity. Qed.

Lemma written_suspended : forall s, suspended (written s) = suspended s.
Proof. intros s. unfold written. split_cases; reflexivity. Qed.

Lemma written_log :
  forall s, exists e, log (written s) = log s ++ [e] /\
                      (e = RenderAll (activeTab (this s)) \/
                       exists message, e = BootError message).
Proof.
  intros s. unfold written. split_cases; eexists; (split; [reflexivity | eauto]).
Qed.

Lemma run_life :
  forall evs s, run s evs = life s (map Within evs).
Proof.
  induction evs as [| ev evs IH]; intros s; [reflexivity |].
  cbn [run life map advance]. destruct (step s ev); [apply IH | reflexivity].
Qed.

End MethodFacts.

(** Unfolding the methods down to the assignments and effects. *)
Ltac methods :=
  rewrite ?loadData_resumed_eq, ?refreshOverview_resumed_eq;
  unfold Widget.switchTab, Widget.hardRefresh, Widget.refreshOverview,
    Widget.disconnectedCallback, Widget.projectChanged, Widget.pickerGo,
    Widget.loadData_resolved, Widget.loadSecondary_resumed,
    Widget.loadReleases_resumed, Widget.loadResources_resumed,
    Widget.loadSchedule_resumed, Widget.loadPickerProjects_resumed,
    Widget.loadPickerEnvironments_resumed, Widget.connectedCallback, Widget.showPicker,
    Widget.loadPickerProjects, Widget.loadPickerEnvironments;
  rewrite ?loadData_catch_eq, ?api_payload;
  unfold Widget.render_if_active, Widget.renderTabContent, Widget.loadTabData,
    Widget.loadData, Widget.loadCritical, Widget.loadSecondary;
  rewrite ?maybeStartRefresh_pollingActive;
  cbn [bind Widget.settled]; cbn zeta.

(** Reading a field or a part of the session through the assignments. *)
Ltac projections :=
  cbn [Widget.this Widget.suspended Widget.intervals Widget.nextId Widget.navShown
       Widget.pickerShown Widget.log
       Widget.update Widget.emit Widget.suspend Widget.show_nav Widget.show_picker
       Widget.hide_picker Widget.clearInterval Widget.setInterval Widget.drop_suspended
       Widget.clusterId Widget.stackName Widget.clusterName Widget.overview Widget.env
       Widget.resourceStats Widget.varCounts Widget.deployments Widget.resources
       Widget.ingresses Widget.schedule Widget.maintenanceWin Widget.costEnabled
       Widget.activeTab Widget.isLoading Widget.error Widget.refreshTimer
       Widget.set_identity Widget.set_clusterId Widget.set_critical Widget.set_error
       Widget.set_costEnabled Widget.set_deployments Widget.set_resources
       Widget.set_schedule Widget.set_activeTab Widget.set_fresh Widget.set_refreshTimer
       Widget.clear_data Js.truthy_ostr].

Ltac fields :=
  projections;
  repeat (progress (rewrite ?written_this, ?written_intervals, ?written_nextId,
                      ?written_suspended; projections)).

(** Methods unfolded and their conditionals split, until none is left. *)
Ltac explode :=
  repeat (progress (methods; fields;
                    try match goal with
                        | |- context [match ?x with _ => _ end] => destruct x eqn:?
                        end)).

(** The cases of one event, each with the session it leads to written
    out. *)
Ltac step_cases H :=
  match type of H with
  | Widget.step ?s ?ev = Some _ =>
      destruct ev as [?tab | | ?id | | ?n ?r | ?stack | ?value]; cbn [Widget.step] in H;
      [ destruct (Widget.navShown s && _) eqn:?; [| discriminate H]
      | destruct (Widget.navShown s) eqn:?; [| discriminate H]
      | destruct (existsb _ _) eqn:?; [| discriminate H]
      |
      | destruct (nth_error (Widget.suspended s) _) as [?k |] eqn:?; [| discriminate H];
        match goal with
        | k : Widget.Suspended, r : Widget.Reply |- _ =>
            destruct k, r; cbn [Widget.resume] in H; try discriminate H
        end
      | destruct (Widget.pickerShown s) eqn:?; [| discriminate H]
      | destruct (Widget.pickerShown s) eqn:?; [| discriminate H] ];
      injection H as <-
  end.

(** The cases of one moment of the life of the element. *)
Ltac advance_cases H :=
  match type of H with
  | Widget.advance _ ?m = Some _ =>
      destruct m as [?ev | ?attrs ?loc]; cbn [Widget.advance] in H;
      [step_cases H | injection H as <-]
  end.

(* ------------------------------------------------------------------ *)
(** ** One interval at a time *)

Section TimerFacts.

Import Widget.
Open Scope string_scope.
Open Scope list_scope.

(** No moment of the element's life leaves two intervals running, or
    one the widget does not hold. *)
Lemma advance_held :
  forall s m s', advance s m = Some s' -> held s -> held s'.
Proof.
  intros s m s' H I. unfold held in *.
  advance_cases H; explode; auto.
  all: destruct I as [E | [i [E T]]]; rewrite ?E; cbn [filter app]; eauto; try congruence.
  all: try (replace n with i by congruence); try (replace n0 with i by congruence);
    rewrite ?Nat.eqb_refl; cbn [negb app]; eauto.
Qed.

Lemma life_held :
  forall ms s s', life s ms = Some s' -> held s -> held s'.
Proof.
  induction ms as [| m ms IH]; intros s s' Hlife I; cbn [life] in Hlife.
  - injection Hlife as <-. exact I.
  - destruct (advance s m) as [s1 |] eqn:Ha; [| discriminate].
    apply (IH s1 s' Hlife). apply (advance_held s m s1 Ha I).
Qed.

Lemma boot_held : forall attrs loc, held (boot attrs loc).
Proof.
  intros attrs loc. left. unfold boot. explode; reflexivity.
Qed.

(** Clearing the interval the widget holds leaves none running. *)
Lemma stopped_intervals :
  forall s,
    held s ->
    intervals match refreshTimer (this s) with
              | Some id => clearInterval id s
              | None => s
              end = [].
Proof.
  intros s [E | [i [E T]]].
  - destruct (refreshTimer (this s)); cbn [clearInterval intervals]; rewrite E; reflexivity.
  - rewrite T. cbn [clearInterval intervals]. rewrite E. cbn [filter].
    rewrite Nat.eqb_refl. reflexivity.
Qed.

End TimerFacts.

(* ------------------------------------------------------------------ *)
(** ** The refresh scheduler *)

Section SchedulerFacts.

Import Widget.
Open Scope string_scope.
Open Scope list_scope.

Lemma stop_keeps_pollingActive :
  forall s,
    pollingActive
      (this (update (set_refreshTimer None)
               match refreshTimer (this s) with
               | Some id => clearInterval id s
               | None => s
               end)) = pollingActive (this s).
Proof. intros s. destruct (refreshTimer (this s)); reflexivity. Qed.

Lemma maybeStartRefresh_started :
  forall s,
    pollingActive (this s) = true ->
    log (maybeStartRefresh s) =
      log s ++ match refreshTimer (this s) with
               | Some id => [ClearInterval id]
               | None => []
               end ++ [SetInterval (nextId s) 15000%Z] /\
    refreshTimer (this (maybeStartRefresh s)) = Some (nextId s) /\
    In (nextId s) (intervals (maybeStartRefresh s)) /\
    overview (this (maybeStartRefresh s)) = overview (this s).
Proof.
  intros s P. rewrite maybeStartRefresh_pollingActive, P. cbn zeta.
  destruct (refreshTimer (this s)) as [id |]; fields; repeat split;
    rewrite <- ?app_assoc; try reflexivity;
    apply in_or_app; right; left; reflexivity.
Qed.

Lemma start_keeps_pollingActive :
  forall s, pollingActive (this (maybeStartRefresh s)) = pollingActive (this s).
Proof.
  intros s. rewrite maybeStartRefresh_pollingActive.
  destruct (pollingActive (this s)) eqn:P; [| exact P].
  cbn zeta. destruct (refreshTimer (this s)); exact P.
Qed.

(** C3, as the code has it.  The polling-active flag is: the overview
    has an in-progress deployment, or the cluster state is LAUNCHING,
    DESTROYING, SCALING_UP or SCALING_DOWN.  When the critical phase
    runs to its end (its view is written, so the cost flag is
    requested), the 15-second interval is started if the flag is on, the
    interval held before being cleared first; if the flag is off no
    interval is started and one that is running is left running.  When
    a tick's overview arrives and the header, banners and cards are
    written, the flag is computed on the updated fields: if it is off,
    no interval runs any more and [refreshTimer] is null; if it is on,
    the interval stays.  A tick whose request returns nothing evaluates
    nothing and stops nothing.  The tick part holds in every session the
    element can reach in its life, insertions included. *)
Theorem refresh_timer_follows_pollingActive :
  (forall o1 o2 o3 s,
     let s' := loadData_resumed o1 o2 o3 s in
     overview (this s') = payload o1 /\
     (In (Fetch CostExplorerEnabled) (since s s') ->
        (pollingActive (this s') = true ->
           refreshTimer (this s') = Some (nextId s) /\
           In (nextId s) (intervals s') /\
           In (SetInterval (nextId s) 15000) (since s s') /\
           forall id, refreshTimer (this s) = Some id ->
                      In (ClearInterval id) (since s s')) /\
        (pollingActive (this s') = false ->
           refreshTimer (this s') = refreshTimer (this s) /\
           intervals s' = intervals s /\
           forall id ms, ~ In (SetInterval id ms) (since s s')))) /\
  (forall attrs loc ms s o,
     life (boot attrs loc) ms = Some s ->
     let s' := settled s (refreshOverview_resumed o s) in
     match payload o with
     | Some fresh =>
         overview (this s') = Some fresh /\
         (In RenderHeaderBannersCards (since s s') ->
            (pollingActive (this s') = false ->
               intervals s' = [] /\ refreshTimer (this s') = None) /\
            (pollingActive (this s') = true ->
               intervals s' = intervals s /\
               refreshTimer (this s') = refreshTimer (this s)))
     | None => s' = s
     end).
Proof.
  split.
  - intros o1 o2 o3 s s'. subst s'. rewrite loadData_resumed_eq. cbn zeta.
    set (s1 := update (set_critical (payload o1) (payload o2) (payload o3)) s).
    destruct (renderHeader (this s1)) as [[] | message].
    + set (s0 := loadSecondary (written s1)).
      destruct (written_log s1) as [e [Hlog He]].
      assert (L0 : log s0 = log s ++ [e; Fetch CostExplorerEnabled]).
      { subst s0. cbn [loadSecondary suspend emit log]. rewrite Hlog.
        subst s1. cbn [update log]. rewrite <- app_assoc. reflexivity. }
      assert (T0 : refreshTimer (this s0) = refreshTimer (this s))
        by (subst s0 s1; unfold loadSecondary; fields; reflexivity).
      assert (I0 : intervals s0 = intervals s)
        by (subst s0 s1; unfold loadSecondary; fields; reflexivity).
      assert (N0 : nextId s0 = nextId s)
        by (subst s0 s1; unfold loadSecondary; fields; reflexivity).
      assert (O0 : overview (this s0) = payload o1)
        by (subst s0 s1; unfold loadSecondary; fields; reflexivity).
      rewrite start_keeps_pollingActive.
      destruct (pollingActive (this s0)) eqn:P.
      * destruct (maybeStartRefresh_started s0 P) as [Hl [Ht [Hi Ho]]].
        split; [rewrite Ho; exact O0 |]. intros _. split; [intros _ | discriminate].
        rewrite Ht, N0. split; [reflexivity |]. split; [rewrite <- N0; exact Hi |].
        assert (S : since s (maybeStartRefresh s0) =
                    [e; Fetch CostExplorerEnabled]
                    ++ match refreshTimer (this s0) with
                       | Some id => [ClearInterval id]
                       | None => []
                       end ++ [SetInterval (nextId s) 15000%Z]).
        { apply since_app. rewrite Hl, L0, N0, <- !app_assoc. reflexivity. }
        rewrite S. split.
        -- apply in_or_app. right. apply in_or_app. right. left. reflexivity.
        -- intros id Hid. rewrite T0, Hid. simpl. tauto.
      * rewrite maybeStartRefresh_pollingActive, P.
        split; [exact O0 |]. intros _. split; [discriminate | intros _].
        split; [exact T0 | split; [exact I0 |]].
        rewrite (since_app s s0 _ L0). intros id ms [E | [E | []]].
        -- destruct He as [He | [m He]]; rewrite He in E; discriminate E.
        -- discriminate E.
    + split; [reflexivity |]. intros Hin. exfalso.
      rewrite (since_app s _ [Raised message]) in Hin by reflexivity.
      destruct Hin as [E | []]. discriminate E.
  - intros attrs loc ms s o Hlife s'. subst s'.
    assert (I : held s) by (apply (life_held ms _ _ Hlife); apply boot_held).
    rewrite refreshOverview_resumed_eq.
    destruct (payload o) as [fresh |]; [| reflexivity].
    cbn zeta. set (s0 := update (set_fresh fresh) s).
    assert (I0 : held (emit RenderHeaderBannersCards s0)) by exact I.
    destruct (renderHeader (this s0)) as [[] | message].
    + destruct (pollingActive (this (emit RenderHeaderBannersCards s0))) eqn:P.
      * split; [reflexivity |]. intros _. split; [rewrite P; discriminate |].
        intros _. split; reflexivity.
      * split; [destruct (refreshTimer _); reflexivity |]. intros _.
        split; [intros _ | rewrite stop_keeps_pollingActive, P; discriminate].
        split; [| reflexivity].
        cbn [update intervals]. apply stopped_intervals. exact I0.
    + split; [reflexivity |]. intros Hin. exfalso.
      rewrite (since_app s _ [Raised message]) in Hin by reflexivity.
      destruct Hin as [E | []]. discriminate E.
Qed.

Lemma refresh_timer_follows_pollingActive_witness :
  refreshTimer
    (this (loadData_resumed
             (Sample.received (Some (Sample.overview_in "LAUNCHING")))
             (NetworkError "Failed to fetch") (Response false (Body None))
             (boot Sample.by_id Sample.here))) = Some 1 /\
  intervals
    (settled (Sample.after Sample.reloaded_running)
       (refreshOverview_resumed
          (Sample.received (Some (Sample.overview_in "RUNNING")))
          (Sample.after Sample.reloaded_running))) = [].
Proof.
  destruct refresh_timer_follows_pollingActive as [Hstart Htick].
  split.
  - specialize (Hstart (Sample.received (Some (Sample.overview_in "LAUNCHING")))
                       (NetworkError "Failed to fetch") (Response false (Body None))
                       (boot Sample.by_id Sample.here)).
    vm_compute in Hstart. vm_compute.
    exact (proj1 (proj1 (proj2 Hstart (or_intror (or_introl eq_refl))) eq_refl)).
  - assert (Hlife : life (boot Sample.by_id Sample.here)
                         (map Within Sample.reloaded_running)
                    = Some (Sample.after Sample.reloaded_running))
      by (vm_compute; reflexivity).
    specialize (Htick Sample.by_id Sample.here (map Within Sample.reloaded_running)
                      (Sample.after Sample.reloaded_running)
                      (Sample.received (Some (Sample.overview_in "RUNNING"))) Hlife).
    vm_compute in Htick. vm_compute.
    exact (proj1 (proj1 (proj2 Htick (or_introl eq_refl)) eq_refl)).
Defined.

(** C3 as stated fails.  Polling starts on a launching environment;
    Refresh is clicked and the reload finds the environment running:
    the flag is off and the interval started before still runs.  The
    next tick's request fails, and after that tick the flag is still
    off and the interval still runs. *)
Lemma refresh_timer_outlives_the_flag :
  exists before s,
    run (boot Sample.by_id Sample.here) Sample.reloaded_running = Some before /\
    pollingActive (this before) = false /\
    intervals before = [1] /\
    run before [Tick 1; Settle 2 (RefreshReply (NetworkError "Failed to fetch"))]
      = Some s /\
    pollingActive (this s) = false /\
    intervals s = [1] /\
    refreshTimer (this s) = Some 1.
Proof.
  eexists. eexists.
  split; [vm_compute; reflexivity |].
  split; [reflexivity |]. split; [reflexivity |].
  split; [vm_compute; reflexivity |].
  repeat split.
Qed.

End SchedulerFacts.

(* ------------------------------------------------------------------ *)
(** ** The staged loader *)

Section LoaderFacts.

Import Widget.
Open Scope string_scope.
Open Scope list_scope.

Lemma maybeStartRefresh_effect :
  forall s, exists new, log (maybeStartRefresh s) = log s ++ new /\ fetches new = [].
Proof.
  intros s. destruct (pollingActive (this s)) eqn:P.
  - destruct (maybeStartRefresh_started s P) as [Hl _]. eexists. split; [exact Hl |].
    destruct (refreshTimer (this s)); reflexivity.
  - rewrite maybeStartRefresh_pollingActive, P. exists []. split; [| reflexivity].
    rewrite app_nil_r. reflexivity.
Qed.

Lemma maybeStartRefresh_data :
  forall s, set_refreshTimer None (this (maybeStartRefresh s)) = set_refreshTimer None (this s).
Proof.
  intros s. rewrite maybeStartRefresh_pollingActive.
  destruct (pollingActive (this s)); [| reflexivity].
  cbn zeta. destruct (refreshTimer (this s)); reflexivity.
Qed.

(** The fields after the critical phase: the four assignments, and the
    error when the header raised; the refresh timer aside. *)
Lemma loadData_resumed_data :
  forall o1 o2 o3 s,
    let w := set_critical (payload o1) (payload o2) (payload o3) (this s) in
    set_refreshTimer None (this (loadData_resumed o1 o2 o3 s)) =
    set_refreshTimer None match renderHeader w with
                          | Normal _ => w
                          | Throw message => set_error message w
                          end.
Proof.
  intros o1 o2 o3 s w. subst w. rewrite loadData_resumed_eq. cbn zeta.
  cbn [update this].
  destruct (renderHeader _) as [[] | message]; [| reflexivity].
  rewrite maybeStartRefresh_data. unfold loadSecondary. fields. reflexivity.
Qed.

(** What the critical phase sends once its responses are in: the cost
    flag and nothing else when the view is written, nothing when the
    header raised. *)
Lemma loadData_resumed_requests :
  forall o1 o2 o3 s,
    fetches (since s (loadData_resumed o1 o2 o3 s)) =
    match renderHeader (this (loadData_resumed o1 o2 o3 s)) with
    | Normal _ => [CostExplorerEnabled]
    | Throw _ => []
    end.
Proof.
  intros o1 o2 o3 s.
  assert (E : renderHeader (this (loadData_resumed o1 o2 o3 s)) =
              renderHeader (set_critical (payload o1) (payload o2) (payload o3) (this s))).
  { apply renderHeader_env.
    change (env (this (loadData_resumed o1 o2 o3 s)))
      with (env (set_refreshTimer None (this (loadData_resumed o1 o2 o3 s)))).
    rewrite loadData_resumed_data. cbn zeta.
    destruct (renderHeader _); reflexivity. }
  rewrite E. clear E. rewrite loadData_resumed_eq. cbn zeta. cbn [update this].
  destruct (renderHeader (set_critical (payload o1) (payload o2) (payload o3) (this s)))
    as [[] | message].
  - set (s0 := update (set_critical (payload o1) (payload o2) (payload o3)) s).
    destruct (written_log s0) as [e [Hl He]].
    destruct (maybeStartRefresh_effect (loadSecondary (written s0))) as [new [Hn Hf]].
    rewrite (since_app s _ ([e] ++ [Fetch CostExplorerEnabled] ++ new)).
    + rewrite !fetches_app, Hf.
      destruct He as [He | [m He]]; rewrite He; reflexivity.
    + rewrite Hn. cbn [loadSecondary suspend emit log]. rewrite Hl.
      subst s0. cbn [update log]. rewrite <- !app_assoc. reflexivity.
  - rewrite (since_app s _ [Raised message]) by reflexivity. reflexivity.
Qed.

Lemma loadData_resumed_lazy_caches :
  forall o1 o2 o3 s,
    let s' := loadData_resumed o1 o2 o3 s in
    activeTab (this s') = activeTab (this s) /\
    deployments (this s') = deployments (this s) /\
    resources (this s') = resources (this s) /\
    ingresses (this s') = ingresses (this s) /\
    schedule (this s') = schedule (this s) /\
    maintenanceWin (this s') = maintenanceWin (this s).
Proof.
  intros o1 o2 o3 s s'. subst s'.
  pose proof (loadData_resumed_data o1 o2 o3 s) as D. cbn zeta in D.
  repeat split.
  - change (activeTab (this (loadData_resumed o1 o2 o3 s)))
      with (activeTab (set_refreshTimer None (this (loadData_resumed o1 o2 o3 s)))).
    rewrite D. destruct (renderHeader _); reflexivity.
  - change (deployments (this (loadData_resumed o1 o2 o3 s)))
      with (deployments (set_refreshTimer None (this (loadData_resumed o1 o2 o3 s)))).
    rewrite D. destruct (renderHeader _); reflexivity.
  - change (resources (this (loadData_resumed o1 o2 o3 s)))
      with (resources (set_refreshTimer None (this (loadData_resumed o1 o2 o3 s)))).
    rewrite D. destruct (renderHeader _); reflexivity.
  - change (ingresses (this (loadData_resumed o1 o2 o3 s)))
      with (ingresses (set_refreshTimer None (this (loadData_resumed o1 o2 o3 s)))).
    rewrite D. destruct (renderHeader _); reflexivity.
  - change (schedule (this (loadData_resumed o1 o2 o3 s)))
      with (schedule (set_refreshTimer None (this (loadData_resumed o1 o2 o3 s)))).
    rewrite D. destruct (renderHeader _); reflexivity.
  - change (maintenanceWin (this (loadData_resumed o1 o2 o3 s)))
      with (maintenanceWin (set_refreshTimer None (this (loadData_resumed o1 o2 o3 s)))).
    rewrite D. destruct (renderHeader _); reflexivity.
Qed.

(** [_hardRefresh] clears, shows the overlay, and sends the identity or
    the critical requests. *)
Lemma hardRefresh_effects :
  forall s,
    this (hardRefresh s) = clear_data (this s) /\
    log (hardRefresh s) =
      log s ++ LoadingOverlay ::
        map Fetch
          (if truthy_ostr (clusterId (this s))
           then [DeploymentsOverview (clusterId (this s));
                 ResourceStatsOf (clusterId (this s));
                 VariableCountsOf (clusterId (this s))]
           else [ClusterInfoByName (stackName (this s)) (clusterName (this s))]).
Proof.
  intros s. unfold hardRefresh, loadData, loadCritical.
  cbn [update emit this clear_data clusterId stackName clusterName].
  destruct (truthy_ostr (clusterId (this s))); split; try reflexivity;
    cbn [suspend emit update log map]; rewrite <- !app_assoc; reflexivity.
Qed.

(** C1, on the code.  A hard reload clears every cached field and then
    loads from the cleared fields, and what it sends is the identity or
    the critical requests; when the critical phase completes, the cost
    flag is requested and nothing else, and not even that when the
    header raises on the cluster state received.  No lazy request of the
    active tab is sent: its cache stays null and the tab shows its
    loading placeholder, whichever tab is active. *)
Theorem hardRefresh_issues_no_lazy_fetch :
  forall s o1 o2 o3,
    let s1 := hardRefresh s in
    let s2 := loadData_resumed o1 o2 o3 s1 in
    s1 = loadData (emit LoadingOverlay (update clear_data s)) /\
    this s1 = clear_data (this s) /\
    data_cleared (this s1) /\
    (exists reqs, since s s1 = LoadingOverlay :: map Fetch reqs /\
                  forallb (fun e => negb (is_lazy e)) reqs = true) /\
    fetches (since s1 s2) = match renderHeader (this s2) with
                            | Normal _ => [CostExplorerEnabled]
                            | Throw _ => []
                            end /\
    activeTab (this s2) = activeTab (this s) /\
    deployments (this s2) = JNull /\ resources (this s2) = JNull /\
    ingresses (this s2) = JNull /\ schedule (this s2) = JNull /\
    maintenanceWin (this s2) = JNull /\
    tab_body (deployments (this s2)) = LoadingPlaceholder /\
    tab_body (resources (this s2)) = LoadingPlaceholder /\
    tab_body (schedule (this s2)) = LoadingPlaceholder.
Proof.
  intros s o1 o2 o3 s1 s2.
  destruct (hardRefresh_effects s) as [Ht Hl]. fold s1 in Ht, Hl.
  destruct (loadData_resumed_lazy_caches o1 o2 o3 s1) as [Ea [Ed [Er [Ei [Es Em]]]]].
  fold s2 in Ea, Ed, Er, Ei, Es, Em.
  rewrite Ht in Ea, Ed, Er, Ei, Es, Em. cbn in Ea, Ed, Er, Ei, Es, Em.
  split; [reflexivity |].
  split; [exact Ht |].
  split; [rewrite Ht; repeat split |].
  split.
  { eexists. split; [apply since_app; exact Hl |].
    destruct (truthy_ostr (clusterId (this s))); reflexivity. }
  split; [apply loadData_resumed_requests |].
  rewrite Ed, Er, Ei, Es, Em. repeat split. exact Ea.
Qed.

(** The failing run: Releases is open and loaded, Refresh is clicked,
    the critical phase completes.  The only request for the release
    history is the one sent before the reload; the tab is active and its
    cache is null. *)
Example hard_reload_on_releases_tab :
  exists s,
    run (boot Sample.by_id Sample.here) Sample.reload_on_releases = Some s /\
    activeTab (this s) = "releases" /\
    deployments (this s) = JNull /\
    tab_body (deployments (this s)) = LoadingPlaceholder /\
    requests_for "releases" (log s) = 1 /\
    suspended s = [AwaitSecondary; AwaitSecondary].
Proof. eexists. split; [vm_compute; reflexivity | repeat split]. Qed.

(** *** Lazy tabs *)



End LoaderFacts.

Section LazyTabCases.

Import Widget.
Open Scope string_scope.
Open Scope list_scope.



End LazyTabCases.

(* ------------------------------------------------------------------ *)
(** ** Responses that arrive late *)

Section StaleResponses.

Import Widget.
Open Scope string_scope.
Open Scope list_scope.

(** C4, as the code has it.  The fields carry no session token, and a
    tick's response is applied whenever it is present: it replaces the
    overview, and the cluster when it has one, whatever happened since
    the request was sent, a hard reload and its completed critical phase
    included.  Only an absent response leaves the fields as they are. *)
Theorem refresh_response_is_always_applied :
  forall s o,
    let s' := settled s (refreshOverview_resumed o s) in
    match payload o with
    | Some fresh =>
        overview (this s') = Some fresh /\
        env (this s') = match cluster fresh with
                        | Some c => Some c
                        | None => env (this s)
                        end
    | None => s' = s
    end /\
    (forall attrs loc evs fresh,
       run (boot attrs loc) evs = Some s ->
       In HardRefresh evs ->
       payload o = Some fresh ->
       overview (this s') = Some fresh).
Proof.
  intros s o s'.
  assert (E : match payload o with
              | Some fresh =>
                  overview (this s') = Some fresh /\
                  env (this s') = match cluster fresh with
                                  | Some c => Some c
                                  | None => env (this s)
                                  end
              | None => s' = s
              end).
  { subst s'. rewrite refreshOverview_resumed_eq.
    destruct (payload o) as [fresh |]; [| reflexivity].
    cbn zeta. destruct (renderHeader _); [| split; reflexivity].
    destruct (pollingActive _).
    - split; reflexivity.
    - cbn [emit update this set_fresh refreshTimer].
      destruct (refreshTimer (this s)); split; reflexivity. }
  split; [exact E |].
  intros attrs loc evs fresh _ _ Hp. rewrite Hp in E. destruct E as [E _]. exact E.
Qed.

Lemma refresh_response_is_always_applied_witness :
  overview
    (this (settled (Sample.after Sample.reloaded_while_polling)
             (refreshOverview_resumed
                (Sample.received (Some (Sample.overview_in "LAUNCHING")))
                (Sample.after Sample.reloaded_while_polling))))
  = Some (Sample.overview_in "LAUNCHING").
Proof.
  assert (Hrun : run (boot Sample.by_id Sample.here) Sample.reloaded_while_polling
                 = Some (Sample.after Sample.reloaded_while_polling))
    by (vm_compute; reflexivity).
  exact (proj2 (refresh_response_is_always_applied
                  (Sample.after Sample.reloaded_while_polling)
                  (Sample.received (Some (Sample.overview_in "LAUNCHING"))))
               Sample.by_id Sample.here Sample.reloaded_while_polling
               (Sample.overview_in "LAUNCHING") Hrun
               (or_intror (or_intror (or_introl eq_refl))) eq_refl).
Defined.

(** C4 as stated fails.  A tick's request is in flight when Refresh is
    clicked; the reload's critical phase completes with the environment
    RUNNING; the tick's older response then arrives and is applied: the
    overview and the cluster state are the stale ones. *)
Lemma stale_refresh_overwrites :
  In HardRefresh Sample.stale_tick /\
  exists s before,
    run (boot Sample.by_id Sample.here) Sample.stale_tick = Some s /\
    run (boot Sample.by_id Sample.here) Sample.reloaded_while_polling = Some before /\
    state_of (this before) = Some "RUNNING" /\
    overview (this s) = Some (Sample.overview_in "LAUNCHING") /\
    state_of (this s) = Some "LAUNCHING" /\
    this s <> this before.
Proof.
  split; [simpl; tauto |].
  eexists. eexists.
  split; [vm_compute; reflexivity |].
  split; [vm_compute; reflexivity |].
  repeat split. discriminate.
Qed.

End StaleResponses.


(* ------------------------------------------------------------------ *)
(** ** The fatal error *)

Section FatalError.

Import Widget.
Open Scope string_scope.
Open Scope list_scope.

(** How the resolution call fails: the request is rejected, the
    response is not [ok], the body does not parse, or the body is
    [null].  A parsed object never fails it, also without an id. *)
Lemma identity_failed_cases :
  forall o message,
    identity_failed o message <->
    (o = NetworkError message \/
     (exists body, o = Response false body /\
                   message = "Could not resolve cluster ID from name") \/
     o = Response true (BadBody message) \/
     (o = Response true (Body None) /\
      message = "Cannot read properties of null (reading 'id')")).
Proof.
  intros o message. unfold identity_failed, resolveClusterId_resumed.
  destruct o as [m | [|] [m | [info |]]]; cbn; split; intros H.
  - injection H as <-. left. reflexivity.
  - destruct H as [H | [[b [H _]] | [H | [H _]]]]; try discriminate H.
    injection H as <-. reflexivity.
  - injection H as <-. right. right. left. reflexivity.
  - destruct H as [H | [[b [H _]] | [H | [H _]]]]; try discriminate H.
    injection H as <-. reflexivity.
  - discriminate H.
  - destruct H as [H | [[b [H _]] | [H | [H _]]]]; discriminate H.
  - injection H as <-. right. right. right. split; reflexivity.
  - destruct H as [H | [[b [H _]] | [H | [_ H]]]]; try discriminate H.
    rewrite H. reflexivity.
  - injection H as <-. right. left. eexists. split; reflexivity.
  - destruct H as [H | [[b [_ H]] | [H | [H _]]]]; try discriminate H.
    rewrite H. reflexivity.
  - injection H as <-. right. left. eexists. split; reflexivity.
  - destruct H as [H | [[b [_ H]] | [H | [H _]]]]; try discriminate H.
    rewrite H. reflexivity.
  - injection H as <-. right. left. eexists. split; reflexivity.
  - destruct H as [H | [[b [_ H]] | [H | [H _]]]]; try discriminate H.
    rewrite H. reflexivity.
Qed.



Lemma boot_error : forall attrs loc, error (this (boot attrs loc)) = None.
Proof. intros attrs loc. unfold boot. explode; reflexivity. Qed.




(** The header raising, on a run: the critical responses carry a
    cluster whose state is named like a member of [Object.prototype].
    The error is set beside the loaded overview, the cost flag is not
    requested and no interval is started, whatever the overview says of
    deployments in progress. *)
Example header_raises_in_the_critical_phase :
  exists s,
    run (boot Sample.by_id Sample.here) [Settle 0 (Sample.critical "constructor")]
      = Some s /\
    error (this s) = Some "ctas.map is not a function" /\
    overview (this s) = Some (Sample.overview_in "constructor") /\
    log s = [Fetch (DeploymentsOverview (Some "c1")); Fetch (ResourceStatsOf (Some "c1"));
             Fetch (VariableCountsOf (Some "c1")); Raised "ctas.map is not a function"] /\
    suspended s = [] /\ navShown s = false.
Proof. eexists. split; [vm_compute; reflexivity | repeat split]. Qed.

(** The header raising at a tick: polling runs on a launching
    environment, and a tick finds the state named like a member of
    [Object.prototype].  The overview is replaced, and the interval
    keeps running although the flag is off. *)
Example header_raises_at_a_tick :
  exists s,
    run (boot Sample.by_id Sample.here)
        (Sample.polling ++
         [Settle 1 (RefreshReply (Sample.received (Some (Sample.overview_in "constructor"))))])
      = Some s /\
    overview (this s) = Some (Sample.overview_in "constructor") /\
    pollingActive (this s) = false /\
    intervals s = [1] /\
    In (Raised "ctas.map is not a function") (log s).
Proof.
  eexists. split; [vm_compute; reflexivity |].
  repeat split. simpl. tauto.
Qed.

End FatalError.

(* ------------------------------------------------------------------ *)
(** ** The interval over whole runs *)

Section IntervalFacts.

Import Widget.
Open Scope string_scope.
Open Scope list_scope.

(** X1.  The page never runs two refresh intervals: in every session
    reached from boot at most one interval is running, and it is the one
    whose id [refreshTimer] holds. *)
Theorem at_most_one_interval :
  forall attrs loc evs s,
    run (boot attrs loc) evs = Some s ->
    List.length (intervals s) <= 1 /\
    (forall i, In i (intervals s) -> refreshTimer (this s) = Some i).
Proof.
  intros attrs loc evs s Hrun. rewrite run_life in Hrun.
  destruct (life_held _ _ _ Hrun (boot_held attrs loc)) as [E | [i [E T]]]; rewrite E.
  - split; [cbn; lia | intros i []].
  - split; [cbn; lia |]. intros j [<- | []]. exact T.
Qed.

Lemma at_most_one_interval_witness :
  List.length (intervals (Sample.after Sample.stale_tick)) <= 1 /\
  intervals (Sample.after Sample.polling) = [1].
Proof.
  split.
  - assert (Hrun : run (boot Sample.by_id Sample.here) Sample.stale_tick
                   = Some (Sample.after Sample.stale_tick))
      by (vm_compute; reflexivity).
    exact (proj1 (at_most_one_interval Sample.by_id Sample.here Sample.stale_tick
                    (Sample.after Sample.stale_tick) Hrun)).
  - vm_compute. reflexivity.
Defined.

(** X2.  Removing the element stops the interval of that moment and
    nothing else.  In every session of the element's life,
    [disconnectedCallback] leaves no interval running, changes no field
    ([refreshTimer] keeps the cleared id) and leaves what is pending
    pending.  So polling is not over: when the critical requests settle
    after the removal on a launching environment, an interval is
    started and ticks with the element out of the page. *)
Theorem disconnect_stops_polling :
  (forall attrs loc ms s,
     life (boot attrs loc) ms = Some s ->
     intervals (disconnectedCallback s) = [] /\
     this (disconnectedCallback s) = this s /\
     suspended (disconnectedCallback s) = suspended s) /\
  (exists s,
     run (boot Sample.by_id Sample.here) Sample.removed_while_loading = Some s /\
     intervals s = [1] /\
     refreshTimer (this s) = Some 1 /\
     step s (Tick 1) = Some (refreshOverview s)).
Proof.
  split.
  - intros attrs loc ms s Hlife.
    assert (T : held s) by (apply (life_held ms _ _ Hlife); apply boot_held).
    split; [unfold disconnectedCallback; apply stopped_intervals; exact T |].
    unfold disconnectedCallback. destruct (refreshTimer (this s)); split; reflexivity.
  - eexists. split; [vm_compute; reflexivity |]. repeat split.
Qed.

Lemma disconnect_stops_polling_witness :
  intervals (Sample.after Sample.polling) = [1] /\
  intervals (disconnectedCallback (Sample.after Sample.polling)) = [].
Proof.
  split; [vm_compute; reflexivity |].
  assert (Hlife : life (boot Sample.by_id Sample.here) (map Within Sample.polling)
                  = Some (Sample.after Sample.polling))
    by (vm_compute; reflexivity).
  exact (proj1 (proj1 disconnect_stops_polling Sample.by_id Sample.here
                  (map Within Sample.polling) (Sample.after Sample.polling) Hlife)).
Defined.

End IntervalFacts.

(* ------------------------------------------------------------------ *)
(** ** What boot requests *)

Section BootFacts.

Import Widget Requests.
Open Scope string_scope.
Open Scope list_scope.

(** X3.  The element's attributes come before the page URL: when
    [cluster-id] is set, or both [stack-name] and [cluster-name] are,
    the session booted does not depend on the location, and its first
    requests are the three critical ones for that id, or else the
    resolution of the two names. *)
Theorem attributes_precede_location :
  forall attrs loc,
    truthy_ostr (cluster_id attrs)
    || (truthy_ostr (stack_name attrs) && truthy_ostr (cluster_name attrs)) = true ->
    (forall loc', boot attrs loc' = boot attrs loc) /\
    log (boot attrs loc) =
      map Fetch
        (if truthy_ostr (cluster_id attrs)
         then [DeploymentsOverview (cluster_id attrs);
               ResourceStatsOf (cluster_id attrs);
               VariableCountsOf (cluster_id attrs)]
         else [ClusterInfoByName (stack_name attrs) (cluster_name attrs)]).
Proof.
  intros attrs loc H. split.
  - intros loc'. unfold boot, connectedCallback. rewrite H. reflexivity.
  - unfold boot, connectedCallback. rewrite H. unfold loadData.
    cbn [update this set_identity clusterId stackName clusterName constructed].
    destruct (truthy_ostr (cluster_id attrs)); reflexivity.
Qed.

Lemma attributes_precede_location_witness :
  boot Sample.by_names
       {| Context.pathname := "/projects/Other/environments/dev"; Context.hash := "";
          Context.search := "?clusterId=c9" |}
  = boot Sample.by_names Sample.here.
Proof.
  exact (proj1 (attributes_precede_location Sample.by_names Sample.here eq_refl)
               {| Context.pathname := "/projects/Other/environments/dev";
                  Context.hash := ""; Context.search := "?clusterId=c9" |}).
Defined.

(** X4.  What boot sends.  Whatever the attributes and the location
    are, [connectedCallback] ends in one of three ways: the picker is
    shown and its project list is requested; the resolution of two
    names, both non-empty, is requested; or the three critical requests
    go out for an id that is not empty.  Nothing else is sent at boot:
    no lazy request, no cost request; and no interval is started. *)
Theorem boot_requests :
  forall attrs loc,
    let s := boot attrs loc in
    intervals s = [] /\
    ((log s = [ShowPicker; Fetch Stacks] /\ suspended s = [AwaitProjects] /\
      pickerShown s = true) \/
     (exists st cl,
        st <> EmptyString /\ cl <> EmptyString /\
        log s = [Fetch (ClusterInfoByName (Some st) (Some cl))] /\
        suspended s = [AwaitResolve] /\ pickerShown s = false) \/
     (exists id,
        id <> EmptyString /\
        log s = [Fetch (DeploymentsOverview (Some id)); Fetch (ResourceStatsOf (Some id));
                 Fetch (VariableCountsOf (Some id))] /\
        suspended s = [AwaitCritical] /\ pickerShown s = false)).
Proof.
  intros attrs loc s. subst s.
  split; [unfold boot; explode; reflexivity |].
  assert (T : forall x : option string,
             truthy_ostr x = true -> exists v, x = Some v /\ v <> EmptyString).
  { intros [[| c v] |] Hx; try discriminate. eexists. split; [reflexivity | discriminate]. }
  unfold boot, connectedCallback.
  destruct (truthy_ostr (cluster_id attrs)) eqn:A1; cbn [orb].
  - right. right. destruct (T _ A1) as [id [E Hne]]. exists id. split; [exact Hne |].
    unfold loadData.
    cbn [update this set_identity clusterId stackName clusterName constructed].
    rewrite A1, E. repeat split.
  - destruct (truthy_ostr (stack_name attrs) && truthy_ostr (cluster_name attrs)) eqn:A2.
    + right. left. apply andb_true_iff in A2. destruct A2 as [S C].
      destruct (T _ S) as [st [Es Hs]]. destruct (T _ C) as [cl [Ec Hc]].
      exists st, cl. split; [exact Hs |]. split; [exact Hc |].
      unfold loadData.
      cbn [update this set_identity clusterId stackName clusterName constructed].
      rewrite A1, Es, Ec. repeat split.
    + destruct (truthy_ostr (Context.ctx_clusterId (Context.tryUrlContext loc))) eqn:A3.
      * right. right. destruct (T _ A3) as [id [E Hne]]. exists id. split; [exact Hne |].
        unfold loadData.
        cbn [update this set_identity set_clusterId clusterId stackName clusterName
             constructed].
        rewrite A3, E. repeat split.
      * destruct (truthy_ostr (Context.ctx_stackName (Context.tryUrlContext loc))
                  && truthy_ostr (Context.ctx_clusterName (Context.tryUrlContext loc)))
          eqn:A4.
        -- right. left. apply andb_true_iff in A4. destruct A4 as [S C].
           destruct (T _ S) as [st [Es Hs]]. destruct (T _ C) as [cl [Ec Hc]].
           exists st, cl. split; [exact Hs |]. split; [exact Hc |].
           unfold loadData.
           cbn [update this set_identity clusterId stackName clusterName constructed].
           rewrite A1, Es, Ec. repeat split.
        -- left. repeat split.
Qed.

End BootFacts.

(* ------------------------------------------------------------------ *)
(** ** The cluster a session addresses *)

Section RequestFacts.

Import Widget Requests.
Open Scope string_scope.
Open Scope list_scope.

Lemma remove_nth_In :
  forall (A : Type) (n : nat) (x : A) (xs : list A), In x (remove_nth n xs) -> In x xs.
Proof.
  intros A n x xs. revert n. induction xs as [| y xs IH]; intros n H.
  - destruct n; exact H.
  - destruct n as [| n]; [right; exact H |].
    destruct H as [H | H]; [left; exact H | right; exact (IH n H)].
Qed.

(** What one moment sends is addressed to the cluster the widget holds
    when the moment ends. *)
Lemma advance_requests :
  forall s m s',
    advance s m = Some s' ->
    exists new,
      log s' = log s ++ new /\
      forall e id, In (Fetch e) new -> cluster_of e = Some id ->
                   id = clusterId (this s').
Proof.
  intros s m s' H.
  advance_cases H; explode; unfold written; explode;
    rewrite <- ?app_assoc; cbn [app];
    first [ exists []; split; [rewrite app_nil_r; reflexivity | intros e i []]
          | eexists; split; [reflexivity |];
            let Hin := fresh in
            let Hc := fresh in
            let E := fresh in
            intros e i Hin Hc; cbn [In] in Hin;
            repeat (destruct Hin as [E | Hin];
                    [try discriminate E; injection E as <-; cbn in Hc;
                     try discriminate Hc; injection Hc as <-; reflexivity |]);
            destruct Hin ].
Qed.

(** The cluster id is assigned at an insertion, by the Go button and
    when a name resolution settles, and nowhere else. *)
Lemma advance_clusterId :
  forall s m s',
    advance s m = Some s' ->
    clusterId (this s') = clusterId (this s) \/
    (exists attrs loc, m = Inserted attrs loc) \/
    (exists value, m = Within (GoClicked value)) \/
    (exists n o, m = Within (Settle n (ResolveReply o))).
Proof.
  intros s m s' H.
  destruct m as [ev | attrs loc]; [| right; left; eexists; eexists; reflexivity].
  cbn [advance] in H.
  step_cases H;
    first [ solve [left; explode; reflexivity]
          | right; right; left; eexists; reflexivity
          | right; right; right; eexists; eexists; reflexivity ].
Qed.

(** While the id is known and the picker is not shown, an event keeps
    both so, and keeps the id. *)
Lemma identified_step :
  forall s ev s',
    step s ev = Some s' -> Identified s -> pickerShown s = false ->
    Identified s' /\ pickerShown s' = false /\ clusterId (this s') = clusterId (this s).
Proof.
  intros s ev s' H [Hid Hcalm] Hp. unfold Identified.
  assert (K : forall n, nth_error (suspended s) n <> Some AwaitResolve).
  { intros n E. apply Hcalm. apply (nth_error_In _ _ E). }
  assert (D : forall n k, ~ In AwaitResolve (remove_nth n (suspended s) ++ [k]) \/
                          k = AwaitResolve).
  { intros n k. destruct k; try (right; reflexivity); left; intros Hin;
      apply in_app_or in Hin; destruct Hin as [Hin | [E | []]];
      try discriminate E; apply Hcalm; apply (remove_nth_In _ _ _ _ Hin). }
  assert (D0 : forall n, ~ In AwaitResolve (remove_nth n (suspended s))).
  { intros n Hin. apply Hcalm. apply (remove_nth_In _ _ _ _ Hin). }
  assert (A : forall k, k <> AwaitResolve -> ~ In AwaitResolve (suspended s ++ [k])).
  { intros k Hk Hin. apply in_app_or in Hin. destruct Hin as [Hin | [E | []]];
      [exact (Hcalm Hin) | exact (Hk E)]. }
  step_cases H; try congruence; try (exfalso; eapply K; eassumption);
    explode; unfold written; explode; try congruence;
    repeat split; auto; try congruence;
    try (apply A; discriminate);
    try match goal with
        | |- ~ In AwaitResolve (remove_nth ?n _ ++ [?k]) =>
            destruct (D n k) as [X | X]; [exact X | discriminate X]
        end.
Qed.

(** What such an event sends is the cost flag, or is addressed to the
    id. *)
Lemma identified_step_requests :
  forall s ev s',
    step s ev = Some s' -> Identified s -> pickerShown s = false ->
    exists new,
      log s' = log s ++ new /\
      forall e, In (Fetch e) new -> addressed_to (clusterId (this s)) e.
Proof.
  intros s ev s' H [Hid Hcalm] Hp. unfold addressed_to.
  assert (K : forall n, nth_error (suspended s) n <> Some AwaitResolve).
  { intros n E. apply Hcalm. apply (nth_error_In _ _ E). }
  step_cases H; try congruence; try (exfalso; eapply K; eassumption);
    explode; unfold written; explode; try congruence;
    rewrite <- ?app_assoc; cbn [app];
    first [ exists []; split; [rewrite app_nil_r; reflexivity | intros e []]
          | eexists; split; [reflexivity |];
            let Hin := fresh in
            let E := fresh in
            intros e Hin; cbn [In] in Hin;
            repeat (destruct Hin as [E | Hin];
                    [try discriminate E; injection E as <-;
                     first [left; reflexivity | right; reflexivity] |]);
            destruct Hin ].
Qed.

Lemma identified_run :
  forall evs s s',
    run s evs = Some s' -> Identified s -> pickerShown s = false ->
    clusterId (this s') = clusterId (this s) /\
    exists new, log s' = log s ++ new /\
                forall e, In (Fetch e) new -> addressed_to (clusterId (this s)) e.
Proof.
  induction evs as [| ev evs IH]; intros s s' Hrun I Hp; cbn [run] in Hrun.
  - injection Hrun as <-. split; [reflexivity |].
    exists []. split; [rewrite app_nil_r; reflexivity | intros e []].
  - destruct (step s ev) as [s1 |] eqn:Hstep; [| discriminate].
    destruct (identified_step s ev s1 Hstep I Hp) as [I1 [P1 C1]].
    destruct (identified_step_requests s ev s1 Hstep I Hp) as [new1 [L1 A1]].
    destruct (IH s1 s' Hrun I1 P1) as [C2 [new2 [L2 A2]]].
    split; [congruence |].
    exists (new1 ++ new2). split.
    + rewrite L2, L1, <- app_assoc. reflexivity.
    + intros e Hin. apply in_app_or in Hin. destruct Hin as [Hin | Hin].
      * apply A1. exact Hin.
      * rewrite <- C1. apply A2. exact Hin.
Qed.

(** X5.  A widget keeps to one cluster between insertions.  At every
    moment of the element's life, insertions and the picker included,
    what the moment sends is addressed to the cluster id the widget
    holds when the moment ends, and the id is assigned only at an
    insertion, by the Go button and when a name resolution settles.  So
    once the id is non-empty, with no name resolution pending and the
    picker not shown, no event changes it until the element is inserted
    again, and every request sent in between (critical, lazy, refresh
    tick, reload) is addressed to it; the cost flag is the only one
    without an id. *)
Theorem requests_keep_to_one_cluster :
  (forall s m s',
     advance s m = Some s' ->
     (forall e id, In (Fetch e) (since s s') -> cluster_of e = Some id ->
                   id = clusterId (this s')) /\
     (clusterId (this s') = clusterId (this s) \/
      (exists attrs loc, m = Inserted attrs loc) \/
      (exists value, m = Within (GoClicked value)) \/
      (exists n o, m = Within (Settle n (ResolveReply o))))) /\
  (forall evs s s',
     Identified s -> pickerShown s = false -> run s evs = Some s' ->
     clusterId (this s') = clusterId (this s) /\
     forall e, In (Fetch e) (since s s') -> addressed_to (clusterId (this s)) e).
Proof.
  split.
  - intros s m s' H. split; [| exact (advance_clusterId s m s' H)].
    destruct (advance_requests s m s' H) as [new [L A]].
    rewrite (since_app s s' new L). exact A.
  - intros evs s s' I Hp Hrun.
    destruct (identified_run evs s s' Hrun I Hp) as [C [new [L A]]].
    split; [exact C |]. rewrite (since_app s s' new L). exact A.
Qed.

Lemma requests_keep_to_one_cluster_witness :
  clusterId (this (Sample.after Sample.reload_on_releases)) = Some "c1" /\
  addressed_to (Some "c1") (DeploymentsPage (Some "c1") 25 0).
Proof.
  assert (I : Identified (boot Sample.by_id Sample.here)).
  { split; [reflexivity |]. intros [E | []]. discriminate E. }
  assert (Hrun : run (boot Sample.by_id Sample.here) Sample.reload_on_releases
                 = Some (Sample.after Sample.reload_on_releases))
    by (vm_compute; reflexivity).
  destruct (proj2 requests_keep_to_one_cluster Sample.reload_on_releases
              (boot Sample.by_id Sample.here)
              (Sample.after Sample.reload_on_releases) I eq_refl Hrun) as [C A].
  split; [exact C |].
  apply A. vm_compute. tauto.
Defined.

(** X6.  The cost section is shown only on a positive answer: after
    the cost request settles, [costEnabled] is true exactly when the
    response was [ok] and its body was [true] or an object whose
    [enabled] is [true].  A rejected request, a response that is not
    [ok], a body that does not parse, [null], [false] and an object
    without [enabled: true] all hide it.  No other field changes. *)
Theorem cost_section_needs_a_positive_answer :
  forall (o : FetchOutcome (option CostData)) (s : Session),
    let s' := settled s (loadSecondary_resumed o s) in
    (costEnabled (this s') = true <->
       o = Response true (Body (Some (CostFlag true))) \/
       o = Response true (Body (Some (CostObject (Some true))))) /\
    set_costEnabled false (this s') = set_costEnabled false (this s).
Proof.
  intros o s s'. subst s'. unfold loadSecondary_resumed. rewrite api_payload.
  cbn [bind settled emit update this log set_costEnabled costEnabled].
  split; [| reflexivity].
  destruct o as [m | [|] [m | [[[|] | [[|] |]] |]]]; cbn; split;
    try discriminate; try (intros [H | H]; discriminate H); auto.
Qed.

End RequestFacts.

(* ------------------------------------------------------------------ *)
(** ** Name resolution over whole runs *)

Section ResolutionFacts.

Import Widget Requests.
Open Scope string_scope.
Open Scope list_scope.









(** X8.  An answer without an id is not a failure.  When the
    resolution call answers with an object that has neither [id] nor
    [clusterId], no error is set: the three critical requests go out
    addressed to that missing id, and the next hard reload resolves the
    names again. *)
Theorem resolution_without_id_is_accepted :
  forall (s : Session) (info : ClusterInfo),
    truthy_ostr (info_id info) = false ->
    truthy_ostr (info_clusterId info) = false ->
    let s' := loadData_resolved (Response true (Body (Some info))) s in
    error (this s') = error (this s) /\
    clusterId (this s') = info_clusterId info /\
    fetches (since s s') =
      [DeploymentsOverview (info_clusterId info); ResourceStatsOf (info_clusterId info);
       VariableCountsOf (info_clusterId info)] /\
    fetches (since s' (hardRefresh s')) =
      [ClusterInfoByName (stackName (this s)) (clusterName (this s))].
Proof.
  intros s info H1 H2 s'.
  assert (E : s' = loadCritical (update (set_clusterId (info_clusterId info)) s)).
  { subst s'. unfold loadData_resolved, resolveClusterId_resumed.
    cbn [await_fetch bind fst snd negb await_json]. rewrite H1. reflexivity. }
  rewrite E. split; [reflexivity |]. split; [reflexivity |]. split.
  - rewrite (since_app s _ (map Fetch [DeploymentsOverview (info_clusterId info);
                                       ResourceStatsOf (info_clusterId info);
                                       VariableCountsOf (info_clusterId info)])).
    + apply fetches_map_Fetch.
    + cbn [loadCritical suspend emit update log this set_clusterId set_identity clusterId
           map]. rewrite <- !app_assoc. reflexivity.
  - set (s1 := loadCritical _).
    destruct (hardRefresh_effects s1) as [_ Hl].
    rewrite (since_app s1 _ _ Hl).
    assert (C : truthy_ostr (clusterId (this s1)) = false) by exact H2.
    rewrite C.
    change (fetches (LoadingOverlay :: map Fetch ?x)) with (fetches (map Fetch x)).
    rewrite fetches_map_Fetch. reflexivity.
Qed.

Lemma resolution_without_id_is_accepted_witness :
  fetches (since (boot Sample.by_names Sample.here)
             (loadData_resolved
                (Response true (Body (Some {| info_id := None; info_clusterId := None |})))
                (boot Sample.by_names Sample.here)))
  = [DeploymentsOverview None; ResourceStatsOf None; VariableCountsOf None].
Proof.
  exact (proj1 (proj2 (proj2 (resolution_without_id_is_accepted
                                (boot Sample.by_names Sample.here)
                                {| info_id := None; info_clusterId := None |}
                                eq_refl eq_refl)))).
Defined.

End ResolutionFacts.

(* ------------------------------------------------------------------ *)
(** ** The cluster and its overview *)

Section OverviewFacts.

Import Widget.
Open Scope string_scope.
Open Scope list_scope.

(** No moment of the element's life leaves a cluster without its
    overview. *)
Lemma advance_env_overview :
  forall s m s',
    advance s m = Some s' ->
    (env (this s) = None \/ exists o, overview (this s) = Some o) ->
    env (this s') = None \/ exists o, overview (this s') = Some o.
Proof.
  intros s m s' H I. advance_cases H; explode; eauto.
Qed.

Lemma life_env_overview :
  forall ms s s',
    life s ms = Some s' ->
    (env (this s) = None \/ exists o, overview (this s) = Some o) ->
    env (this s') = None \/ exists o, overview (this s') = Some o.
Proof.
  induction ms as [| m ms IH]; intros s s' Hlife H; cbn [life] in Hlife.
  - injection Hlife as <-. exact H.
  - destruct (advance s m) as [s1 |] eqn:Ha; [| discriminate].
    apply (IH s1 s' Hlife). apply (advance_env_overview s m s1 Ha H).
Qed.

Lemma boot_env : forall attrs loc, env (this (boot attrs loc)) = None.
Proof. intros attrs loc. unfold boot. explode; reflexivity. Qed.

(** X9.  The cluster never outlives its overview.  In every session
    reached from boot, [this.env] is set only while [this.overview] is;
    so the overview tab shows the launch-readiness card only for a
    stopped cluster whose overview flags the first release: the second
    condition of [isNeverLaunched] (stopped and no overview) never holds
    in a session. *)
Theorem cluster_comes_with_overview :
  forall attrs loc evs s,
    run (boot attrs loc) evs = Some s ->
    (forall e, env (this s) = Some e -> exists o, overview (this s) = Some o) /\
    (isNeverLaunched (overview (this s)) (env_or_empty (env (this s))) = true ->
       exists o ds,
         overview (this s) = Some o /\ deploymentsStats o = Some ds /\
         truthy_obool (isFirstRelease ds) = true /\
         state_of (this s) = Some "STOPPED").
Proof.
  intros attrs loc evs s Hrun.
  assert (I : env (this s) = None \/ exists o, overview (this s) = Some o).
  { rewrite run_life in Hrun.
    apply (life_env_overview _ _ _ Hrun). left. apply boot_env. }
  split.
  - intros e He. destruct I as [I | I]; [congruence | exact I].
  - intros H. unfold isNeverLaunched in H. unfold state_of.
    destruct (env (this s)) as [e |] eqn:He.
    + destruct I as [I | [o Ho]]; [discriminate I |].
      rewrite Ho in H. cbn [env_or_empty] in H.
      rewrite andb_false_r, orb_false_r in H.
      apply andb_true_iff in H. destruct H as [Hst Hfirst].
      destruct (deploymentsStats o) as [ds |] eqn:Hds; [| discriminate Hfirst].
      exists o, ds. repeat split; try assumption.
      destruct (clusterState e) as [[| c st] |]; cbn [str_or truthy_str] in Hst;
        try discriminate Hst.
      apply String.eqb_eq in Hst. rewrite Hst. reflexivity.
    + exfalso. cbn in H. destruct (overview (this s)) as [o |];
        [destruct (deploymentsStats o) |]; discriminate H.
Qed.

Lemma cluster_comes_with_overview_witness :
  exists o, overview (this (Sample.after Sample.launch_completes)) = Some o.
Proof.
  assert (Hrun : run (boot Sample.by_id Sample.here) Sample.launch_completes
                 = Some (Sample.after Sample.launch_completes))
    by (vm_compute; reflexivity).
  exact (proj1 (cluster_comes_with_overview Sample.by_id Sample.here
                  Sample.launch_completes (Sample.after Sample.launch_completes) Hrun)
               (Sample.cluster_in "RUNNING") eq_refl).
Defined.

End OverviewFacts.

(* ------------------------------------------------------------------ *)
(** ** The picker *)

Section PickerFacts.

Import Widget.
Open Scope string_scope.
Open Scope list_scope.

(** No event shows the picker: only an insertion does. *)
Lemma step_picker_shown :
  forall s ev s', step s ev = Some s' -> pickerShown s' = true -> pickerShown s = true.
Proof.
  intros s ev s' H. step_cases H; explode; unfold written; explode;
    first [discriminate | congruence | auto].
Qed.

(** While the picker is shown, nothing but the picker moves: the
    fields stay as the insertion left them. *)
Lemma picking_step :
  forall w s ev s',
    step s ev = Some s' -> Picking w s -> pickerShown s' = true -> Picking w s'.
Proof.
  intros w s ev s' H [Hw [Hi [Hn [Ht Hk]]]] Hp. unfold Picking.
  assert (K : forall n k, nth_error (suspended s) n = Some k ->
                          k = AwaitProjects \/ k = AwaitEnvironments).
  { intros n k E. apply Hk. apply (nth_error_In _ _ E). }
  assert (D : forall n k, In k (remove_nth n (suspended s)) ->
                          k = AwaitProjects \/ k = AwaitEnvironments).
  { intros n k Hin. apply Hk. apply (remove_nth_In _ _ _ _ Hin). }
  assert (A : forall k, In k (suspended s ++ [AwaitEnvironments]) ->
                        k = AwaitProjects \/ k = AwaitEnvironments).
  { intros k Hin. apply in_app_or in Hin. destruct Hin as [Hin | [<- | []]]; auto. }
  assert (T : refreshTimer (this s) = None) by (rewrite Hw; exact Ht).
  step_cases H; try congruence;
    try match goal with
        | E : nth_error (suspended s) _ = Some _ |- _ =>
            destruct (K _ _ E) as [X | X]; discriminate X
        end;
    try (rewrite Hi in *; discriminate);
    revert Hp; explode; try congruence; try discriminate;
    intros; repeat split; eauto.
Qed.

Lemma run_picker_shown :
  forall evs s s',
    run s evs = Some s' -> pickerShown s' = true -> pickerShown s = true.
Proof.
  induction evs as [| ev evs IH]; intros s s' Hrun Hp; cbn [run] in Hrun.
  - injection Hrun as <-. exact Hp.
  - destruct (step s ev) as [s1 |] eqn:Hstep; [| discriminate].
    apply (step_picker_shown s ev s1 Hstep). apply (IH s1 s' Hrun Hp).
Qed.

Lemma picking_run :
  forall evs w s s',
    run s evs = Some s' -> Picking w s -> pickerShown s' = true -> Picking w s'.
Proof.
  induction evs as [| ev evs IH]; intros w s s' Hrun P Hp; cbn [run] in Hrun.
  - injection Hrun as <-. exact P.
  - destruct (step s ev) as [s1 |] eqn:Hstep; [| discriminate].
    apply (IH w s1 s' Hrun); [| exact Hp].
    apply (picking_step w s ev s1 Hstep P).
    apply (run_picker_shown evs s1 s' Hrun Hp).
Qed.

(** A boot that shows the picker. *)
Lemma boot_picking :
  forall attrs loc,
    pickerShown (boot attrs loc) = true ->
    Picking (set_identity (cluster_id attrs) (stack_name attrs) (cluster_name attrs)
               (this constructed))
            (boot attrs loc).
Proof.
  intros attrs loc. unfold boot, Picking. explode; try discriminate.
  intros _. repeat split.
  intros k Hin. cbn in Hin. destruct Hin as [<- | []]. left. reflexivity.
Qed.

(** X10.  The Go button of the picker.  With no environment selected
    it does nothing.  With one selected, in every session reached from a
    boot that showed the picker and that still shows it, whatever was
    chosen and received in the picker meanwhile, Go leaves the fields of
    a widget booted with that id as its [cluster-id] attribute; after
    showing the overlay it sends what that boot sends, the three
    critical requests for the id, and nothing else; the critical phase
    is added to what is pending; the picker is gone, no interval runs,
    and the id is known from then on. *)
Theorem picker_go_loads_as_an_attribute :
  forall (attrs : Attributes) (loc : Context.Location) (evs : list Event)
         (s : Session) (value : string),
    run (boot attrs loc) evs = Some s -> pickerShown s = true ->
    let by_id := boot {| cluster_id := Some value; stack_name := stack_name attrs;
                         cluster_name := cluster_name attrs |} loc in
    (truthy_str value = false -> pickerGo value s = s) /\
    (truthy_str value = true ->
       this (pickerGo value s) = this by_id /\
       since s (pickerGo value s) = LoadingOverlay :: log by_id /\
       suspended (pickerGo value s) = suspended s ++ suspended by_id /\
       intervals (pickerGo value s) = [] /\
       pickerShown (pickerGo value s) = false /\
       Identified (pickerGo value s)).
Proof.
  intros attrs loc evs s value Hrun Hp by_id. split.
  - intros H. unfold pickerGo. rewrite H. reflexivity.
  - intros H.
    assert (B : pickerShown (boot attrs loc) = true)
      by exact (run_picker_shown evs _ _ Hrun Hp).
    destruct (picking_run evs _ _ _ Hrun (boot_picking attrs loc B) Hp)
      as [Hw [Hi [Hn [Ht Hk]]]].
    assert (Y : by_id =
                loadCritical
                  (update (set_identity (Some value) (stack_name attrs)
                             (cluster_name attrs)) constructed)).
    { subst by_id. unfold boot, connectedCallback.
      cbn [cluster_id stack_name cluster_name truthy_ostr]. rewrite H. cbn [orb].
      unfold loadData. cbn [update this set_identity clusterId constructed truthy_ostr].
      rewrite H. reflexivity. }
    assert (G : pickerGo value s =
                loadCritical
                  (emit LoadingOverlay
                     (hide_picker
                        (update clear_data (update (set_clusterId (Some value)) s))))).
    { unfold pickerGo. rewrite H. unfold loadData.
      cbn [emit update hide_picker this clear_data set_clusterId set_identity clusterId
           truthy_ostr].
      rewrite H. reflexivity. }
    rewrite G, Y. unfold loadCritical. fields. rewrite Hw. fields.
    split; [reflexivity |]. split.
    + apply since_app. fields. rewrite <- !app_assoc. reflexivity.
    + split; [reflexivity |]. split; [exact Hi |]. split; [reflexivity |].
      split; [exact H |].
      intros Hin. apply in_app_or in Hin. destruct Hin as [Hin | [E | []]].
      * destruct (Hk _ Hin) as [X | X]; discriminate X.
      * discriminate E.
Qed.

Lemma picker_go_loads_as_an_attribute_witness :
  this (pickerGo "c1" (match run (boot Sample.bare Sample.here) Sample.picking with
                       | Some s => s
                       | None => boot Sample.bare Sample.here
                       end))
  = this (boot Sample.by_id Sample.here).
Proof.
  assert (Hrun : run (boot Sample.bare Sample.here) Sample.picking
                 = Some (match run (boot Sample.bare Sample.here) Sample.picking with
                         | Some s => s
                         | None => boot Sample.bare Sample.here
                         end))
    by (vm_compute; reflexivity).
  exact (proj1 (proj2 (picker_go_loads_as_an_attribute Sample.bare Sample.here
                         Sample.picking _ "c1" Hrun eq_refl) eq_refl)).
Defined.

End PickerFacts.

(* ------------------------------------------------------------------ *)
(** ** Names in paths *)

Section UriFacts.

Import Context Uri.
Open Scope string_scope.
Open Scope list_scope.

Lemma append_empty_r : forall s : string, (s ++ EmptyString)%string = s.
Proof. induction s as [| c s IH]; [reflexivity | cbn; rewrite IH; reflexivity]. Qed.

Lemma every_app :
  forall p u v, every p (u ++ v)%string = every p u && every p v.
Proof.
  intros p. induction u as [| c u IH]; intros v; [reflexivity |].
  cbn [append every]. rewrite IH, andb_assoc. reflexivity.
Qed.

Lemma escape_here_escape :
  forall c rest, escape_here (escape c ++ rest)%string = Some (nat_of_ascii c, rest).
Proof. intros c rest. each_byte c; reflexivity. Qed.

Lemma escape_segment : forall c, every segment_char (escape c) = true.
Proof. intros c. each_byte c; reflexivity. Qed.

Lemma unreserved_segment : forall c, unreserved c = true -> segment_char c = true.
Proof. intros c. each_byte c; intros H; try reflexivity; discriminate H. Qed.

Lemma unreserved_plain :
  forall c, unreserved c = true -> Ascii.eqb c "%" = false /\ (nat_of_ascii c <? 128)%nat = true.
Proof. intros c. each_byte c; intros H; try (split; reflexivity); discriminate H. Qed.

Lemma encoded_segment : forall s, every segment_char (encodeURIComponent s) = true.
Proof.
  induction s as [| c s IH]; [reflexivity |].
  cbn [encodeURIComponent]. rewrite every_app, IH, andb_true_r.
  destruct (unreserved c) eqn:U.
  - cbn [every]. rewrite (unreserved_segment c U). reflexivity.
  - apply escape_segment.
Qed.

Lemma unreserved_high :
  forall c, (nat_of_ascii c <? 128)%nat = false -> unreserved c = false.
Proof. intros c. each_byte c; intros H; try reflexivity; discriminate H. Qed.

Lemma escape_here_mark :
  forall c s b after, escape_here (String c s) = Some (b, after) -> c = "%"%char.
Proof. intros c s b after. each_byte c; intros H; try discriminate H. reflexivity. Qed.

(** One step of [decode] at an escape. *)
Lemma decode_at_escape :
  forall fuel s b after,
    escape_here s = Some (b, after) ->
    decode (S fuel) s =
    if (b <? 128)%nat then
      bind (decode fuel after) (fun t => Normal (String (ascii_of_nat b) t))
    else
      match (if (b <? 192)%nat then 0
             else if (b <? 224)%nat then 1
             else if (b <? 240)%nat then 2
             else if (b <? 248)%nat then 3 else 0) with
      | O => Throw malformed
      | S k' =>
          match continuation (S k') after with
          | None => Throw malformed
          | Some (bs, after') =>
              if well_formed b bs then
                bind (decode fuel after')
                     (fun t => Normal (String (ascii_of_nat b) (bytes_to_string bs ++ t)))
              else Throw malformed
          end
      end.
Proof.
  intros fuel s b after H. destruct s as [| c s]; [discriminate H |].
  pose proof (escape_here_mark c s b after H) as ->.
  cbn [decode]. change (Ascii.eqb "%" "%") with true. cbn iota. rewrite H.
  destruct (b <? 128)%nat; [reflexivity |].
  destruct (b <? 192)%nat; [reflexivity |].
  destruct (b <? 224)%nat; [reflexivity |].
  destruct (b <? 240)%nat; [reflexivity |].
  destruct (b <? 248)%nat; reflexivity.
Qed.

Lemma decode_at_plain :
  forall fuel c rest,
    Ascii.eqb c "%" = false ->
    decode (S fuel) (String c rest) =
    bind (decode fuel rest) (fun t => Normal (String c t)).
Proof. intros fuel c rest H. cbn [decode]. rewrite H. reflexivity. Qed.

Lemma continuation_escape :
  forall k c rest,
    is_continuation c = true ->
    continuation (S k) (escape c ++ rest)%string =
    match continuation k rest with
    | Some (bs, rest') => Some (nat_of_ascii c :: bs, rest')
    | None => None
    end.
Proof.
  intros k c rest H. cbn [continuation]. rewrite escape_here_escape.
  unfold is_continuation in H. rewrite H. reflexivity.
Qed.

Lemma escape_length :
  forall c rest, String.length (escape c ++ rest)%string = 3 + String.length rest.
Proof. reflexivity. Qed.

Lemma decode_encoded :
  forall n s,
    String.length s <= n -> utf8 s = true ->
    forall fuel,
      String.length (encodeURIComponent s) <= fuel ->
      decode fuel (encodeURIComponent s) = Normal s.
Proof.
  induction n as [| n IH]; intros s Hn U fuel Hf.
  - destruct s; [| cbn in Hn; lia]. destruct fuel; reflexivity.
  - destruct s as [| c rest]; [destruct fuel; reflexivity |].
    cbn [String.length] in Hn. cbn [utf8] in U. cbn [encodeURIComponent] in Hf |- *.
    destruct (nat_of_ascii c <? 128)%nat eqn:B1.
    + (* one byte *)
      assert (R : forall f, String.length (encodeURIComponent rest) <= f ->
                            decode f (encodeURIComponent rest) = Normal rest).
      { intros f Hf'. apply (IH rest); [lia | exact U | exact Hf']. }
      destruct (unreserved c) eqn:Un.
      * destruct (unreserved_plain c Un) as [P _].
        cbn [append String.length] in Hf |- *.
        destruct fuel as [| f]; [lia |].
        rewrite (decode_at_plain f c _ P), R by lia. reflexivity.
      * rewrite escape_length in Hf. destruct fuel as [| f]; [lia |].
        rewrite (decode_at_escape f _ _ _ (escape_here_escape c _)), B1, R by lia.
        cbn [bind]. rewrite ascii_nat_embedding. reflexivity.
    + rewrite (unreserved_high c B1) in Hf |- *.
      rewrite escape_length in Hf. destruct fuel as [| f]; [lia |].
      rewrite (decode_at_escape f _ _ _ (escape_here_escape c _)), B1.
      destruct (nat_of_ascii c <? 192)%nat eqn:B2; [discriminate U |].
      destruct (nat_of_ascii c <? 224)%nat eqn:B3.
      { destruct rest as [| c1 rest1]; [discriminate U |].
        apply andb_true_iff in U. destruct U as [U U1].
        apply andb_true_iff in U. destruct U as [K1 W].
        assert (H1 : (nat_of_ascii c1 <? 128)%nat = false).
        { unfold is_continuation in K1. apply andb_true_iff in K1.
          destruct K1 as [K1 _]. apply Nat.leb_le in K1. apply Nat.ltb_ge. exact K1. }
        cbn [encodeURIComponent] in Hf |- *.
        rewrite (unreserved_high c1 H1) in Hf |- *.
        rewrite escape_length in Hf. cbn [String.length] in Hn.
        rewrite (continuation_escape 0 c1 _ K1). cbn [continuation]. rewrite W.
        rewrite (IH rest1) by (try lia; exact U1).
        cbn [bind bytes_to_string fold_right append].
        rewrite !ascii_nat_embedding. reflexivity. }
      destruct (nat_of_ascii c <? 240)%nat eqn:B4.
      { destruct rest as [| c1 [| c2 rest2]]; try discriminate U.
        apply andb_true_iff in U. destruct U as [U U1].
        apply andb_true_iff in U. destruct U as [U W].
        apply andb_true_iff in U. destruct U as [K1 K2].
        assert (H : forall x, is_continuation x = true ->
                              (nat_of_ascii x <? 128)%nat = false).
        { intros x K. unfold is_continuation in K. apply andb_true_iff in K.
          destruct K as [K _]. apply Nat.leb_le in K. apply Nat.ltb_ge. exact K. }
        cbn [encodeURIComponent] in Hf |- *.
        rewrite (unreserved_high c1 (H c1 K1)), (unreserved_high c2 (H c2 K2)) in Hf |- *.
        rewrite !escape_length in Hf. cbn [String.length] in Hn.
        rewrite (continuation_escape 1 c1 _ K1), (continuation_escape 0 c2 _ K2).
        cbn [continuation]. rewrite W.
        rewrite (IH rest2) by (try lia; exact U1).
        cbn [bind bytes_to_string fold_right append].
        rewrite !ascii_nat_embedding. reflexivity. }
      destruct (nat_of_ascii c <? 248)%nat eqn:B5; [| discriminate U].
      destruct rest as [| c1 [| c2 [| c3 rest3]]]; try discriminate U.
      apply andb_true_iff in U. destruct U as [U U1].
      apply andb_true_iff in U. destruct U as [U W].
      apply andb_true_iff in U. destruct U as [U K3].
      apply andb_true_iff in U. destruct U as [K1 K2].
      assert (H : forall x, is_continuation x = true ->
                            (nat_of_ascii x <? 128)%nat = false).
      { intros x K. unfold is_continuation in K. apply andb_true_iff in K.
        destruct K as [K _]. apply Nat.leb_le in K. apply Nat.ltb_ge. exact K. }
      cbn [encodeURIComponent] in Hf |- *.
      rewrite (unreserved_high c1 (H c1 K1)), (unreserved_high c2 (H c2 K2)),
        (unreserved_high c3 (H c3 K3)) in Hf |- *.
      rewrite !escape_length in Hf. cbn [String.length] in Hn.
      rewrite (continuation_escape 2 c1 _ K1), (continuation_escape 1 c2 _ K2),
        (continuation_escape 0 c3 _ K3).
      cbn [continuation]. rewrite W.
      rewrite (IH rest3) by (try lia; exact U1).
      cbn [bind bytes_to_string fold_right append].
      rewrite !ascii_nat_embedding. reflexivity.
Qed.

Lemma strip_prefix_same :
  forall pre s, strip_prefix pre (pre ++ s)%string = Some s.
Proof.
  induction pre as [| a pre IH]; intros s; [reflexivity |].
  cbn [append strip_prefix]. rewrite Ascii.eqb_refl. apply IH.
Qed.

Lemma span_segment_whole :
  forall u t,
    every segment_char u = true ->
    match t with
    | EmptyString => true
    | String c _ => negb (segment_char c)
    end = true ->
    span_segment (u ++ t)%string = (u, t).
Proof.
  induction u as [| c u IH]; intros t Hu Ht.
  - destruct t as [| c t]; [reflexivity |].
    cbn [append span_segment]. apply negb_true_iff in Ht. rewrite Ht. reflexivity.
  - cbn [every] in Hu. apply andb_true_iff in Hu. destruct Hu as [Hc Hu].
    cbn [append span_segment]. rewrite Hc, (IH t Hu Ht). reflexivity.
Qed.

Lemma encoded_nonempty :
  forall s, s <> EmptyString -> truthy_str (encodeURIComponent s) = true.
Proof.
  intros [| c s] H; [contradiction |]. cbn [encodeURIComponent].
  destruct (unreserved c); reflexivity.
Qed.

Lemma regex_match_encoded :
  forall st cl,
    st <> EmptyString -> cl <> EmptyString ->
    regex_match ("/projects/" ++ encodeURIComponent st
                 ++ "/environments/" ++ encodeURIComponent cl)
    = Some (encodeURIComponent st, encodeURIComponent cl).
Proof.
  intros st cl Hs Hc. rewrite regex_match_unfold. unfold match_here.
  rewrite strip_prefix_same.
  rewrite (span_segment_whole (encodeURIComponent st)
             ("/environments/" ++ encodeURIComponent cl) (encoded_segment st)
             eq_refl).
  rewrite (encoded_nonempty st Hs), strip_prefix_same.
  rewrite <- (append_empty_r (encodeURIComponent cl)).
  rewrite (span_segment_whole (encodeURIComponent cl) EmptyString (encoded_segment cl)
             eq_refl).
  rewrite append_empty_r, (encoded_nonempty cl Hc). reflexivity.
Qed.

Lemma encode_injective :
  forall u v, encodeURIComponent u = encodeURIComponent v -> u = v.
Proof.
  induction u as [| c u IH]; intros [| c' v] H.
  - reflexivity.
  - cbn [encodeURIComponent] in H. destruct (unreserved c'); discriminate H.
  - cbn [encodeURIComponent] in H. destruct (unreserved c); discriminate H.
  - cbn [encodeURIComponent] in H.
    destruct (unreserved c) eqn:U; destruct (unreserved c') eqn:U'.
    + cbn [append] in H. injection H as -> H. rewrite (IH v H). reflexivity.
    + exfalso. unfold escape in H. cbn [append] in H.
      assert (E : c = "%"%char) by (injection H; auto).
      subst c. discriminate U.
    + exfalso. unfold escape in H. cbn [append] in H.
      assert (E : c' = "%"%char) by (injection H; auto).
      subst c'. discriminate U'.
    + assert (E : escape_here (escape c ++ encodeURIComponent u)%string =
                  escape_here (escape c' ++ encodeURIComponent v)%string)
        by (rewrite H; reflexivity).
      rewrite !escape_here_escape in E. injection E as En Er.
      rewrite (IH v Er).
      rewrite <- (ascii_nat_embedding c), En, ascii_nat_embedding. reflexivity.
Qed.

Lemma append_cancel_l :
  forall pre x y : string, (pre ++ x)%string = (pre ++ y)%string -> x = y.
Proof.
  induction pre as [| c pre IH]; intros x y H; [exact H |].
  cbn [append] in H. injection H as H. apply IH. exact H.
Qed.

(** Two texts without a slash, each followed by a slash, start the
    same string only when they are equal. *)
Lemma split_at_slash :
  forall u u' r r',
    every segment_char u = true -> every segment_char u' = true ->
    (u ++ String "/" r)%string = (u' ++ String "/" r')%string ->
    u = u' /\ r = r'.
Proof.
  induction u as [| c u IH]; intros [| c' u'] r r' Hu Hu' H.
  - cbn in H. injection H as ->. split; reflexivity.
  - cbn [append] in H. injection H as <- _. discriminate Hu'.
  - cbn [append] in H. injection H as -> _. discriminate Hu.
  - cbn [append] in H. injection H as -> H.
    cbn [every] in Hu, Hu'.
    apply andb_true_iff in Hu. apply andb_true_iff in Hu'.
    destruct (IH u' r r' (proj2 Hu) (proj2 Hu') H) as [-> ->]. split; reflexivity.
Qed.

End UriFacts.

(** X11.  The names in the page URL are read back as they were
    written.  For two non-empty names, a location whose path is
    [/projects/{stack}/environments/{cluster}] with each name written by
    [encodeURIComponent] gives back exactly the two names, whatever
    characters they contain (slashes, question marks, percent signs,
    non-ASCII text), and a widget without attributes booted there
    requests the resolution of those names. *)
Theorem url_names_round_trip :
  forall st cl : string,
    Uri.utf8 st = true -> Uri.utf8 cl = true ->
    st <> EmptyString -> cl <> EmptyString ->
    let loc := {| Context.pathname :=
                    "/projects/" ++ Uri.encodeURIComponent st
                    ++ "/environments/" ++ Uri.encodeURIComponent cl;
                  Context.hash := ""; Context.search := "" |}%string in
    Context.decodeURIComponent (Uri.encodeURIComponent st) = Normal st /\
    Context.tryUrlContext loc =
      {| Context.ctx_clusterId := None; Context.ctx_stackName := Some st;
         Context.ctx_clusterName := Some cl |} /\
    Widget.log (Widget.boot {| Widget.cluster_id := None; Widget.stack_name := None;
                               Widget.cluster_name := None |} loc)
    = [Widget.Fetch (Widget.ClusterInfoByName (Some st) (Some cl))].
Proof.
  intros st cl Us Uc Hs Hc loc.
  assert (D : forall s, Uri.utf8 s = true ->
                        Context.decodeURIComponent (Uri.encodeURIComponent s) = Normal s).
  { intros s U. unfold Context.decodeURIComponent.
    apply (decode_encoded (String.length s) s (le_n _) U). apply le_n. }
  assert (T : Context.tryUrlContext loc =
              {| Context.ctx_clusterId := None; Context.ctx_stackName := Some st;
                 Context.ctx_clusterName := Some cl |}).
  { unfold Context.tryUrlContext, Context.tryUrlContext_with. subst loc.
    cbn [Context.search Context.hash Context.pathname].
    change (Context.truthy_param Context.URLSearchParams_get "" "clusterId") with (@None string).
    change (Context.truthy_param Context.URLSearchParams_get "" "cluster-id") with (@None string).
    cbn iota.
    change ("" ++ "")%string with EmptyString. rewrite append_empty_r.
    rewrite (regex_match_encoded st cl Hs Hc).
    unfold Context.assign_names. cbn [fst snd]. rewrite (D st Us), (D cl Uc).
    reflexivity. }
  split; [exact (D st Us) |]. split; [exact T |].
  unfold Widget.boot, Widget.connectedCallback. cbn [Widget.cluster_id Widget.stack_name
    Widget.cluster_name truthy_ostr orb andb]. rewrite T.
  cbn [Context.ctx_clusterId Context.ctx_stackName Context.ctx_clusterName truthy_ostr].
  destruct st as [| c1 st]; [contradiction |]. destruct cl as [| c2 cl]; [contradiction |].
  reflexivity.
Qed.

Lemma url_names_round_trip_witness :
  Context.tryUrlContext
    {| Context.pathname := "/projects/a%2Fb%20c/environments/%C3%A9t%C3%A9%3F";
       Context.hash := ""; Context.search := "" |} =
  {| Context.ctx_clusterId := None; Context.ctx_stackName := Some "a/b c"%string;
     Context.ctx_clusterName :=
       Some (String (ascii_of_nat 195) (String (ascii_of_nat 169)
               (String "t" (String (ascii_of_nat 195) (String (ascii_of_nat 169)
                  (String "?" EmptyString)))))) |}.
Proof.
  exact (proj1 (proj2 (url_names_round_trip
                         "a/b c"%string
                         (String (ascii_of_nat 195) (String (ascii_of_nat 169)
                            (String "t" (String (ascii_of_nat 195)
                               (String (ascii_of_nat 169) (String "?" EmptyString))))))
                         eq_refl eq_refl ltac:(discriminate) ltac:(discriminate)))).
Defined.

(** X12.  The path of the resolution request determines the two names:
    no two pairs of names are requested under the same path, since a
    name is written with every slash escaped and [encodeURIComponent]
    loses nothing. *)
Theorem resolve_path_injective :
  forall st cl st' cl' : string,
    Uri.resolve_path st cl = Uri.resolve_path st' cl' <-> st = st' /\ cl = cl'.
Proof.
  intros st cl st' cl'. split; [| intros [-> ->]; reflexivity].
  unfold Uri.resolve_path. intros H.
  apply append_cancel_l in H.
  destruct (split_at_slash
              (Uri.encodeURIComponent st) (Uri.encodeURIComponent st')
              ("cluster/" ++ Uri.encodeURIComponent cl ++ "/info")
              ("cluster/" ++ Uri.encodeURIComponent cl' ++ "/info")
              (encoded_segment st) (encoded_segment st') H) as [Ea H2].
  apply append_cancel_l in H2.
  destruct (split_at_slash
              (Uri.encodeURIComponent cl) (Uri.encodeURIComponent cl')
              "info" "info" (encoded_segment cl) (encoded_segment cl') H2) as [Eb _].
  split; apply encode_injective; assumption.
Qed.

(* ------------------------------------------------------------------ *)
(** ** The results of the resolver *)

Section ResolverShape.

Import Context.
Open Scope string_scope.
Open Scope list_scope.

Lemma decode_nonempty :
  forall s t,
    truthy_str s = true -> decodeURIComponent s = Normal t -> truthy_str t = true.
Proof.
  intros [| c rest] t Hs H; [discriminate Hs |].
  unfold decodeURIComponent in H. cbn [String.length] in H.
  destruct (Ascii.eqb c "%") eqn:E.
  - apply Ascii.eqb_eq in E. subst c.
    destruct (escape_here (String "%" rest)) as [[b after] |] eqn:Eh.
    + rewrite (decode_at_escape _ _ _ _ Eh) in H.
      repeat match type of H with
             | context [if ?x then _ else _] => destruct x
             | context [match continuation ?k ?u with _ => _ end] =>
                 destruct (continuation k u) as [[? ?] |]
             | context [bind (decode ?f ?u) _] => destruct (decode f u)
             end;
        try discriminate H; cbn [bind] in H; injection H as <-; reflexivity.
    + cbn [decode] in H. change (Ascii.eqb "%" "%") with true in H. cbn iota in H.
      rewrite Eh in H. discriminate H.
  - rewrite (decode_at_plain _ _ _ E) in H.
    destruct (decode (String.length rest) rest); [| discriminate H].
    cbn [bind] in H. injection H as <-. reflexivity.
Qed.

Lemma match_here_groups :
  forall s g1 g2,
    match_here s = Some (g1, g2) -> truthy_str g1 = true /\ truthy_str g2 = true.
Proof.
  intros s g1 g2 H. unfold match_here in H.
  destruct (strip_prefix "/projects/" s) as [s1 |]; [| discriminate H].
  destruct (span_segment s1) as [h1 s2].
  destruct (truthy_str h1) eqn:T1; [| discriminate H].
  destruct (strip_prefix "/environments/" s2) as [s3 |]; [| discriminate H].
  destruct (span_segment s3) as [h2 s4].
  destruct (truthy_str h2) eqn:T2; [| discriminate H].
  injection H as <- <-. split; assumption.
Qed.

Lemma regex_match_groups :
  forall s g1 g2,
    regex_match s = Some (g1, g2) -> truthy_str g1 = true /\ truthy_str g2 = true.
Proof.
  induction s as [| c s IH]; intros g1 g2 H; rewrite regex_match_unfold in H.
  - destruct (match_here EmptyString) as [[h1 h2] |] eqn:M; [| discriminate H].
    injection H as <- <-. apply (match_here_groups _ _ _ M).
  - destruct (match_here (String c s)) as [[h1 h2] |] eqn:M.
    + injection H as <- <-. apply (match_here_groups _ _ _ M).
    + apply IH. exact H.
Qed.

(** The four results of the resolver. *)
Lemma tryUrlContext_cases :
  forall loc,
    (exists v, truthy_str v = true /\
               tryUrlContext loc =
               {| ctx_clusterId := Some v; ctx_stackName := None; ctx_clusterName := None |}) \/
    tryUrlContext loc = no_context \/
    (exists st, truthy_str st = true /\
                tryUrlContext loc =
                {| ctx_clusterId := None; ctx_stackName := Some st;
                   ctx_clusterName := None |}) \/
    (exists st cl, truthy_str st = true /\ truthy_str cl = true /\
                   tryUrlContext loc =
                   {| ctx_clusterId := None; ctx_stackName := Some st;
                      ctx_clusterName := Some cl |}).
Proof.
  intros loc.
  assert (P : forall name v,
             truthy_param URLSearchParams_get (search loc) name = Some v ->
             truthy_str v = true).
  { intros name v H. unfold truthy_param in H.
    destruct (URLSearchParams_get (search loc) name) as [w |]; [| discriminate H].
    destruct (truthy_str w) eqn:T; [| discriminate H]. injection H as <-. exact T. }
  assert (N : forall m,
             truthy_str (fst m) = true -> truthy_str (snd m) = true ->
             assign_names decodeURIComponent no_context m = no_context \/
             (exists st, truthy_str st = true /\
                assign_names decodeURIComponent no_context m =
                {| ctx_clusterId := None; ctx_stackName := Some st;
                   ctx_clusterName := None |}) \/
             (exists st cl, truthy_str st = true /\ truthy_str cl = true /\
                assign_names decodeURIComponent no_context m =
                {| ctx_clusterId := None; ctx_stackName := Some st;
                   ctx_clusterName := Some cl |})).
  { intros [g1 g2] T1 T2. unfold assign_names. cbn [fst snd] in *.
    destruct (decodeURIComponent g1) as [st | e1] eqn:D1; [| left; reflexivity].
    pose proof (decode_nonempty g1 st T1 D1) as S1.
    destruct (decodeURIComponent g2) as [cl | e2] eqn:D2.
    - right. right. exists st, cl. pose proof (decode_nonempty g2 cl T2 D2) as S2.
      split; [exact S1 |]. split; [exact S2 | reflexivity].
    - right. left. exists st. split; [exact S1 | reflexivity]. }
  unfold tryUrlContext, tryUrlContext_with.
  destruct (truthy_param URLSearchParams_get (search loc) "clusterId") as [v |] eqn:Q1.
  { left. exists v. split; [apply (P _ _ Q1) | reflexivity]. }
  destruct (truthy_param URLSearchParams_get (search loc) "cluster-id") as [v |] eqn:Q2.
  { left. exists v. split; [apply (P _ _ Q2) | reflexivity]. }
  destruct (regex_match (pathname loc ++ hash loc ++ search loc)) as [[g1 g2] |] eqn:M1.
  { right. destruct (regex_match_groups _ _ _ M1) as [T1 T2]. apply (N (g1, g2) T1 T2). }
  destruct (regex_match (hash loc)) as [[g1 g2] |] eqn:M2.
  { right. destruct (regex_match_groups _ _ _ M2) as [T1 T2]. apply (N (g1, g2) T1 T2). }
  right. left. reflexivity.
Qed.

End ResolverShape.

(** X13.  What the URL resolver can return.  For every location the
    result names a cluster in one way at most: an id, which is then not
    empty and comes without names; or names, where a cluster name never
    comes without a stack name and no name is empty.  A stack name alone
    is possible (the cluster segment did not decode).  A widget without
    attributes shows the picker exactly when the result has neither an
    id nor a cluster name. *)
Theorem url_context_shape :
  forall loc : Context.Location,
    let r := Context.tryUrlContext loc in
    (forall v, Context.ctx_clusterId r = Some v ->
       v <> EmptyString /\ Context.ctx_stackName r = None /\
       Context.ctx_clusterName r = None) /\
    (forall cl, Context.ctx_clusterName r = Some cl ->
       cl <> EmptyString /\ exists st, Context.ctx_stackName r = Some st) /\
    (forall st, Context.ctx_stackName r = Some st -> st <> EmptyString) /\
    (Widget.log (Widget.boot {| Widget.cluster_id := None; Widget.stack_name := None;
                                Widget.cluster_name := None |} loc)
     = [Widget.ShowPicker; Widget.Fetch Widget.Stacks]
     <-> Context.ctx_clusterId r = None /\ Context.ctx_clusterName r = None).
Proof.
  intros loc r.
  assert (T : forall x, truthy_str x = true -> x <> EmptyString).
  { intros [| c x] H; [discriminate H | discriminate]. }
  unfold Widget.boot, Widget.connectedCallback.
  cbn [Widget.cluster_id Widget.stack_name Widget.cluster_name truthy_ostr orb andb].
  fold r.
  destruct (tryUrlContext_cases loc) as [[v [Tv E]] | [E | [[st [Ts E]] | [st [cl [Ts [Tc E]]]]]]];
    fold r in E; rewrite E;
    cbn [Context.ctx_clusterId Context.ctx_stackName Context.ctx_clusterName
         Context.no_context truthy_ostr andb].
  - rewrite Tv. split; [| split; [| split]].
    + intros w Hw. injection Hw as <-. split; [apply T; exact Tv | split; reflexivity].
    + intros w Hw. discriminate Hw.
    + intros w Hw. discriminate Hw.
    + split; [intros H | intros [H _]; discriminate H].
      unfold Widget.loadData in H.
      cbn [Widget.update Widget.this Widget.set_clusterId Widget.set_identity
           Widget.clusterId] in H.
      cbn [truthy_ostr] in H. rewrite Tv in H. discriminate H.
  - split; [| split; [| split]]; try (intros w Hw; discriminate Hw).
    split; [split; reflexivity | reflexivity].
  - rewrite Ts. cbn [andb]. split; [| split; [| split]];
      try (intros w Hw; discriminate Hw).
    + intros w Hw. injection Hw as <-. apply T. exact Ts.
    + split; [split; reflexivity | reflexivity].
  - rewrite Ts, Tc. cbn [andb]. split; [| split; [| split]];
      try (intros w Hw; discriminate Hw).
    + intros w Hw. injection Hw as <-. split; [apply T; exact Tc | eexists; reflexivity].
    + intros w Hw. injection Hw as <-. apply T. exact Ts.
    + split; [intros H | intros [_ H]; discriminate H].
      discriminate H.
Qed.

(* ------------------------------------------------------------------ *)
(** ** Durations *)

Section FormatFacts.

Import Uri Format.
Open Scope string_scope.
Open Scope list_scope.

(** Two texts of characters in [p], each followed by a character
    outside [p], start the same string only when they are equal. *)
Lemma split_at_stop :
  forall (p : ascii -> bool) u u' c c' r r',
    every p u = true -> every p u' = true -> p c = false -> p c' = false ->
    (u ++ String c r)%string = (u' ++ String c' r')%string ->
    u = u' /\ c = c' /\ r = r'.
Proof.
  intros p. induction u as [| x u IH]; intros [| x' u'] c c' r r' Hu Hu' Hc Hc' H.
  - cbn in H. injection H as -> ->. repeat split.
  - exfalso. cbn [append] in H. injection H as -> _.
    cbn [every] in Hu'. rewrite Hc in Hu'. discriminate Hu'.
  - exfalso. cbn [append] in H. injection H as <- _.
    cbn [every] in Hu. rewrite Hc' in Hu. discriminate Hu.
  - cbn [append] in H. injection H as -> H.
    cbn [every] in Hu, Hu'.
    apply andb_true_iff in Hu. apply andb_true_iff in Hu'.
    destruct (IH u' c c' r r' (proj2 Hu) (proj2 Hu') Hc Hc' H) as [-> [-> ->]].
    repeat split.
Qed.

Lemma digits_of_uint :
  forall u : Decimal.uint, every is_digit (NilEmpty.string_of_uint u) = true.
Proof.
  induction u as [| u IH | u IH | u IH | u IH | u IH | u IH | u IH | u IH | u IH | u IH];
    cbn [NilEmpty.string_of_uint every]; try rewrite IH; reflexivity.
Qed.

Lemma show_digits : forall n, (0 <= n)%Z -> every is_digit (show n) = true.
Proof.
  intros [| p | p] H; [reflexivity | | lia].
  unfold show. cbn [Z.to_int NilZero.string_of_int]. unfold NilZero.string_of_uint.
  pose proof (digits_of_uint (Pos.to_uint p)) as D.
  destruct (Pos.to_uint p); exact D.
Qed.

Lemma show_injective : forall m n, show m = show n -> m = n.
Proof.
  intros m n H. apply to_int_inj.
  assert (N : forall k, Z.to_int k <> Decimal.Pos Decimal.Nil /\
                        Z.to_int k <> Decimal.Neg Decimal.Nil).
  { intros [| p | p]; cbn [Z.to_int]; split; try discriminate;
      intros E; injection E as E; exact (Unsigned.to_uint_nonnil p E). }
  pose proof (NilZero.isi (Z.to_int m) (proj1 (N m)) (proj2 (N m))) as Em.
  pose proof (NilZero.isi (Z.to_int n) (proj1 (N n)) (proj2 (N n))) as En.
  unfold show in H. rewrite H in Em. rewrite Em in En. injection En as E. exact E.
Qed.

(** Two counts followed by their units. *)
Lemma counted_equal :
  forall m n c c' r r',
    (0 <= m)%Z -> (0 <= n)%Z -> is_digit c = false -> is_digit c' = false ->
    (show m ++ String c r)%string = (show n ++ String c' r')%string ->
    m = n /\ c = c' /\ r = r'.
Proof.
  intros m n c c' r r' Hm Hn Hc Hc' H.
  destruct (split_at_stop is_digit _ _ _ _ _ _ (show_digits m Hm) (show_digits n Hn)
              Hc Hc' H) as [E [Ec Er]].
  split; [apply show_injective; exact E | split; assumption].
Qed.

(** X14.  What the duration text keeps, for whole numbers of seconds
    below 2^53 (where the quotients the source takes in doubles and
    rounds down are the integer quotients).  Below one hour the text of
    [_fmtDur] determines the number of seconds; from one hour on it
    determines the duration to the minute and no further: two durations
    get the same text exactly when they are in the same minute. *)
Theorem fmtDur_precision :
  forall m n : Z,
    ((0 < m < 3600)%Z -> (0 < n < 3600)%Z ->
       fmtDur (Some m) = fmtDur (Some n) -> m = n) /\
    ((3600 <= m < 2 ^ 53)%Z -> (3600 <= n < 2 ^ 53)%Z ->
       (fmtDur (Some m) = fmtDur (Some n) <-> (m / 60 = n / 60)%Z)).
Proof.
  intros m n. split.
  - intros Hm Hn H. unfold fmtDur in H.
    destruct (Z.eqb_spec m 0) as [? | _]; [lia |].
    destruct (Z.eqb_spec n 0) as [? | _]; [lia |].
    destruct (Z.ltb_spec m 3600) as [_ | ?]; [| lia].
    destruct (Z.ltb_spec n 3600) as [_ | ?]; [| lia].
    assert (R : forall k, (0 < k)%Z -> (0 <= Z.rem k 60)%Z /\ (0 <= k / 60)%Z /\
                          (k = 60 * (k / 60) + Z.rem k 60)%Z).
    { intros k Hk. rewrite Z.rem_mod_nonneg by lia.
      pose proof (Z.mod_pos_bound k 60 ltac:(lia)).
      pose proof (Z.div_mod k 60 ltac:(lia)).
      pose proof (Z.div_pos k 60 ltac:(lia) ltac:(lia)). lia. }
    destruct (R m ltac:(lia)) as [Rm [Qm Em]]. destruct (R n ltac:(lia)) as [Rn [Qn En]].
    destruct (Z.ltb_spec m 60) as [M | M]; destruct (Z.ltb_spec n 60) as [N | N].
    + destruct (counted_equal m n "s" "s" "" "" ltac:(lia) ltac:(lia) eq_refl eq_refl H)
        as [E _]. exact E.
    + exfalso.
      destruct (counted_equal m (n / 60) "s" "m" "" (" " ++ show (Z.rem n 60) ++ "s")
                  ltac:(lia) Qn eq_refl eq_refl H) as [_ [E _]].
      discriminate E.
    + exfalso.
      destruct (counted_equal (m / 60) n "m" "s" (" " ++ show (Z.rem m 60) ++ "s") ""
                  Qm ltac:(lia) eq_refl eq_refl H) as [_ [E _]].
      discriminate E.
    + destruct (counted_equal (m / 60) (n / 60) "m" "m"
                  (" " ++ show (Z.rem m 60) ++ "s") (" " ++ show (Z.rem n 60) ++ "s")
                  Qm Qn eq_refl eq_refl H) as [Eq [_ H1]].
      cbn [append] in H1. injection H1 as H1.
      destruct (counted_equal (Z.rem m 60) (Z.rem n 60) "s" "s" "" ""
                  Rm Rn eq_refl eq_refl H1) as [Er _].
      lia.
  - intros [Hm _] [Hn _]. unfold fmtDur.
    destruct (Z.eqb_spec m 0) as [? | _]; [lia |].
    destruct (Z.eqb_spec n 0) as [? | _]; [lia |].
    destruct (Z.ltb_spec m 60) as [? | _]; [lia |].
    destruct (Z.ltb_spec n 60) as [? | _]; [lia |].
    destruct (Z.ltb_spec m 3600) as [? | _]; [lia |].
    destruct (Z.ltb_spec n 3600) as [? | _]; [lia |].
    assert (R : forall k, (3600 <= k)%Z ->
                          (0 <= k / 3600)%Z /\ (0 <= Z.rem k 3600 / 60 < 60)%Z /\
                          (k / 60 = 60 * (k / 3600) + Z.rem k 3600 / 60)%Z).
    { intros k Hk. rewrite Z.rem_mod_nonneg by lia.
      pose proof (Z.mod_pos_bound k 3600 ltac:(lia)).
      pose proof (Z.div_mod k 3600 ltac:(lia)).
      pose proof (Z.div_pos k 3600 ltac:(lia) ltac:(lia)).
      pose proof (Z.div_mod (k mod 3600) 60 ltac:(lia)).
      pose proof (Z.mod_pos_bound (k mod 3600) 60 ltac:(lia)).
      split; [lia |]. split; [split; [apply Z.div_pos; lia | apply Z.div_lt_upper_bound; lia] |].
      symmetry. apply (Z.div_unique k 60 _ ((k mod 3600) mod 60)); lia. }
    destruct (R m Hm) as [Qm [Bm Em]]. destruct (R n Hn) as [Qn [Bn En]].
    split.
    + intros H.
      destruct (counted_equal (m / 3600) (n / 3600) "h" "h"
                  (" " ++ show (Z.rem m 3600 / 60) ++ "m")
                  (" " ++ show (Z.rem n 3600 / 60) ++ "m")
                  Qm Qn eq_refl eq_refl H) as [Eq [_ H1]].
      cbn [append] in H1. injection H1 as H1.
      destruct (counted_equal (Z.rem m 3600 / 60) (Z.rem n 3600 / 60) "m" "m" "" ""
                  (proj1 Bm) (proj1 Bn) eq_refl eq_refl H1) as [Er _].
      lia.
    + intros H.
      assert (E : (m / 3600 = n / 3600 /\ Z.rem m 3600 / 60 = Z.rem n 3600 / 60)%Z).
      { rewrite H in Em. clear H R.
        generalize dependent (m / 3600)%Z. generalize dependent (n / 3600)%Z.
        generalize dependent (Z.rem m 3600 / 60)%Z.
        generalize dependent (Z.rem n 3600 / 60)%Z. intros. lia. }
      destruct E as [E1 E2]. rewrite E1, E2. reflexivity.
Qed.

Lemma fmtDur_precision_witness :
  fmtDur (Some 3725%Z) = fmtDur (Some 3779%Z) /\
  fmtDur (Some 3725%Z) = "1h 2m".
Proof.
  split; [| reflexivity].
  exact (proj2 (proj2 (fmtDur_precision 3725 3779) ltac:(lia) ltac:(lia)) eq_refl).
Defined.

(** X15.  The elapsed time of a banner and the duration of the release
    table are written alike: for a start time [t] and the clock at
    [now], [_fmtElapsed] gives the text [_fmtDur] gives for the whole
    seconds between them, except when that number is zero, where the
    banner shows [0s] and the table a dash.  A start time ahead of the
    clock shows as a negative number of seconds, however far ahead. *)
Theorem fmtElapsed_agrees_with_fmtDur :
  forall now t : Z,
    let s := ((now - t) / 1000)%Z in
    (s <> 0%Z -> fmtElapsed now (Instant t) = fmtDur (Some s)) /\
    (s = 0%Z -> fmtElapsed now (Instant t) = "0s" /\ fmtDur (Some s) = "—") /\
    ((now < t)%Z ->
       exists k, (0 < k)%Z /\
                 fmtElapsed now (Instant t) = ("-" ++ show k ++ "s")%string).
Proof.
  intros now t s. split; [| split]; intros H.
  - unfold fmtElapsed, fmtDur. fold s.
    destruct (Z.eqb_spec s 0) as [E | _]; [contradiction | reflexivity].
  - unfold fmtElapsed, fmtDur. fold s. rewrite H. split; reflexivity.
  - assert (N : (s < 0)%Z) by (subst s; apply Z.div_lt_upper_bound; lia).
    exists (- s)%Z. split; [lia |].
    unfold fmtElapsed. fold s.
    destruct (Z.ltb_spec s 60) as [_ | ?]; [| lia].
    destruct s as [| p | p]; try lia. reflexivity.
Qed.

(** X16.  The age of a release is written in the largest unit that
    fits, with a count in range: [just now] below one minute (a date
    ahead of the clock included), then 1 to 59 minutes, 1 to 23 hours,
    and 1 or more days; never a count of zero, never [60m] or [24h]. *)
Theorem fmtRel_counts_in_range :
  forall now t : Z,
    let s := ((now - t) / 1000)%Z in
    ((s < 60)%Z -> fmtRel now (Instant t) = "just now") /\
    ((60 <= s)%Z ->
       exists k unit,
         fmtRel now (Instant t) = (show k ++ unit)%string /\
         ((unit = "m ago" /\ (1 <= k < 60)%Z /\ k = (s / 60)%Z) \/
          (unit = "h ago" /\ (1 <= k < 24)%Z /\ k = (s / 3600)%Z) \/
          (unit = "d ago" /\ (1 <= k)%Z /\ k = (s / 86400)%Z))).
Proof.
  intros now t s. unfold fmtRel. fold s. split; intros H.
  - destruct (Z.ltb_spec s 60) as [_ | ?]; [reflexivity | lia].
  - destruct (Z.ltb_spec s 60) as [? | _]; [lia |].
    destruct (Z.ltb_spec s 3600) as [H1 | H1].
    + exists (s / 60)%Z, "m ago". split; [reflexivity |]. left.
      split; [reflexivity |]. split; [| reflexivity].
      split; [apply Z.div_le_lower_bound; lia | apply Z.div_lt_upper_bound; lia].
    + destruct (Z.ltb_spec s 86400) as [H2 | H2].
      * exists (s / 3600)%Z, "h ago". split; [reflexivity |]. right. left.
        split; [reflexivity |]. split; [| reflexivity].
        split; [apply Z.div_le_lower_bound; lia | apply Z.div_lt_upper_bound; lia].
      * exists (s / 86400)%Z, "d ago". split; [reflexivity |]. right. right.
        split; [reflexivity |]. split; [| reflexivity].
        apply Z.div_le_lower_bound; lia.
Qed.

End FormatFacts.

(* ------------------------------------------------------------------ *)
(** ** Labels *)

Section LabelFacts.

Import Uri Label.
Open Scope string_scope.
Open Scope list_scope.

Lemma append_assoc_string :
  forall u v w : string, ((u ++ v) ++ w)%string = (u ++ v ++ w)%string.
Proof.
  induction u as [| c u IH]; intros v w; [reflexivity |].
  cbn [append]. rewrite IH. reflexivity.
Qed.

Lemma reverse_app :
  forall u v, reverse (u ++ v)%string = (reverse v ++ reverse u)%string.
Proof.
  induction u as [| c u IH]; intros v.
  - cbn [append reverse]. rewrite append_empty_r. reflexivity.
  - cbn [append reverse]. rewrite IH, append_assoc_string. reflexivity.
Qed.

Lemma reverse_involutive : forall u, reverse (reverse u) = u.
Proof.
  induction u as [| c u IH]; [reflexivity |].
  cbn [reverse]. rewrite reverse_app, IH. reflexivity.
Qed.

Lemma every_reverse : forall p u, every p (reverse u) = every p u.
Proof.
  intros p. induction u as [| c u IH]; [reflexivity |].
  cbn [reverse every]. rewrite every_app, IH. cbn [every].
  rewrite andb_true_r. apply andb_comm.
Qed.

(** What [trimStart] returns is the end of its argument, and does not
    begin with white space. *)
Lemma trimStart_spec :
  forall n s,
    String.length s <= n ->
    (exists pre, s = (pre ++ trimStart s)%string) /\
    (forall c, first (trimStart s) = Some c -> is_space c = false).
Proof.
  induction n as [| n IH]; intros s Hn.
  - destruct s; [| cbn in Hn; lia]. split; [exists EmptyString; reflexivity |].
    intros c H. discriminate H.
  - destruct s as [| c1 rest1].
    { split; [exists EmptyString; reflexivity |]. intros c H. discriminate H. }
    cbn [String.length] in Hn. cbn [trimStart].
    destruct (is_space c1) eqn:S1.
    { destruct (IH rest1 ltac:(lia)) as [[pre E] F]. split; [| exact F].
      exists (String c1 pre). cbn [append]. rewrite <- E. reflexivity. }
    assert (Keep : (exists pre, String c1 rest1 = (pre ++ String c1 rest1)%string) /\
                   (forall c, first (String c1 rest1) = Some c -> is_space c = false)).
    { split; [exists EmptyString; reflexivity |].
      intros c H. injection H as <-. exact S1. }
    destruct rest1 as [| c2 rest2]; [exact Keep |].
    cbn [String.length] in Hn.
    destruct (is_space2 c1 c2).
    { destruct (IH rest2 ltac:(lia)) as [[pre E] F]. split; [| exact F].
      exists (String c1 (String c2 pre)). cbn [append]. rewrite <- E. reflexivity. }
    destruct rest2 as [| c3 rest3]; [exact Keep |].
    cbn [String.length] in Hn.
    destruct (is_space3 c1 c2 c3); [| exact Keep].
    destruct (IH rest3 ltac:(lia)) as [[pre E] F]. split; [| exact F].
    exists (String c1 (String c2 (String c3 pre))). cbn [append]. rewrite <- E. reflexivity.
Qed.

Lemma trimStart_reversed_spec :
  forall n s,
    String.length s <= n ->
    (exists pre, s = (pre ++ trimStart_reversed s)%string) /\
    (forall c, first (trimStart_reversed s) = Some c -> is_space c = false).
Proof.
  induction n as [| n IH]; intros s Hn.
  - destruct s; [| cbn in Hn; lia]. split; [exists EmptyString; reflexivity |].
    intros c H. discriminate H.
  - destruct s as [| c1 rest1].
    { split; [exists EmptyString; reflexivity |]. intros c H. discriminate H. }
    cbn [String.length] in Hn. cbn [trimStart_reversed].
    destruct (is_space c1) eqn:S1.
    { destruct (IH rest1 ltac:(lia)) as [[pre E] F]. split; [| exact F].
      exists (String c1 pre). cbn [append]. rewrite <- E. reflexivity. }
    assert (Keep : (exists pre, String c1 rest1 = (pre ++ String c1 rest1)%string) /\
                   (forall c, first (String c1 rest1) = Some c -> is_space c = false)).
    { split; [exists EmptyString; reflexivity |].
      intros c H. injection H as <-. exact S1. }
    destruct rest1 as [| c2 rest2]; [exact Keep |].
    cbn [String.length] in Hn.
    destruct (is_space2 c2 c1).
    { destruct (IH rest2 ltac:(lia)) as [[pre E] F]. split; [| exact F].
      exists (String c1 (String c2 pre)). cbn [append]. rewrite <- E. reflexivity. }
    destruct rest2 as [| c3 rest3]; [exact Keep |].
    cbn [String.length] in Hn.
    destruct (is_space3 c3 c2 c1); [| exact Keep].
    destruct (IH rest3 ltac:(lia)) as [[pre E] F]. split; [| exact F].
    exists (String c1 (String c2 (String c3 pre))). cbn [append]. rewrite <- E. reflexivity.
Qed.

(** [trim] keeps a middle part of its argument, which neither begins
    nor ends with white space of one byte. *)
Lemma trim_spec :
  forall s,
    (exists pre post, s = (pre ++ trim s ++ post)%string) /\
    (forall c, first (trim s) = Some c -> is_space c = false) /\
    (forall c, last (trim s) = Some c -> is_space c = false).
Proof.
  intros s. unfold trim, trimEnd.
  destruct (trimStart_spec (String.length s) s (le_n _)) as [[pre E] F].
  set (y := trimStart s) in *.
  destruct (trimStart_reversed_spec (String.length (reverse y)) (reverse y) (le_n _))
    as [[post' E'] F'].
  set (w := trimStart_reversed (reverse y)) in *.
  assert (Y : y = (reverse w ++ reverse post')%string).
  { rewrite <- (reverse_involutive y), E', reverse_app. reflexivity. }
  split; [| split].
  - exists pre, (reverse post'). rewrite <- Y. exact E.
  - intros c H. apply F. rewrite Y.
    destruct (reverse w) as [| x r]; [discriminate H | exact H].
  - intros c H. unfold last in H. rewrite reverse_involutive in H. apply F'. exact H.
Qed.

Lemma every_part :
  forall p pre mid post,
    every p (pre ++ mid ++ post)%string = true -> every p mid = true.
Proof.
  intros p pre mid post H. rewrite !every_app in H.
  apply andb_true_iff in H. destruct H as [_ H].
  apply andb_true_iff in H. destruct H as [H _]. exact H.
Qed.

Lemma blank_marks_unmarked :
  forall s, every (fun c => negb (is_mark c)) (blank_marks s) = true.
Proof.
  induction s as [| c s IH]; [reflexivity |].
  cbn [blank_marks every]. rewrite IH, andb_true_r.
  destruct (is_mark c) eqn:M; [reflexivity | rewrite M; reflexivity].
Qed.

Lemma upper_ascii_unmarked :
  forall c, is_mark c = false -> is_mark (upper_ascii c) = false.
Proof. intros c. each_byte c; intros H; try reflexivity; discriminate H. Qed.

Lemma capitalize_unmarked :
  forall s,
    every (fun c => negb (is_mark c)) s = true ->
    every (fun c => negb (is_mark c)) (capitalize s) = true.
Proof.
  intros [| c s] H; [reflexivity |]. cbn [capitalize].
  destruct (is_word c); [| exact H].
  cbn [every] in H |- *. apply andb_true_iff in H. destruct H as [Hc Hs].
  apply negb_true_iff in Hc. rewrite (upper_ascii_unmarked c Hc), Hs. reflexivity.
Qed.

(** X17.  The label [_humanize] makes of a key has no underscore and
    no hyphen left, and neither begins nor ends with a blank, a tab or a
    line break, whatever the key is. *)
Theorem humanize_label_is_clean :
  forall str : string,
    every (fun c => negb (is_mark c)) (humanize str) = true /\
    (forall c, first (humanize str) = Some c -> is_space c = false) /\
    (forall c, last (humanize str) = Some c -> is_space c = false).
Proof.
  intros str. unfold humanize.
  set (s := capitalize (blank_marks (space_capitals str))).
  destruct (trim_spec s) as [[pre [post E]] [F L]].
  split; [| split; assumption].
  apply (every_part _ pre _ post). rewrite <- E.
  apply capitalize_unmarked. apply blank_marks_unmarked.
Qed.

End LabelFacts.

(* ------------------------------------------------------------------ *)
(** ** States, pills and actions *)

Section StatusFacts.

Import Status.
Open Scope string_scope.
Open Scope list_scope.

Lemma status_keys : map fst stateConf_map = stateConf_keys.
Proof. reflexivity. Qed.

(** The pill pulses for the four states in transition and for no other
    value. *)
Lemma stateConf_pulse :
  forall state, pulse (stateConf state) = existsb (String.eqb state) Widget.activeStates.
Proof.
  intros state.
  destruct (in_dec string_dec state stateConf_keys) as [Hin | Hout].
  - simpl in Hin.
    repeat (destruct Hin as [<- | Hin]; [reflexivity |]). contradiction.
  - assert (O : own stateConf_map state = None).
    { apply own_In. rewrite status_keys. exact Hout. }
    assert (E : existsb (String.eqb state) Widget.activeStates = false).
    { destruct (existsb (String.eqb state) Widget.activeStates) eqn:X; [| reflexivity].
      exfalso. apply Hout. apply existsb_eqb_In in X. simpl in X. simpl.
      repeat (destruct X as [<- | X]; [tauto |]). contradiction. }
    rewrite E. unfold stateConf, get_property. rewrite O.
    destruct (existsb (String.eqb state) Object_prototype_keys); reflexivity.
Qed.

Lemma header_actions_empty :
  forall state,
    header_actions state = Normal [] <->
    existsb (String.eqb state) Widget.activeStates = true.
Proof.
  intros state. split.
  - intros H.
    destruct (in_dec string_dec state stateConf_keys) as [Hin | Hout].
    + simpl in Hin.
      repeat (destruct Hin as [<- | Hin]; [try reflexivity; discriminate H |]).
      contradiction.
    + exfalso.
      assert (O : own maps state = None) by (apply outside_action_table; left; exact Hout).
      unfold header_actions, get_property in H. rewrite O in H.
      destruct (existsb (String.eqb state) Object_prototype_keys); discriminate H.
  - intros H. apply existsb_eqb_In in H. simpl in H.
    repeat (destruct H as [<- | H]; [reflexivity |]). contradiction.
Qed.

(** [_stateConf] always returns something to read fields from. *)
Lemma stateConf_defined :
  forall state,
    (exists sc, stateConf state = Own sc) \/
    (stateConf state = Inherited /\ In state Object_prototype_keys).
Proof.
  intros state. unfold stateConf, get_property.
  destruct (own stateConf_map state) as [sc |]; [left; eexists; reflexivity |].
  destruct (existsb (String.eqb state) Object_prototype_keys) eqn:E.
  - right. split; [reflexivity |]. apply existsb_eqb_In. exact E.
  - left. eexists. reflexivity.
Qed.

(** X18.  One table of states in three places.  The status pill
    pulses exactly when the cluster state is one of those that keep the
    refresh polling, and exactly then the header offers no action; so a
    pulsing pill always comes with polling.  [_stateConf] never returns
    [undefined]: it gives an entry of its table, or, for the name of a
    member of [Object.prototype], that member. *)
Theorem pill_pulses_while_in_transition :
  forall w : Widget.Fields,
    let state := shown_state (Widget.env w) in
    pulse (stateConf state) = Widget.is_activeState (Widget.state_of w) /\
    (header_actions state = Normal [] <->
     Widget.is_activeState (Widget.state_of w) = true) /\
    (pulse (stateConf state) = true -> Widget.pollingActive w = true) /\
    ((exists sc, stateConf state = Own sc) \/
     (stateConf state = Inherited /\ In state Object_prototype_keys)).
Proof.
  intros w state.
  assert (E : Widget.is_activeState (Widget.state_of w)
              = existsb (String.eqb state) Widget.activeStates).
  { subst state. unfold shown_state, Widget.state_of, env_or_empty, Widget.is_activeState.
    destruct (Widget.env w) as [e |]; [| reflexivity].
    destruct (clusterState e) as [[| c st] |]; reflexivity. }
  rewrite E. split; [apply stateConf_pulse |]. split; [apply header_actions_empty |].
  split; [| apply stateConf_defined].
  intros H. rewrite stateConf_pulse, <- E in H.
  unfold Widget.pollingActive. rewrite H. apply orb_true_r.
Qed.

Lemma own_some_In :
  forall (A : Type) (table : list (string * A)) (key : string) (v : A),
    own table key = Some v -> In (key, v) table.
Proof.
  induction table as [| [k x] rest IH]; intros key v H; [discriminate H |].
  cbn [own] in H. destruct (String.eqb_spec k key) as [-> | _].
  - injection H as ->. left. reflexivity.
  - right. apply IH. exact H.
Qed.

(** X19.  Every button of the header leads somewhere.  Whatever the
    cluster state is, each action [_headerCTAs] renders is one
    [_handleCTA] navigates for, to a route under the environment's own
    path, with or without a deployment id at hand. *)
Theorem header_actions_are_routed :
  forall (stackName name state : string) (ctas : list CTA) (c : CTA)
         (depId : option string),
    header_actions state = Normal ctas -> In c ctas ->
    exists suffix,
      handleCTA stackName name (a c) depId =
      Navigate ("/projects/" ++ stackName ++ "/environments/" ++ name ++ suffix).
Proof.
  intros stackName name state ctas c depId H Hin.
  assert (V : In ctas (map snd maps)).
  { unfold header_actions, get_property in H.
    destruct (own maps state) as [v |] eqn:O.
    - injection H as <-. apply own_some_In in O.
      apply (in_map snd) in O. exact O.
    - destruct (existsb (String.eqb state) Object_prototype_keys); [discriminate H |].
      cbn in H. injection H as <-. left. reflexivity. }
  assert (R : forall act suffix,
             own (routes stackName name) act
             = Some ("/projects/" ++ stackName ++ "/environments/" ++ name ++ suffix)%string ->
             String.eqb act "approve" = false -> String.eqb act "reject" = false ->
             String.eqb act "abort" = false ->
             handleCTA stackName name act depId =
             Navigate ("/projects/" ++ stackName ++ "/environments/" ++ name ++ suffix)).
  { intros act suffix O E1 E2 E3. unfold handleCTA, get_property.
    rewrite O, E1, E2, E3. cbn [append truthy_str].
    destruct depId as [dep |]; [destruct (truthy_str dep) |]; reflexivity. }
  assert (B : forall suffix,
             (("/projects/" ++ stackName ++ "/environments/" ++ name) ++ suffix)%string
             = ("/projects/" ++ stackName ++ "/environments/" ++ name ++ suffix)%string).
  { intros suffix. cbn [append]. rewrite !append_assoc_string. reflexivity. }
  simpl in V.
  repeat (destruct V as [<- | V];
          [simpl in Hin;
           repeat (destruct Hin as [<- | Hin];
                   [eexists; apply R; [cbn [own routes String.eqb Ascii.eqb Bool.eqb a cta];
                                       rewrite B; reflexivity
                                      | reflexivity | reflexivity | reflexivity] |]);
           contradiction |]).
  contradiction.
Qed.

End StatusFacts.

Lemma header_actions_are_routed_witness :
  exists suffix,
    Status.handleCTA "Acme" "prod-1" "destroy" None =
    Status.Navigate ("/projects/" ++ "Acme" ++ "/environments/" ++ "prod-1" ++ suffix).
Proof.
  exact (header_actions_are_routed "Acme" "prod-1" "RUNNING"
           [cta "Trigger Release" "trigger-release" true false;
            cta "Hotfix" "trigger-hotfix" false false;
            cta "Scale Down" "scale-down" false false;
            cta "Destroy" "destroy" false true]
           (cta "Destroy" "destroy" false true) None eq_refl
           (or_intror (or_intror (or_intror (or_introl eq_refl))))).
Defined.

Section RouteFacts.

Import Status.
Open Scope string_scope.
Open Scope list_scope.

Lemma routes_truthy :
  forall stackName name action route,
    own (routes stackName name) action = Some route -> truthy_str route = true.
Proof.
  intros stackName name action route H. apply own_some_In in H.
  unfold routes in H. cbn [In] in H.
  repeat (destruct H as [H | H]; [injection H as _ <-; reflexivity |]).
  contradiction.
Qed.

(** X20.  When a click does nothing.  [_handleCTA] dispatches no
    navigation exactly when the action has no entry in the route table,
    is not the name of a member of [Object.prototype], and is not an
    approve, reject or abort that comes with a deployment id.  So
    approve, reject and abort without a deployment id are dropped
    silently, as is every unknown action. *)
Theorem handleCTA_stays_iff :
  forall (stackName name action : string) (depId : option string),
    handleCTA stackName name action depId = Stay <->
    own (routes stackName name) action = None /\
    existsb (String.eqb action) Object_prototype_keys = false /\
    (truthy_ostr depId = true -> ~ In action ["approve"; "reject"; "abort"]).
Proof.
  intros stackName name action depId.
  assert (T : (match get_property (routes stackName name) action with
               | Own route => if truthy_str route then Navigate route else Stay
               | Inherited => NavigateInherited
               | Undefined => Stay
               end = Stay) <->
              own (routes stackName name) action = None /\
              existsb (String.eqb action) Object_prototype_keys = false).
  { unfold get_property.
    destruct (own (routes stackName name) action) as [route |] eqn:O.
    - rewrite (routes_truthy _ _ _ _ O). split; [discriminate | intros [H _]; discriminate H].
    - destruct (existsb (String.eqb action) Object_prototype_keys).
      + split; [discriminate | intros [_ H]; discriminate H].
      + split; [intros _; split; reflexivity | reflexivity]. }
  assert (E : forall x, String.eqb action x = true -> action = x)
    by (intros x; apply String.eqb_eq).
  assert (N : forall x, String.eqb action x = false -> action <> x)
    by (intros x; apply String.eqb_neq).
  unfold handleCTA. cbn zeta.
  destruct depId as [dep |]; cbn [truthy_ostr].
  - destruct (truthy_str dep).
    + destruct (String.eqb action "approve") eqn:E1.
      { split; [discriminate |]. intros [_ [_ H]]. exfalso. apply (H eq_refl).
        left. symmetry. apply E. exact E1. }
      destruct (String.eqb action "reject") eqn:E2.
      { split; [discriminate |]. intros [_ [_ H]]. exfalso. apply (H eq_refl).
        right. left. symmetry. apply E. exact E2. }
      destruct (String.eqb action "abort") eqn:E3.
      { split; [discriminate |]. intros [_ [_ H]]. exfalso. apply (H eq_refl).
        right. right. left. symmetry. apply E. exact E3. }
      rewrite T. split.
      * intros [H1 H2]. split; [exact H1 |]. split; [exact H2 |].
        intros _ [H | [H | [H | []]]]; symmetry in H.
        -- exact (N _ E1 H).
        -- exact (N _ E2 H).
        -- exact (N _ E3 H).
      * intros [H1 [H2 _]]. split; assumption.
    + rewrite T. split.
      * intros [H1 H2]. split; [exact H1 |]. split; [exact H2 |]. discriminate.
      * intros [H1 [H2 _]]. split; assumption.
  - rewrite T. split.
    + intros [H1 H2]. split; [exact H1 |]. split; [exact H2 |]. discriminate.
    + intros [H1 [H2 _]]. split; assumption.
Qed.

Lemma handleCTA_stays_iff_witness :
  handleCTA "Acme" "prod-1" "approve" None = Stay /\
  handleCTA "Acme" "prod-1" "approve" (Some "d42") =
  Navigate "/projects/Acme/environments/prod-1/releases/d42?action=approve".
Proof.
  split; [| reflexivity].
  apply (proj2 (handleCTA_stays_iff "Acme" "prod-1" "approve" None)).
  split; [reflexivity |]. split; [reflexivity |]. intros H. discriminate H.
Defined.

End RouteFacts.

(* ------------------------------------------------------------------ *)
(** ** Tab bodies and cards *)

Section TabFacts.

Import Tabs.
Open Scope string_scope.
Open Scope list_scope.

Lemma map_rows_items :
  forall items rows, map_rows row items = Normal rows -> rows = items.
Proof.
  induction items as [| x items IH]; intros rows H.
  - cbn in H. injection H as <-. reflexivity.
  - cbn [map_rows] in H.
    destruct (row x) as [r |] eqn:Rx; [| discriminate H]. cbn [bind] in H.
    destruct (map_rows row items) as [rs |] eqn:Rs; [| discriminate H].
    cbn [bind] in H. injection H as <-.
    rewrite (IH rs eq_refl).
    assert (E : r = x).
    { unfold row in Rx. destruct x; try discriminate Rx;
        repeat match type of Rx with
               | context [match ?y with _ => _ end] => destruct y
               end; try discriminate Rx; injection Rx as <-; reflexivity. }
    rewrite E. reflexivity.
Qed.

(** X21.  The release table.  When the Release History card shows a
    table, it has at least one row and at most 25, and the rows are the
    first entries of the list in their order; entries after the 25th are
    never read, so they cannot change what is shown; and the card shows
    its loading text exactly when the cached field is falsy. *)
Theorem release_table_rows :
  forall deps : Json,
    (forall rows,
       releaseHistory deps = Normal (Table rows) ->
       rows <> [] /\ List.length rows <= 25 /\
       exists items, release_list deps = JArr items /\ rows = firstn 25 items) /\
    (forall items more,
       25 <= List.length items ->
       releaseHistory (JArr (items ++ more)) = releaseHistory (JArr items)) /\
    (releaseHistory deps = Normal LoadingHistory <-> truthy deps = false).
Proof.
  intros deps. split; [| split].
  - intros rows H. unfold releaseHistory in H.
    destruct (truthy deps); [| discriminate H]. cbn [negb] in H.
    destruct (has_length (release_list deps)) eqn:L; [| discriminate H].
    cbn [negb] in H.
    destruct (release_list deps) as [| b | x | s | items | props];
      try discriminate H.
    cbn [slice_25 bind] in H.
    destruct (map_rows row (firstn 25 items)) as [rs |] eqn:M; [| discriminate H].
    cbn [bind] in H. injection H as <-.
    rewrite (map_rows_items _ _ M).
    split; [| split].
    + destruct items; [discriminate L | discriminate].
    + apply firstn_le_length.
    + exists items. split; reflexivity.
  - intros items more Hlen. unfold releaseHistory.
    cbn [truthy negb release_list has_length slice_25 bind].
    rewrite firstn_app.
    replace (25 - List.length items) with 0 by lia.
    cbn [firstn]. rewrite app_nil_r.
    destruct items as [| x items]; [cbn in Hlen; lia |]. reflexivity.
  - unfold releaseHistory. destruct (truthy deps); cbn [negb].
    + split; [| discriminate].
      destruct (has_length (release_list deps)); cbn [negb]; [| discriminate].
      destruct (slice_25 (release_list deps)) as [items |]; cbn [bind]; [| discriminate].
      destruct (map_rows row items); cbn [bind]; discriminate.
    + split; reflexivity.
Qed.

Lemma release_table_rows_witness :
  exists items,
    release_list (JObj [("content", JArr [JObj [("status", JStr "SUCCEEDED")]])])
    = JArr items /\
    [JObj [("status", JStr "SUCCEEDED")]] = firstn 25 items.
Proof.
  exact (proj2 (proj2 (proj1 (release_table_rows
                                (JObj [("content", JArr [JObj [("status", JStr "SUCCEEDED")]])]))
                             [JObj [("status", JStr "SUCCEEDED")]] eq_refl))).
Defined.

Lemma own_replace :
  forall (table : list (string * Tally)) k v t,
    own (replace table k v) t =
    if String.eqb k t
    then match own table k with Some _ => Some v | None => None end
    else own table t.
Proof.
  induction table as [| [k0 x] rest IH]; intros k v t.
  - cbn. destruct (String.eqb k t); reflexivity.
  - cbn [replace own].
    destruct (String.eqb_spec k0 k) as [-> | Hk].
    + cbn [own]. destruct (String.eqb_spec k t) as [-> | Ht]; reflexivity.
    + cbn [own]. rewrite IH.
      destruct (String.eqb_spec k t) as [<- | Ht].
      * destruct (String.eqb_spec k0 k) as [E | _]; [contradiction | reflexivity].
      * reflexivity.
Qed.

Lemma own_added :
  forall (table : list (string * Tally)) k v t,
    own (table ++ [(k, v)]) t =
    match own table t with
    | Some x => Some x
    | None => if String.eqb k t then Some v else None
    end.
Proof.
  induction table as [| [k0 x] rest IH]; intros k v t.
  - reflexivity.
  - cbn [app own]. destruct (String.eqb k0 t); [reflexivity | apply IH].
Qed.

(** One more entry of type [u], seen from the key [t]. *)
Lemma own_bump :
  forall byType u t,
    own (bump byType u) t =
    if String.eqb u t then
      match own byType t with
      | Some (Count n) => Some (Count (n + 1))
      | Some Garbled => Some Garbled
      | None =>
          if existsb (String.eqb t) Object_prototype_keys
          then if String.eqb t "__proto__" then None else Some Garbled
          else Some (Count 1)
      end
    else own byType t.
Proof.
  intros byType u t. unfold bump, get_property.
  destruct (String.eqb_spec u t) as [-> | Hne].
  - destruct (own byType t) as [[n |] |] eqn:O.
    + rewrite own_replace, String.eqb_refl, O. reflexivity.
    + rewrite own_replace, String.eqb_refl, O. reflexivity.
    + destruct (existsb (String.eqb t) Object_prototype_keys).
      * destruct (String.eqb t "__proto__"); [exact O |].
        rewrite own_added, O, String.eqb_refl. reflexivity.
      * rewrite own_added, O, String.eqb_refl. reflexivity.
  - assert (F : String.eqb u t = false) by (apply String.eqb_neq; exact Hne).
    destruct (own byType u) as [[n |] |] eqn:O.
    + rewrite own_replace, F. reflexivity.
    + rewrite own_replace, F. reflexivity.
    + destruct (existsb (String.eqb u) Object_prototype_keys).
      * destruct (String.eqb u "__proto__"); [reflexivity |].
        rewrite own_added, F. destruct (own byType t); reflexivity.
      * rewrite own_added, F. destruct (own byType t); reflexivity.
Qed.

(** The tile of a key once all entries are counted, from where it
    stood. *)
Lemma own_tally_from :
  forall ts byType t,
    own (fold_left bump ts byType) t =
    match List.length (filter (fun u => String.eqb u t) ts) with
    | 0 => own byType t
    | S k =>
        match own byType t with
        | Some (Count n) => Some (Count (n + S k))
        | Some Garbled => Some Garbled
        | None =>
            if existsb (String.eqb t) Object_prototype_keys
            then if String.eqb t "__proto__" then None else Some Garbled
            else Some (Count (S k))
        end
    end.
Proof.
  induction ts as [| u ts IH]; intros byType t; [reflexivity |].
  cbn [fold_left filter]. rewrite IH, own_bump.
  destruct (String.eqb u t); cbn [List.length].
  - destruct (List.length (filter (fun u0 => String.eqb u0 t) ts)) as [| k].
    + destruct (own byType t) as [[n |] |]; reflexivity.
    + destruct (own byType t) as [[n |] |].
      * f_equal. f_equal. lia.
      * reflexivity.
      * destruct (existsb (String.eqb t) Object_prototype_keys).
        -- destruct (String.eqb t "__proto__"); reflexivity.
        -- reflexivity.
  - reflexivity.
Qed.

Lemma entries_of_types :
  forall t items,
    List.length (filter (fun u => String.eqb u t) (map type_of items)) = entries_of t items.
Proof.
  intros t. unfold entries_of. induction items as [| r items IH]; [reflexivity |].
  cbn [map filter]. destruct (String.eqb (type_of r) t); cbn [List.length]; rewrite IH;
    reflexivity.
Qed.

(** X22.  The type tiles of the Resources tab.  For every type name
    that is not a member of [Object.prototype], the tile of the type
    counts the entries of that type, and there is no tile when there is
    none.  A type named like such a member ([constructor], [toString],
    ...) never gets a count: its tile holds a garbled text, and
    [__proto__] gets no tile at all. *)
Theorem tiles_count_entries :
  forall (items : list Resource) (t : string),
    (~ In t Object_prototype_keys ->
       own (tally items) t =
       match entries_of t items with
       | 0 => None
       | S k => Some (Count (S k))
       end) /\
    (In t Object_prototype_keys ->
       own (tally items) t =
       match entries_of t items with
       | 0 => None
       | S _ => if String.eqb t "__proto__" then None else Some Garbled
       end).
Proof.
  intros items t. unfold tally. rewrite own_tally_from, entries_of_types.
  cbn [own]. split; intros H.
  - destruct (existsb (String.eqb t) Object_prototype_keys) eqn:E.
    + apply existsb_eqb_In in E. contradiction.
    + reflexivity.
  - apply existsb_eqb_In in H. rewrite H. reflexivity.
Qed.

Lemma tiles_count_entries_witness :
  own (tally [ {| resourceType := Some "service"; res_type := None |};
               {| resourceType := None; res_type := Some "redis" |};
               {| resourceType := Some "service"; res_type := Some "ignored" |} ])
      "service" = Some (Count 2).
Proof.
  refine (proj1 (tiles_count_entries
                   [ {| resourceType := Some "service"; res_type := None |};
                     {| resourceType := None; res_type := Some "redis" |};
                     {| resourceType := Some "service"; res_type := Some "ignored" |} ]
                   "service") _).
  intros H. simpl in H.
  repeat (destruct H as [H | H]; [discriminate H |]). exact H.
Defined.

Lemma float_lt_irrefl : forall x : float, (x <? x)%float = false.
Proof.
  intros x. rewrite FloatAxioms.ltb_spec. unfold SFltb, SFcompare.
  destruct (Prim2SF x) as [[|] | [|] | | [|] m e]; try reflexivity;
    rewrite Z.compare_refl;
    change (PosDef.Pos.compare_cont Eq m m) with (Pos.compare m m);
    rewrite Pos.compare_refl; reflexivity.
Qed.

(** X23.  The resources card and a count of zero.  When
    [enabledCount] is zero or missing and so is [activeCount], the
    number the card gives as active is the total, and no number of
    disabled resources is shown: an environment whose resources are all
    disabled reads as all active. *)
Theorem card_reads_zero_enabled_as_all :
  forall stats : CardStats,
    falsy_num (cs_enabledCount stats) = true ->
    falsy_num (cs_activeCount stats) = true ->
    card_enabled stats = card_total stats /\ shows_disabled stats = false.
Proof.
  intros stats He Ha.
  assert (F : forall x y, falsy_num x = true -> num_or x y = y).
  { intros [v |] y H; [| reflexivity]. cbn in H |- *.
    apply negb_true_iff in H. rewrite H. reflexivity. }
  assert (E : card_enabled stats = card_total stats).
  { unfold card_enabled. rewrite (F _ _ He), (F _ _ Ha). reflexivity. }
  split; [exact E |]. unfold shows_disabled. rewrite E. apply float_lt_irrefl.
Qed.

Lemma card_reads_zero_enabled_as_all_witness :
  card_enabled {| cs_totalCount := Some 5%float; cs_total := None;
                  cs_enabledCount := Some 0%float; cs_activeCount := None |}
  = 5%float.
Proof.
  exact (proj1 (card_reads_zero_enabled_as_all
                  {| cs_totalCount := Some 5%float; cs_total := None;
                     cs_enabledCount := Some 0%float; cs_activeCount := None |}
                  eq_refl eq_refl)).
Defined.

End TabFacts.
